(** * Self-healing test execution pipeline: a shallow embedding

    The development follows the JavaScript sources of the repository:

    - [agents/agent3-test-executor/index.js]: [triggerAgent3],
      [runPlaywrightTests], [correctFailedSelectors],
      [updatePageObjectSelector], [escapeRegex], [updateJiraWithResults];
    - [agents/agent1-test-creator/index.js]: [triggerAgent1],
      [generateTestCases];
    - [agents/agent2-script-generator/index.js]: [triggerAgent2],
      [generatePlaywrightScript], [createPullRequest];
    - [shared/utils/jira-utils.js]: [addComment], [updateIssueFields],
      [getCustomFieldId], [updateCustomFields], [transitionIssue],
      [updateJiraCard];
    - [server.js]: [triggerFullWorkflow].

    Strings are sequences of code units below 256 ([string] of the Standard
    Library).  Values produced by [JSON.parse] are a first-order data type;
    the file system is a finite map from paths to contents; asynchronous
    code is sequential ([await] everywhere), so it is embedded in a state
    and exception monad whose state carries the file system and the trace
    of external calls.  The answers of the outside world (subprocess,
    network, AI backend, issue tracker, git) are oracles that may depend
    on the whole history. *)

From Stdlib Require Import ZArith Bool Ascii String List Lia.
From Stdlib Require Import DecimalString.
From stdpp Require Import base option gmap strings.

Local Open Scope string_scope.
Local Open Scope bool_scope.
Set Warnings "-register-all".

(** ** Strings *)

Module Str.

(** [s.substring(0, n)] and [s.substring(n)]. *)
Fixpoint take (n : nat) (s : string) : string :=
  match n, s with
  | S k, String a t => String a (take k t)
  | _, _ => ""
  end.

Fixpoint drop (n : nat) (s : string) : string :=
  match n, s with
  | S k, String _ t => drop k t
  | _, _ => s
  end.

(** If [p] is a prefix of [s], the rest of [s]. *)
Fixpoint stripPrefix (p s : string) : option string :=
  match p with
  | "" => Some s
  | String a p' =>
      match s with
      | String b s' => if Ascii.eqb a b then stripPrefix p' s' else None
      | "" => None
      end
  end.

(** Every character of [s] satisfies [f]. *)
Fixpoint all (f : ascii -> bool) (s : string) : bool :=
  match s with
  | "" => true
  | String a t => f a && all f t
  end.

(** The longest prefix whose characters satisfy [f], and the rest: what a
    greedy character-class repetition consumes. *)
Fixpoint span (f : ascii -> bool) (s : string) : string * string :=
  match s with
  | "" => ("", "")
  | String a t =>
      if f a then let '(u, v) := span f t in (String a u, v)
      else ("", s)
  end.

Fixpoint join (sep : string) (l : list string) : string :=
  match l with
  | [] => ""
  | [x] => x
  | x :: r => x ++ sep ++ join sep r
  end.

End Str.

(** ** Values of the language *)

Module Js.

(** What [JSON.parse] returns, plus [undefined] (the result of reading an
    absent property).  Numbers are integers here: the code only observes
    a number through its truthiness and its decimal rendering.  An object
    is the list of its own properties, each key once. *)
Inductive value : Type :=
| VUndef
| VNull
| VBool (b : bool)
| VNum (n : Z)
| VStr (s : string)
| VArr (items : list value)
| VObj (fields : list (string * value)).

Inductive error : Type :=
| TypeError           (* property of null/undefined, call of a non-function,
                         argument of the wrong type *)
| SyntaxError         (* JSON.parse *)
| IOError             (* fs.readFile on a missing file *)
| ExternalError (who : string).   (* a rejected external call *)

Inductive result (A : Type) : Type :=
| Ok (a : A)
| Throw (e : error).
Arguments Ok {A} a.
Arguments Throw {A} e.

Fixpoint assoc (k : string) (fields : list (string * value)) : value :=
  match fields with
  | [] => VUndef
  | (k', v) :: r => if String.eqb k k' then v else assoc k r
  end.

(** [v.k] for the property names the program reads ([suites], [tests],
    [status], [title], [file], [error], [message], [confidence],
    [originalSelector], [suggestedSelector]): none of them is defined on
    a prototype, so only own properties of parsed objects answer. *)
Definition getProp (v : value) (k : string) : result value :=
  match v with
  | VUndef | VNull => Throw TypeError
  | VObj fields => Ok (assoc k fields)
  | _ => Ok VUndef
  end.

(** [v?.k] *)
Definition getPropOpt (v : value) (k : string) : value :=
  match v with
  | VObj fields => assoc k fields
  | _ => VUndef
  end.

Definition truthy (v : value) : bool :=
  match v with
  | VUndef | VNull => false
  | VBool b => b
  | VNum n => negb (Z.eqb n 0)
  | VStr s => negb (String.eqb s "")
  | VArr _ | VObj _ => true
  end.

(** [a || b] *)
Definition orElse (a b : value) : value := if truthy a then a else b.

(** [v === 'lit'] *)
Definition strictEqStr (v : value) (lit : string) : bool :=
  match v with
  | VStr s => String.eqb s lit
  | _ => false
  end.

(** [ToString], as a template literal applies it. *)
Fixpoint toString (v : value) : string :=
  match v with
  | VUndef => "undefined"
  | VNull => "null"
  | VBool true => "true"
  | VBool false => "false"
  | VNum n => NilZero.string_of_int (Z.to_int n)
  | VStr s => s
  | VArr items =>
      Str.join ","
        (map (fun x => match x with
                       | VUndef | VNull => ""
                       | _ => toString x
                       end) items)
  | VObj _ => "[object Object]"
  end.

End Js.

(** ** Regular expressions of the program

    A pattern tried at the start of a string answers with the number of
    characters it consumes and its capture groups. *)

Module Regex.

Definition pattern : Type := string -> option (nat * list string).

Definition isSome {A : Type} (o : option A) : bool :=
  match o with Some _ => true | None => false end.

(** [pattern.test(s)] on a fresh regular expression: is there a position
    of [s] where the pattern matches. *)
Fixpoint test (p : pattern) (s : string) : bool :=
  match s with
  | "" => isSome (p "")
  | String _ t => isSome (p s) || test p t
  end.

Definition digitVal (c : ascii) : option nat :=
  let n := nat_of_ascii c in
  if (48 <=? n)%nat && (n <=? 57)%nat then Some (n - 48) else None.

Definition capture (caps : list string) (i : nat) : string :=
  nth (i - 1) caps "".

Definition validIndex (caps : list string) (i : nat) : bool :=
  (1 <=? i)%nat && (i <=? List.length caps)%nat.

(** [GetSubstitution] of ECMAScript, without named groups: the expansion
    of a replacement template for one match. *)
Fixpoint getSubstitution (matched before after : string)
    (caps : list string) (tpl : string) : string :=
  let rec := getSubstitution matched before after caps in
  match tpl with
  | "" => ""
  | String "$" ((String c t) as t1) =>
      if Ascii.eqb c "$" then String "$" (rec t)
      else if Ascii.eqb c "&" then matched ++ rec t
      else if Ascii.eqb c "`" then before ++ rec t
      else if Ascii.eqb c "'" then after ++ rec t
      else
        match digitVal c with
        | None => String "$" (rec t1)
        | Some d1 =>
            let oneDigit :=
              if validIndex caps d1 then capture caps d1 ++ rec t
              else String "$" (String c (rec t)) in
            match t with
            | String c2 t2 =>
                match digitVal c2 with
                | Some d2 =>
                    let idx := 10 * d1 + d2 in
                    if (List.length caps <? idx)%nat then oneDigit
                    else if validIndex caps idx then capture caps idx ++ rec t2
                    else String "$" (String c (String c2 (rec t2)))
                | None => oneDigit
                end
            | "" => oneDigit
            end
        end
  | String ch t => String ch (rec t)
  end.

(** [s.replace(p, tpl)] for a global pattern [p]: the matches are found
    from left to right, each search starting where the previous match
    ended (one character further after an empty match).  [before] is the
    text already passed, [skip] the characters of the current match that
    are still to be passed. *)
Fixpoint replaceFrom (p : pattern) (tpl : string)
    (before : string) (skip : nat) (s : string) : string :=
  match s with
  | "" =>
      match skip, p "" with
      | 0, Some (_, caps) => getSubstitution "" before "" caps tpl
      | _, _ => ""
      end
  | String ch t =>
      let before' := before ++ String ch "" in
      match skip with
      | S k => replaceFrom p tpl before' k t
      | 0 =>
          match p s with
          | Some (n, caps) =>
              getSubstitution (Str.take n s) before (Str.drop n s) caps tpl ++
              match n with
              | 0 => String ch (replaceFrom p tpl before' 0 t)
              | S k => replaceFrom p tpl before' k t
              end
          | None => String ch (replaceFrom p tpl before' 0 t)
          end
      end
  end.

Definition replaceAll (p : pattern) (tpl : string) (s : string) : string :=
  replaceFrom p tpl "" 0 s.

(** The matches a global replacement rewrites. *)
Fixpoint countFrom (p : pattern) (skip : nat) (s : string) : nat :=
  match s with
  | "" => match skip, p "" with 0, Some _ => 1 | _, _ => 0 end
  | String ch t =>
      match skip with
      | S k => countFrom p k t
      | 0 =>
          match p s with
          | Some (0, _) => S (countFrom p 0 t)
          | Some (S k, _) => S (countFrom p k t)
          | None => countFrom p 0 t
          end
      end
  end.

Definition countMatches (p : pattern) (s : string) : nat := countFrom p 0 s.

(** Character classes. *)
Definition isQuote (c : ascii) : bool :=
  Ascii.eqb c "'" || Ascii.eqb c "034" || Ascii.eqb c "`".

Definition isOpenDelim (c : ascii) : bool := isQuote c || Ascii.eqb c "(".
Definition isCloseDelim (c : ascii) : bool := isQuote c || Ascii.eqb c ")".
Definition isDelim (c : ascii) : bool := isOpenDelim c || isCloseDelim c.

(** A single or a double quote, the class of the import and navigation
    patterns. *)
Definition isQuote2 (c : ascii) : bool :=
  Ascii.eqb c "'" || Ascii.eqb c "034".

(** [\s] on code units below 256. *)
Definition isSpace (c : ascii) : bool :=
  let n := nat_of_ascii c in
  ((9 <=? n)%nat && (n <=? 13)%nat) || (n =? 32)%nat || (n =? 160)%nat.

(** [\w] *)
Definition isWord (c : ascii) : bool :=
  let n := nat_of_ascii c in
  ((48 <=? n)%nat && (n <=? 57)%nat) || ((65 <=? n)%nat && (n <=? 90)%nat)
  || ((97 <=? n)%nat && (n <=? 122)%nat) || (n =? 95)%nat.

(** [escapeRegex]: a backslash before every character that is special in
    a regular expression. *)
Definition isRegexSpecial (c : ascii) : bool :=
  existsb (Ascii.eqb c)
    (list_ascii_of_string ".*+?^${}()|[]\").

Fixpoint escapeRegex (s : string) : string :=
  match s with
  | "" => ""
  | String c t =>
      if isRegexSpecial c then String "\" (String c (escapeRegex t))
      else String c (escapeRegex t)
  end.

(** The part of a pattern source that [escapeRegex] produced, tried at
    the start of a string: a backslash makes the next character stand for
    itself, any other character stands for itself (no special character
    is left bare).  The answer is the rest of the string. *)
Fixpoint matchEscaped (src s : string) : option string :=
  match src with
  | "" => Some s
  | String "\" (String c src') =>
      match s with
      | String b s' => if Ascii.eqb c b then matchEscaped src' s' else None
      | "" => None
      end
  | String c src' =>
      match s with
      | String b s' => if Ascii.eqb c b then matchEscaped src' s' else None
      | "" => None
      end
  end.

(** First pattern of [updatePageObjectSelector]: an opening delimiter
    (single quote, double quote, backquote or left parenthesis) in group 1,
    the escaped locator, a closing delimiter (one of the three quotes or a
    right parenthesis) in group 2. *)
Definition quotedLocator (loc : string) : pattern := fun s =>
  match s with
  | String o s1 =>
      if isOpenDelim o then
        match matchEscaped (escapeRegex loc) s1 with
        | Some (String c _) =>
            if isCloseDelim c
            then Some (2 + String.length loc, [String o ""; String c ""])
            else None
        | _ => None
        end
      else None
  | "" => None
  end.

(** Second pattern: a colon, a space, one of the three quotes, the
    escaped locator, one of the three quotes; no group. *)
Definition keyedLocator (loc : string) : pattern := fun s =>
  match Str.stripPrefix ": " s with
  | Some (String q s1) =>
      if isQuote q then
        match matchEscaped (escapeRegex loc) s1 with
        | Some (String q' _) =>
            if isQuote q' then Some (4 + String.length loc, []) else None
        | _ => None
        end
      else None
  | _ => None
  end.

(** Characters of a locator that is free of delimiters, and of a suggested
    selector that is free of substitution patterns. *)
Definition notDelim (c : ascii) : bool := negb (isDelim c).
Definition notDollar (c : ascii) : bool := negb (Ascii.eqb c "$").

(** Two delimited occurrences of the locator that share a delimiter: the
    closing delimiter of the first is the opening delimiter of the second. *)
Definition chained (loc : string) : pattern := fun s =>
  match quotedLocator loc s with
  | Some (n, _) =>
      match quotedLocator loc (Str.drop (n - 1) s) with
      | Some _ => Some (n, [])
      | None => None
      end
  | None => None
  end.

End Regex.

(** ** Effects: file system, external calls, exceptions *)

Module Eff.
Import Js.

(** The aggregated result of [triggerAgent3] ([testResults]) and the
    entries of its [correctedSelectors]. *)
Record correction : Type := Correction {
  c_test : value;
  c_file : value;
  c_originalSelector : value;
  c_newSelector : value
}.

Record testResults : Type := TestResults {
  totalTests : nat;
  passed : nat;
  failed : nat;
  correctedSelectors : list correction;
  startTime : Z;
  endTime : option Z;
  correctionPrUrl : option string
}.

(** Comments posted to the issue tracker; the text of a comment is a
    rendering of these data. *)
Inductive jiraNote : Type :=
| Agent1Started
| Agent1Completed
| Agent1Failed
| Agent2Completed
| Agent2Failed
| Agent3Failed
| Agent3Results (r : testResults) (prUrl : option string).

Inductive logLine : Type :=
| LogAgentBanner (n : nat)  (* the banner an agent prints when it starts *)
| LogAgent2Error            (* server.js: Agent 2 error *)
| LogAgent3Error            (* server.js: Agent 3 error *)
| LogWorkflowCompleted      (* server.js: WORKFLOW COMPLETED *)
| LogFatalWorkflowError     (* server.js: Fatal error in workflow *)
| LogSkipNoSelector         (* Could not extract selector from error *)
| LogSkipNoUrl              (* Could not extract page URL from test *)
| LogSkipNoHtml             (* Could not fetch page HTML *)
| LogSkipLowConfidence      (* Low confidence suggestion, skipping *)
| LogAttemptError           (* Error analyzing selector *)
| LogPatchError             (* Could not update page object *)
| LogReportUnreadable.      (* Could not parse test results *)

(** Calls that leave the process, in the order they are made. *)
Inductive event : Type :=
| EvPrepareRepo
| EvRunTests (headed : bool)
| EvFetch (url : string)
| EvAdvise (failedSelector htmlPrefix : string)
| EvWriteFile (path content : string)
| EvCommit
| EvPush
| EvCreatePR
| EvJira (issueKey : string) (note : jiraNote)
| EvGenerateTestCases
| EvSaveTestCases
| EvGenerateScript
| EvPublish
| EvLog (l : logLine).

(** The outside world.  Every answer may depend on the history of the
    run (the trace so far). *)
Record world : Type := World {
  (* node:path *)
  path_join : list string -> string;
  path_dirname : string -> string;
  (* JSON.parse: [None] is a SyntaxError *)
  JSON_parse : string -> option value;
  (* path.join(__dirname, '..', '..', 'temp-repo') *)
  repoDir : string;
  (* path.join(__dirname, 'shared', 'test-cases', key + '-test-cases.json') *)
  testCasePath : string -> string;
  (* the pull-request list URL built from the environment variables *)
  pullsUrl : option string;
  (* rm, mkdir, git clone, npm install: the new file system, or a
     rejection *)
  cloneRepo : list event -> gmap string string -> option (gmap string string);
  (* npx playwright test: what the subprocess leaves on disk *)
  execTests : list event -> gmap string string -> gmap string string;
  (* fs.readdir *)
  readdir : list event -> gmap string string -> string -> option (list string);
  (* fs.writeFile may be rejected *)
  writable : list event -> string -> bool;
  (* axios.get(url).then(r => r.data): [None] is a rejection *)
  httpGet : list event -> string -> option value;
  (* anthropic.messages.create on the correction prompt, which is
     determined by the failed selector and the page markup prefix;
     the answer is response.content[0].text, [None] when the call is
     rejected or the answer has no text *)
  advise : list event -> string -> string -> option string;
  gitCommitOk : list event -> bool;
  gitConfigOk : list event -> bool;
  createPR : list event -> option string;
  jiraOk : list event -> bool;
  now : list event -> Z;
  (* Agent 1 and Agent 2 collaborators *)
  generateOk : list event -> bool;
  saveOk : list event -> bool;
  scriptOk : list event -> bool;
  publishOk : list event -> bool
}.

Record state : Type := State {
  fs : gmap string string;
  trace : list event
}.

Definition M (A : Type) : Type := state -> result A * state.

Definition ret {A} (a : A) : M A := fun st => (Ok a, st).

Definition bind {A B} (m : M A) (k : A -> M B) : M B := fun st =>
  match m st with
  | (Ok a, st') => k a st'
  | (Throw e, st') => (Throw e, st')
  end.

Definition throw {A} (e : error) : M A := fun st => (Throw e, st).

(** [try { m } catch (e) { h e }] *)
Definition tryCatch {A} (m : M A) (h : error -> M A) : M A := fun st =>
  match m st with
  | (Ok a, st') => (Ok a, st')
  | (Throw e, st') => h e st'
  end.

Definition liftR {A} (r : result A) : M A := fun st => (r, st).

Definition history : M (list event) := fun st => (Ok (trace st), st).
Definition files : M (gmap string string) := fun st => (Ok (fs st), st).

Definition emit (e : event) : M unit := fun st =>
  (Ok tt, State (fs st) (trace st ++ [e])).

Definition setFiles (f : gmap string string) : M unit := fun st =>
  (Ok tt, State f (trace st)).

Definition log (l : logLine) : M unit := emit (EvLog l).

(** An external call that is recorded and then accepted or rejected. *)
Definition call (e : event) (ok : list event -> bool) (who : string) : M unit :=
  fun st =>
    let st' := State (fs st) (trace st ++ [e]) in
    if ok (trace st) then (Ok tt, st') else (Throw (ExternalError who), st').

(** [fs.readFile(p, 'utf-8')] *)
Definition readFile (p : string) : M string := fun st =>
  match fs st !! p with
  | Some c => (Ok c, st)
  | None => (Throw IOError, st)
  end.

(** [fs.writeFile(p, c)] *)
Definition writeFile (w : world) (p c : string) : M unit := fun st =>
  if writable w (trace st) p
  then (Ok tt, State (<[p := c]> (fs st)) (trace st ++ [EvWriteFile p c]))
  else (Throw IOError, st).

(** A string argument of a library function that rejects anything else
    ([path.join], [String.prototype] methods reached through a property
    that other values do not have). *)
Definition asString (v : value) : M string :=
  match v with
  | VStr s => ret s
  | _ => throw TypeError
  end.

Definition updateJiraCard (w : world) (issueKey : string) (note : jiraNote) : M unit :=
  call (EvJira issueKey note) (jiraOk w) "jira".

End Eff.

Declare Scope eff_scope.
Delimit Scope eff_scope with eff.
Notation "'do' x <- m ; k" := (Eff.bind m (fun x => k))
  (at level 10, x name, m at level 100, k at level 200) : eff_scope.
Notation "'do' ' pat <- m ; k" :=
  (Eff.bind m (fun x => match x with pat => k end))
  (at level 10, pat pattern, m at level 100, k at level 200) : eff_scope.
Notation "'run' m ; k" := (Eff.bind m (fun _ => k))
  (at level 10, m at level 100, k at level 200) : eff_scope.

Local Open Scope eff_scope.

(** ** agents/agent3-test-executor/index.js *)

Module Agent3.
Import Js Eff Regex.

(** *** runPlaywrightTests *)

Record failedTest : Type := FailedTest {
  ft_name : value;
  ft_file : value;
  ft_error : value
}.

Record runResult : Type := RunResult {
  r_totalTests : nat;
  r_passed : nat;
  r_failed : nat;
  r_failedTests : list failedTest;
  r_screenshots : option (list string)
}.

Definition emptyRun : runResult := RunResult 0 0 0 [] None.

(** The body of the inner [forEach]: [testResults] is updated in place,
    so what was written before an exception stays written. *)
Definition visitTest (test : value) (r : runResult) : runResult * option error :=
  let r1 := RunResult (S (r_totalTests r)) (r_passed r) (r_failed r)
              (r_failedTests r) (r_screenshots r) in
  match getProp test "status" with
  | Throw e => (r1, Some e)
  | Ok status =>
      if strictEqStr status "passed" then
        (RunResult (r_totalTests r1) (S (r_passed r1)) (r_failed r1)
           (r_failedTests r1) (r_screenshots r1), None)
      else
        (RunResult (r_totalTests r1) (r_passed r1) (S (r_failed r1))
           (r_failedTests r1 ++
            [FailedTest (getPropOpt test "title") (getPropOpt test "file")
               (orElse (getPropOpt (getPropOpt test "error") "message")
                       (VStr "Unknown error"))])
           (r_screenshots r1), None)
  end.

(** [xs.forEach(f)] with an exception leaving the loop. *)
Fixpoint forEach (f : value -> runResult -> runResult * option error)
    (xs : list value) (r : runResult) : runResult * option error :=
  match xs with
  | [] => (r, None)
  | x :: rest =>
      match f x r with
      | (r', None) => forEach f rest r'
      | (r', Some e) => (r', Some e)
      end
  end.

(** [v?.forEach(f)]: nothing on null or undefined, the loop on an array,
    a TypeError on anything else (no other parsed value has a callable
    [forEach]). *)
Definition optForEach (v : value)
    (f : value -> runResult -> runResult * option error)
    (r : runResult) : runResult * option error :=
  match v with
  | VUndef | VNull => (r, None)
  | VArr xs => forEach f xs r
  | _ => (r, Some TypeError)
  end.

Definition visitSuite (suite : value) (r : runResult) : runResult * option error :=
  match getProp suite "tests" with
  | Throw e => (r, Some e)
  | Ok tests => optForEach tests visitTest r
  end.

Definition walkReport (results : value) (r : runResult) : runResult * option error :=
  match getProp results "suites" with
  | Throw e => (r, Some e)
  | Ok suites => optForEach suites visitSuite r
  end.

Fixpoint endsWith_rev (rsuffix rs : list ascii) : bool :=
  match rsuffix, rs with
  | [], _ => true
  | a :: u, b :: v => Ascii.eqb a b && endsWith_rev u v
  | _ :: _, [] => false
  end.

(** [f.endsWith(suffix)] *)
Definition endsWith (f suffix : string) : bool :=
  endsWith_rev (rev (list_ascii_of_string suffix)) (rev (list_ascii_of_string f)).

(** *** Locator and URL extraction *)

(** The first position of [s] where [p] matches. *)
Fixpoint search {A : Type} (p : string -> option A) (s : string) : option A :=
  match p s with
  | Some x => Some x
  | None =>
      match s with
      | "" => None
      | String _ t => search p t
      end
  end.

Definition nonEmpty (s : string) : bool := negb (String.eqb s "").

Definition notQuote1 (c : ascii) : bool := negb (Ascii.eqb c "'").
Definition notQuote2 (c : ascii) : bool := negb (isQuote2 c).

(** [prefix] followed by one or more characters other than a single
    quote (group) and by [suffix].  The repetition is greedy and stops
    at the first single quote or at the end, and a shorter repetition
    cannot be followed by a single quote, so there is one candidate. *)
Definition quotedCall (prefix suffix : string) (s : string) : option string :=
  match Str.stripPrefix prefix s with
  | Some s1 =>
      let '(body, s2) := Str.span notQuote1 s1 in
      if nonEmpty body then
        match Str.stripPrefix suffix s2 with
        | Some _ => Some body
        | None => None
        end
      else None
  | None => None
  end.

(** The three alternatives of the pattern applied to the error message,
    in order, at one position. *)
Definition selectorAt (s : string) : option string :=
  match quotedCall "locator('" "')" s with
  | Some x => Some x
  | None =>
      match quotedCall "selector('" "')" s with
      | Some x => Some x
      | None => quotedCall "'" "'" s
      end
  end.

(** [elementMatch?.[1] || elementMatch?.[2] || elementMatch?.[3]]: the
    group of the alternative that matched is a non-empty string, the
    other two are undefined. *)
Definition extractSelector (errorText : string) : option string :=
  search selectorAt errorText.

(** The navigation pattern at one position: [page.goto(], a quote, one
    or more characters other than quotes (group), a quote, a right
    parenthesis. *)
Definition gotoAt (s : string) : option string :=
  match Str.stripPrefix "page.goto(" s with
  | Some (String q s1) =>
      if isQuote2 q then
        let '(body, s2) := Str.span notQuote2 s1 in
        if nonEmpty body then
          match s2 with
          | String _ (String ")" _) => Some body
          | _ => None
          end
        else None
      else None
  | _ => None
  end.

Definition extractPageUrl (pageContent : string) : option string :=
  search gotoAt pageContent.

(** The import pattern at one position: [import], spaces, a left brace,
    optional spaces, a word (group 1), optional spaces, a right brace,
    spaces, [from], spaces, a quote, characters other than quotes
    (group 2), a quote.  Consecutive pieces start with characters of
    disjoint classes, so the greedy repetitions are the only candidates. *)
Definition importAt (s : string) : option (string * string) :=
  match Str.stripPrefix "import" s with
  | Some s1 =>
      let '(ws1, s2) := Str.span isSpace s1 in
      match nonEmpty ws1, s2 with
      | true, String "{" s3 =>
          let '(_, s4) := Str.span isSpace s3 in
          let '(cls, s5) := Str.span isWord s4 in
          let '(_, s6) := Str.span isSpace s5 in
          match nonEmpty cls, s6 with
          | true, String "}" s7 =>
              let '(ws2, s8) := Str.span isSpace s7 in
              match nonEmpty ws2, Str.stripPrefix "from" s8 with
              | true, Some s9 =>
                  let '(ws3, s10) := Str.span isSpace s9 in
                  match nonEmpty ws3, s10 with
                  | true, String q s11 =>
                      if isQuote2 q then
                        let '(modulePath, s12) := Str.span notQuote2 s11 in
                        match nonEmpty modulePath, s12 with
                        | true, String _ _ => Some (cls, modulePath)
                        | _, _ => None
                        end
                      else None
                  | _, _ => None
                  end
              | _, _ => None
              end
          | _, _ => None
          end
      | _, _ => None
      end
  | None => None
  end.

Definition pageImportMatch (testContent : string) : option (string * string) :=
  search importAt testContent.

(** A literal followed by an optional line feed, as in the two
    code-fence patterns. *)
Definition literalOptNewline (lit : string) : pattern := fun s =>
  match Str.stripPrefix lit s with
  | Some (String "010" _) => Some (S (String.length lit), [])
  | Some _ => Some (String.length lit, [])
  | None => None
  end.

Definition trimStart (s : string) : string := snd (Str.span isSpace s).

(** [s.trim()] *)
Definition trim (s : string) : string :=
  String.rev (trimStart (String.rev (trimStart s))).

(** The clean-up of the advisory answer before [JSON.parse]. *)
Definition stripFences (text : string) : string :=
  trim (replaceAll (literalOptNewline "```")  ""
         (replaceAll (literalOptNewline "```json") "" text)).

(** The replacement string: group 1, the suggested selector, group 2. *)
Definition template (suggested : string) : string :=
  "$1" ++ suggested ++ "$2".

Section WithWorld.
Context (w : world).

Definition runPlaywrightTests (dir : string) (headedMode : bool) : M runResult :=
  (* execSync inside try/catch: a non-zero exit code is swallowed *)
  do h <- history;
  do f <- files;
  run emit (EvRunTests headedMode);
  run setFiles (execTests w h f);
  let resultsPath := path_join w [dir; "test-results"; "results.json"] in
  do testResults <-
    tryCatch
      (do resultsFile <- readFile resultsPath;
       match JSON_parse w resultsFile with
       | None => throw SyntaxError
       | Some results =>
           match walkReport results emptyRun with
           | (r, None) => ret r
           | (r, Some _) => run log LogReportUnreadable; ret r
           end
       end)
      (fun _ => run log LogReportUnreadable; ret emptyRun);
  (* screenshots *)
  do h' <- history;
  do f' <- files;
  let screenshotDir := path_join w [dir; "test-results"] in
  match readdir w h' f' screenshotDir with
  | Some names =>
      ret (RunResult (r_totalTests testResults) (r_passed testResults)
             (r_failed testResults) (r_failedTests testResults)
             (Some (List.filter (fun f => endsWith f ".png") names)))
  | None => ret testResults
  end.

(** *** updatePageObjectSelector *)

Definition selectorPatterns (original : string) : list pattern :=
  [quotedLocator original; keyedLocator original].

(** The loop over [selectorPatterns]: the first pattern that the
    content passes is applied, and the loop is left. *)
Fixpoint applyFirst (patterns : list pattern) (tpl content : string)
    : option string :=
  match patterns with
  | [] => None
  | p :: rest =>
      if test p content then Some (replaceAll p tpl content)
      else applyFirst rest tpl content
  end.

Definition replacementTemplate (suggestion : value) : string :=
  template (toString (getPropOpt suggestion "suggestedSelector")).

Definition updatePageObjectSelector (dir : string) (testFile suggestion : value)
    : M bool :=
  tryCatch
    (do testFileS <- asString testFile;
     do testContent <- readFile (path_join w [dir; testFileS]);
     match pageImportMatch testContent with
     | None => ret false
     | Some (_, modulePath) =>
         let pageFilePath :=
           path_join w [path_dirname w testFileS; modulePath ++ ".ts"] in
         let absolutePagePath := path_join w [dir; pageFilePath] in
         do pageContent <- readFile absolutePagePath;
         do originalV <- liftR (getProp suggestion "originalSelector");
         do original <- asString originalV;
         match applyFirst (selectorPatterns original)
                 (replacementTemplate suggestion) pageContent with
         | Some pageContent' =>
             run writeFile w absolutePagePath pageContent';
             ret true
         | None => ret false
         end
     end)
    (fun _ => run log LogPatchError; ret false).

(** *** correctFailedSelectors *)

(** One iteration of the loop; [continue] returns the list as it is. *)
Definition correctionAttempt (dir : string) (ft : failedTest)
    (corrections : list correction) : M (list correction) :=
  tryCatch
    (do errorText <- asString (ft_error ft);
     match extractSelector errorText with
     | None => run log LogSkipNoSelector; ret corrections
     | Some failedSelector =>
         do fileS <- asString (ft_file ft);
         do pageContent <- readFile (path_join w [dir; fileS]);
         match extractPageUrl pageContent with
         | None => run log LogSkipNoUrl; ret corrections
         | Some pageUrl =>
             do h <- history;
             run emit (EvFetch pageUrl);
             let pageHtml :=
               match httpGet w h pageUrl with
               | Some v => v
               | None => VNull
               end in
             if negb (truthy pageHtml) then
               run log LogSkipNoHtml; ret corrections
             else
               do html <- asString pageHtml;
               let htmlPrefix := Str.take 5000 html in
               do h2 <- history;
               run emit (EvAdvise failedSelector htmlPrefix);
               match advise w h2 failedSelector htmlPrefix with
               | None => throw (ExternalError "anthropic")
               | Some text =>
                   match JSON_parse w (stripFences text) with
                   | None => throw SyntaxError
                   | Some suggestion =>
                       do confidence <- liftR (getProp suggestion "confidence");
                       if strictEqStr confidence "high"
                          || strictEqStr confidence "medium"
                       then
                         do updated <-
                           updatePageObjectSelector dir (ft_file ft) suggestion;
                         if updated then
                           ret (corrections ++
                                [Correction (ft_name ft) (ft_file ft)
                                   (getPropOpt suggestion "originalSelector")
                                   (getPropOpt suggestion "suggestedSelector")])%list
                         else ret corrections
                       else
                         run log LogSkipLowConfidence; ret corrections
                   end
               end
         end
     end)
    (fun _ => run log LogAttemptError; ret corrections).

Fixpoint correctLoop (dir : string) (failedTests : list failedTest)
    (corrections : list correction) : M (list correction) :=
  match failedTests with
  | [] => ret corrections
  | ft :: rest =>
      do corrections' <- correctionAttempt dir ft corrections;
      correctLoop dir rest corrections'
  end.

Definition correctFailedSelectors (dir : string)
    (failedTests : list failedTest) : M (list correction) :=
  correctLoop dir failedTests [].

(** *** triggerAgent3 *)

Definition prepareTestRepo : M unit :=
  do h <- history;
  do f <- files;
  run emit EvPrepareRepo;
  match cloneRepo w h f with
  | Some f' => setFiles f'
  | None => throw (ExternalError "git")
  end.

Definition clock : M Z := fun st => (Ok (now w (trace st)), st).

(** git add and commit; the benign rejection is swallowed. *)
Definition commitCorrections : M unit := call EvCommit (gitCommitOk w) "git".

(** The two addConfig calls are outside the try of the function. *)
Definition pushCorrections : M unit := call EvPush (gitConfigOk w) "git".

Definition createCorrectionPR : M (option string) :=
  do h <- history;
  run emit EvCreatePR;
  ret (createPR w h).

Definition updateJiraWithResults (issueKey : string) (tr : testResults)
    (prUrl : option string) : M unit :=
  updateJiraCard w issueKey (Agent3Results tr prUrl).

Definition withCounts (tr : testResults) (total p f : nat) : testResults :=
  TestResults total p f (correctedSelectors tr) (startTime tr) (endTime tr)
    (correctionPrUrl tr).

Definition withCorrections (tr : testResults) (cs : list correction) : testResults :=
  TestResults (totalTests tr) (passed tr) (failed tr) cs (startTime tr)
    (endTime tr) (correctionPrUrl tr).

Definition withEndTime (tr : testResults) (t : Z) : testResults :=
  TestResults (totalTests tr) (passed tr) (failed tr) (correctedSelectors tr)
    (startTime tr) (Some t) (correctionPrUrl tr).

Definition withCorrectionPrUrl (tr : testResults) (u : option string) : testResults :=
  TestResults (totalTests tr) (passed tr) (failed tr) (correctedSelectors tr)
    (startTime tr) (endTime tr) u.

(** Steps 2 to 4: the initial run, the correction pass, the rerun. *)
Definition runAndRepair (tr0 : testResults) : M testResults :=
  do initialResults <- runPlaywrightTests (repoDir w) true;
  let tr1 := withCounts tr0 (r_totalTests initialResults)
               (r_passed initialResults) (r_failed initialResults) in
  if (0 <? failed tr1)%nat then
    do corrections <-
      correctFailedSelectors (repoDir w) (r_failedTests initialResults);
    let tr2 := withCorrections tr1 corrections in
    if (0 <? List.length corrections)%nat then
      do retryResults <- runPlaywrightTests (repoDir w) true;
      ret (withCounts tr2 (totalTests tr2)
             (r_passed retryResults) (r_failed retryResults))
    else ret tr2
  else ret tr1.

(** Steps 5 and 6: commit, push, pull request, report. *)
Definition publishAndReport (issueKey : string) (prUrl : option string)
    (tr : testResults) : M testResults :=
  do t1 <- clock;
  let tr3 := withEndTime tr t1 in
  do tr4 <-
    (if (0 <? List.length (correctedSelectors tr3))%nat then
       run commitCorrections;
       run pushCorrections;
       do url <- createCorrectionPR;
       ret (withCorrectionPrUrl tr3 url)
     else ret tr3);
  run updateJiraWithResults issueKey tr4 prUrl;
  ret tr4.

Definition triggerAgent3 (issueKey : string) (prUrl : option string)
    : M testResults :=
  run log (LogAgentBanner 3);
  do t0 <- clock;
  let testResults := TestResults 0 0 0 [] t0 None None in
  tryCatch
    (run prepareTestRepo;
     do tr <- runAndRepair testResults;
     publishAndReport issueKey prUrl tr)
    (fun e =>
       run tryCatch (updateJiraCard w issueKey Agent3Failed) (fun _ => ret tt);
       throw e).

End WithWorld.

End Agent3.

(** ** Agents 1 and 2, and server.js *)

Module Workflow.
Import Js Eff.

(** The part of a Jira issue the agents read: [issue.key] and
    [issue.fields] (absent on the manual triggers of the server). *)
Record issueFields : Type := IssueFields {
  summary : string;
  description : string
}.

Record issue : Type := Issue {
  key : string;
  fields : option issueFields
}.

Section WithWorld.
Context (w : world).

(** agents/agent2-script-generator/index.js, [triggerAgent2]: script
    generation, then clone, branch, write, commit, push and pull
    request, then the report; any rejection is reported and thrown
    again.  What the agent leaves in the working checkout is removed
    by [prepareTestRepo] before Agent 3 reads it. *)
Definition triggerAgent2 (i : issue) : M unit :=
  run log (LogAgentBanner 2);
  tryCatch
    (run call EvGenerateScript (scriptOk w) "anthropic";
     run call EvPublish (publishOk w) "git";
     updateJiraCard w (key i) Agent2Completed)
    (fun e =>
       run tryCatch (updateJiraCard w (key i) Agent2Failed) (fun _ => ret tt);
       throw e).

(** agents/agent1-test-creator/index.js, [triggerAgent1].  The last
    statement of its try block calls Agent 2. *)
Definition triggerAgent1 (i : issue) : M unit :=
  run log (LogAgentBanner 1);
  tryCatch
    (run match fields i with
         | Some _ => ret tt
         | None => throw TypeError       (* issue.fields.description *)
         end;
     run updateJiraCard w (key i) Agent1Started;
     run call EvGenerateTestCases (generateOk w) "anthropic";
     run call EvSaveTestCases (saveOk w) "fs";
     run updateJiraCard w (key i) Agent1Completed;
     triggerAgent2 i)
    (fun e =>
       run tryCatch (updateJiraCard w (key i) Agent1Failed) (fun _ => ret tt);
       throw e).

(** The test cases handed to Agent 2 by the server: read back from the
    file, an empty list when that fails.  They only feed the script
    generation, which is an oracle here. *)
Definition loadTestCases (i : issue) : M value :=
  tryCatch
    (do content <- readFile (testCasePath w (key i));
     match JSON_parse w content with
     | None => throw SyntaxError
     | Some data =>
         do tc <- liftR (getProp data "testCases");
         ret (orElse tc (VArr []))
     end)
    (fun _ => ret (VArr [])).

(** server.js, [triggerFullWorkflow] *)
Definition triggerFullWorkflow (i : issue) : M unit :=
  tryCatch
    ((* Step 1 *)
     run triggerAgent1 i;
     do testCases <- loadTestCases i;
     (* Step 2 *)
     do prUrl <-
       tryCatch
         (run triggerAgent2 i;
          match pullsUrl w with
          | Some u => ret (Some u)
          | None => throw TypeError
          end)
         (fun _ => run log LogAgent2Error; ret None);
     (* Step 3 *)
     run tryCatch
           (run Agent3.triggerAgent3 w (key i) prUrl; ret tt)
           (fun _ => log LogAgent3Error);
     log LogWorkflowCompleted)
    (fun _ => log LogFatalWorkflowError).

End WithWorld.

End Workflow.

(** ** Vocabulary of the statements *)

Module Props.
Import Js Eff Regex Agent3.

Definition isRunEv (e : event) : bool := match e with EvRunTests _ => true | _ => false end.
Definition isWriteEv (e : event) : bool := match e with EvWriteFile _ _ => true | _ => false end.
Definition isAdviseEv (e : event) : bool := match e with EvAdvise _ _ => true | _ => false end.
Definition isLogEv (e : event) : bool := match e with EvLog _ => true | _ => false end.
Definition isRepairEv (e : event) : bool :=
  match e with EvFetch _ | EvAdvise _ _ | EvWriteFile _ _ | EvLog _ => true | _ => false end.
Definition isReportEv (e : event) : bool :=
  match e with EvCommit | EvPush | EvCreatePR | EvJira _ _ => true | _ => false end.

Definition post {A : Type} (m : M A) (st : state) (Q : result A -> state -> Prop) : Prop :=
  Q (fst (m st)) (snd (m st)).

(** The invariant of a run result. *)
Definition counted (r : runResult) : Prop :=
  r_totalTests r = r_passed r + r_failed r.

Definition listed (r : runResult) : Prop :=
  r_failed r = List.length (r_failedTests r).

(** A report without null entries among its tests. *)
Definition nullish (v : value) : bool :=
  match v with VUndef | VNull => true | _ => false end.
Definition testsOf (suite : value) : list value :=
  match getPropOpt suite "tests" with VArr l => l | _ => [] end.
Definition suitesOf (results : value) : list value :=
  match getPropOpt results "suites" with VArr l => l | _ => [] end.
Definition noNullTest (results : value) : bool :=
  forallb (fun suite => forallb (fun t => negb (nullish t)) (testsOf suite))
    (suitesOf results).

Definition resultsPath (w : world) (dir : string) : string :=
  path_join w [dir; "test-results"; "results.json"].

Definition highOrMedium (suggestion : value) : bool :=
  strictEqStr (getPropOpt suggestion "confidence") "high"
  || strictEqStr (getPropOpt suggestion "confidence") "medium".

(** The page-object file that the import of a test file designates. *)
Definition pagePath (w : world) (dir testFileS modulePath : string) : string :=
  path_join w [dir; path_join w [path_dirname w testFileS; modulePath ++ ".ts"]].

Definition notWriteEv (e : event) : bool := negb (isWriteEv e).

(** The patch of one page object: [path] held [before] and now holds the
    global rewriting of [before]. *)
Definition patchedBy (w : world) (dir : string) (testFile suggestion : value)
    (f : gmap string string) (path after : string) : Prop :=
  exists testFileS testContent cls modulePath orig before,
    testFile = VStr testFileS /\
    f !! path_join w [dir; testFileS] = Some testContent /\
    pageImportMatch testContent = Some (cls, modulePath) /\
    path = pagePath w dir testFileS modulePath /\
    f !! path = Some before /\
    getPropOpt suggestion "originalSelector" = VStr orig /\
    test (quotedLocator orig) before = true /\
    after = replaceAll (quotedLocator orig) (replacementTemplate suggestion) before.

Definition appliedCorrection (ft : failedTest) (suggestion : value) : correction :=
  Correction (ft_name ft) (ft_file ft)
    (getPropOpt suggestion "originalSelector")
    (getPropOpt suggestion "suggestedSelector").

(** What an attempt read before it asked for advice: the failed selector
    from the error text, the URL from the test file, the markup of the
    page. *)
Definition extracted (w : world) (dir : string) (ft : failedTest) (st : state)
    (url sel htmlPrefix : string) : Prop :=
  exists errorText fileS pageContent html,
    ft_error ft = VStr errorText /\
    extractSelector errorText = Some sel /\
    ft_file ft = VStr fileS /\
    fs st !! path_join w [dir; fileS] = Some pageContent /\
    extractPageUrl pageContent = Some url /\
    httpGet w (trace st) url = Some (VStr html) /\
    htmlPrefix = Str.take 5000 html.

(** The two ways an attempt ends: skipped (nothing recorded, nothing
    written), or applied (every step succeeded, one advisory answer of
    high or medium confidence, one write, one correction recorded). *)
Definition attemptPost (w : world) (dir : string) (ft : failedTest)
    (cs : list correction) (st : state)
    (r : result (list correction)) (st' : state) : Prop :=
  exists new,
    trace st' = (trace st ++ new)%list /\
    forallb isRepairEv new = true /\
    ((r = Ok cs /\ fs st' = fs st /\ forallb notWriteEv new = true)
     \/
     (exists url sel htmlPrefix text suggestion path after,
        new = [EvFetch url; EvAdvise sel htmlPrefix; EvWriteFile path after] /\
        extracted w dir ft st url sel htmlPrefix /\
        advise w (trace st ++ [EvFetch url])%list sel htmlPrefix = Some text /\
        JSON_parse w (stripFences text) = Some suggestion /\
        highOrMedium suggestion = true /\
        r = Ok (cs ++ [appliedCorrection ft suggestion])%list /\
        patchedBy w dir (ft_file ft) suggestion (fs st) path after /\
        fs st' = <[path := after]> (fs st))).

(** One textual substitution site: [after] is [before] with one occurrence
    of [orig] replaced by [new], or [before] itself. *)
Definition atMostOneSite (orig new before after : string) : Prop :=
  after = before \/
  exists pre post, before = pre ++ orig ++ post /\ after = pre ++ new ++ post.

Definition suggestedText (suggestion : value) : string :=
  toString (getPropOpt suggestion "suggestedSelector").

(** The number of events of a kind in a trace. *)
Definition countEv (f : event -> bool) (l : list event) : nat :=
  List.length (List.filter f l).

(** The trace of a controller that got its checkout [f1]: the initial
    run, the events of the correction pass, one more run exactly when the
    pass collected a correction, then git and issue-tracker calls only.
    [cs] is the list that the correction pass returned. *)
Definition controllerShape (w : world) (st : state) (f1 : gmap string string)
    (r : result testResults) (st' : state) : Prop :=
  let start := (trace st ++ [EvLog (LogAgentBanner 3)])%list in
  exists r0 st1 cs repair rerun tail,
    runPlaywrightTests w (repoDir w) true
      (State f1 (start ++ [EvPrepareRepo])) = (Ok r0, st1) /\
    ((r_failed r0 = 0 /\ cs = []) \/
     (0 < r_failed r0 /\ exists st2,
        correctFailedSelectors w (repoDir w) (r_failedTests r0) st1
        = (Ok cs, st2))) /\
    trace st' = (start ++ EvPrepareRepo :: EvRunTests true
                   :: repair ++ rerun ++ tail)%list /\
    forallb isRepairEv repair = true /\
    countEv isWriteEv repair = List.length cs /\
    ((cs = [] /\ rerun = []) \/
     (cs <> [] /\ exists logs, rerun = EvRunTests true :: logs /\
                               forallb isLogEv logs = true)) /\
    forallb isReportEv tail = true /\
    countEv isRunEv (trace st')
    = countEv isRunEv (trace st) + 1
      + (if (0 <? List.length cs)%nat then 1 else 0) /\
    (forall tr, r = Ok tr -> correctedSelectors tr = cs).

End Props.

(** ** A concrete world

    The scenario of the specification: an issue SCRUM-6, a checkout with
    one test file and one page object, a first report with two failures,
    one advisory answer of high and one of low confidence, a second
    report without failure. *)

Module Scenario.
Import Js Eff Regex Agent3 Workflow Props.

Definition specPath : string := "repo/tests/login.spec.ts".
Definition pagePathLogin : string := "repo/tests/pages/LoginPage.ts".
Definition reportPath : string := "repo/test-results/results.json".

Definition testSpec : string :=
  "import { LoginPage } from 'pages/LoginPage'; test('login', async ({ page }) => { await page.goto('http://app.test/login'); });".

Definition pageObject : string :=
  "submit = this.page.locator('#submit'); cancel = this.page.locator('#cancel'); again = this.page.locator('#submit');".

Definition checkout : gmap string string :=
  <[specPath := testSpec]> (<[pagePathLogin := pageObject]> ∅).

Definition testEntry (title status message : string) : value :=
  VObj [("title", VStr title); ("file", VStr "tests/login.spec.ts");
        ("status", VStr status); ("error", VObj [("message", VStr message)])].

Definition passedEntry (title : string) : value :=
  VObj [("title", VStr title); ("file", VStr "tests/login.spec.ts");
        ("status", VStr "passed")].

Definition reportOf (tests : list value) : value :=
  VObj [("suites", VArr [VObj [("tests", VArr tests)]])].

(** Three tests, two of them failing on a locator. *)
Definition report1 : value :=
  reportOf [passedEntry "opens";
            testEntry "submits" "failed" "locator('#submit') not found";
            testEntry "cancels" "failed" "locator('#cancel') not found"].

(** Two tests, both passing. *)
Definition report2 : value := reportOf [passedEntry "opens"; passedEntry "submits"].

(** One null entry among the tests. *)
Definition reportNull : value := reportOf [VNull].

Definition suggestionOf (original suggested confidence : string) : value :=
  VObj [("originalSelector", VStr original); ("suggestedSelector", VStr suggested);
        ("confidence", VStr confidence)].

Definition suggestionHigh : value := suggestionOf "#submit" "#login" "high".
Definition suggestionLow : value := suggestionOf "#cancel" "#back" "low".
Definition suggestionSame : value := suggestionOf "#cancel" "#cancel" "high".
Definition suggestionQuoted : value :=
  suggestionOf "#cancel" "[data-id='#cancel']" "medium".

(** The parser on the texts of the scenario. *)
Definition parseTable (s : string) : option value :=
  if String.eqb s "R1" then Some report1
  else if String.eqb s "R2" then Some report2
  else if String.eqb s "RN" then Some reportNull
  else if String.eqb s "high" then Some suggestionHigh
  else if String.eqb s "low" then Some suggestionLow
  else if String.eqb s "same" then Some suggestionSame
  else None.

Definition runsSoFar (h : list event) : nat := countEv isRunEv h.

(** The first run leaves report R1, the later ones R2. *)
Definition execTwoReports (h : list event) (f : gmap string string)
    : gmap string string :=
  <[reportPath := if Nat.eqb (runsSoFar h) 0 then "R1" else "R2"]> f.

Definition execReport (name : string) (h : list event) (f : gmap string string)
    : gmap string string :=
  <[reportPath := name]> f.

Definition adviseBySelector (h : list event) (sel html : string) : option string :=
  if String.eqb sel "#submit" then Some "```json high ```" else Some "low".

Definition adviseSame (h : list event) (sel html : string) : option string :=
  Some "same".

Definition scenarioWorld
    (exec : list event -> gmap string string -> gmap string string)
    (adv : list event -> string -> string -> option string)
    (script : list event -> bool) : world :=
  {| path_join := Str.join "/";
     path_dirname := fun p => if String.eqb p "tests/login.spec.ts" then "tests" else ".";
     JSON_parse := parseTable;
     repoDir := "repo";
     testCasePath := fun k => "shared/test-cases/" ++ k ++ "-test-cases.json";
     pullsUrl := Some "https://github.com/o/r/pulls";
     cloneRepo := fun _ _ => Some checkout;
     execTests := exec;
     readdir := fun _ _ _ => Some ["trace.png"; "results.json"];
     writable := fun _ _ => true;
     httpGet := fun _ _ => Some (VStr "<button id=login>");
     advise := adv;
     gitCommitOk := fun _ => true;
     gitConfigOk := fun _ => true;
     createPR := fun _ => Some "https://github.com/o/r/pull/7";
     jiraOk := fun _ => true;
     now := fun h => Z.of_nat (List.length h);
     generateOk := fun _ => true;
     saveOk := fun _ => true;
     scriptOk := script;
     publishOk := fun _ => true |}.

Definition accept (h : list event) : bool := true.
Definition reject (h : list event) : bool := false.

(** Script generation accepted the first time it is asked, rejected
    afterwards. *)
Definition firstOnly (h : list event) : bool :=
  Nat.eqb (countEv (fun e => match e with EvGenerateScript => true | _ => false end) h) 0.

Definition wSecondScript : world :=
  scenarioWorld execTwoReports adviseBySelector firstOnly.

Definition w0 : world := scenarioWorld execTwoReports adviseBySelector accept.
Definition wPass : world := scenarioWorld (execReport "R2") adviseBySelector accept.
Definition wNull : world := scenarioWorld (execReport "RN") adviseBySelector accept.
Definition wSame : world := scenarioWorld execTwoReports adviseSame accept.
Definition wNoScript : world := scenarioWorld execTwoReports adviseBySelector reject.

Definition st0 : state := State ∅ [].
Definition stCloned : state := State checkout [].

Definition failedSubmit : failedTest :=
  FailedTest (VStr "submits") (VStr "tests/login.spec.ts")
    (VStr "locator('#submit') not found").
Definition failedCancel : failedTest :=
  FailedTest (VStr "cancels") (VStr "tests/login.spec.ts")
    (VStr "locator('#cancel') not found").

Definition pageAfterHigh : string :=
  "submit = this.page.locator('#login'); cancel = this.page.locator('#cancel'); again = this.page.locator('#login');".

(** The state after the patch of the scenario. *)
Definition stPatched : state :=
  State (<[pagePathLogin := pageAfterHigh]> checkout)
    [EvWriteFile pagePathLogin pageAfterHigh].

(** The state after the attempt on the first failed test, from the
    checkout. *)
Definition stAttempted : state :=
  State (<[pagePathLogin := pageAfterHigh]> checkout)
    [EvFetch "http://app.test/login"; EvAdvise "#submit" "<button id=login>";
     EvWriteFile pagePathLogin pageAfterHigh].

(** The state after a skipped attempt on the second failed test, from
    the patched state. *)
Definition stSkipped : state :=
  State (<[pagePathLogin := pageAfterHigh]> checkout)
    [EvWriteFile pagePathLogin pageAfterHigh;
     EvFetch "http://app.test/login"; EvAdvise "#cancel" "<button id=login>";
     EvLog LogSkipLowConfidence].

(** The initial run of the all-passing scenario. *)
Definition runPass : runResult := RunResult 2 2 0 [] (Some ["trace.png"]).

Definition stRunPass : state :=
  State (<[reportPath := "R2"]> checkout)
    [EvLog (LogAgentBanner 3); EvPrepareRepo; EvRunTests true].

Definition finalPass : testResults := TestResults 2 2 0 [] 1 (Some 3%Z) None.

(** The two runs of the scenario with one correction. *)
Definition run1 : runResult :=
  RunResult 3 1 2 [failedSubmit; failedCancel] (Some ["trace.png"]).

Definition run2 : runResult := RunResult 2 2 0 [] (Some ["trace.png"]).

Definition scrum6 : issue := Issue "SCRUM-6" (Some (IssueFields "Login" "As a user")).

End Scenario.

(** ** More of the string library

    The methods of [String.prototype] that the agents and the server use
    on repository URLs and on generated file paths. *)

Module Text.
Import Str Js.

(** [s.startsWith(p)] *)
Definition startsWith (s p : string) : bool :=
  Regex.isSome (stripPrefix p s).

(** [s.includes(pat)] *)
Fixpoint includes (pat s : string) : bool :=
  Regex.isSome (stripPrefix pat s) ||
  match s with
  | "" => false
  | String _ t => includes pat t
  end.

(** [s.replace(pat, '')] for a string [pat]: the first occurrence of
    [pat] is taken out, the rest of [s] is kept. *)
Fixpoint removeFirst (pat s : string) : string :=
  match stripPrefix pat s with
  | Some rest => rest
  | None =>
      match s with
      | "" => ""
      | String a t => String a (removeFirst pat t)
      end
  end.

(** [s.split(sep)] for a separator of one character: the pieces between
    the separators, one piece more than there are separators. *)
Fixpoint split (sep : ascii) (s : string) : list string :=
  match s with
  | "" => [""]
  | String a t =>
      if Ascii.eqb a sep then "" :: split sep t
      else
        match split sep t with
        | piece :: rest => String a piece :: rest
        | [] => [String a ""]
        end
  end.

(** [parts[parts.length - k]]: undefined when the index is not one of the
    array. *)
Definition fromEnd (k : nat) (parts : list string) : value :=
  if (1 <=? k)%nat && (k <=? List.length parts)%nat
  then VStr (nth (List.length parts - k) parts "")
  else VUndef.

(** [parts.pop()] on the result of a split, which is never empty. *)
Definition pop (parts : list string) : string := List.last parts "".

End Text.

(** ** shared/utils/jira-utils.js

    The calls of the Jira client and the lines written to the console, in
    the order they are made.  The answers of the client may depend on the
    whole history, the call that is answered included. *)

Module Jira.
Import Js.

Inductive consoleLine : Type :=
| AddedComment            (* Added comment to ... *)
| FailedComment           (* Failed to add comment to ... *)
| UpdatedFields           (* Updated fields for ... *)
| FailedUpdate            (* Failed to update ... *)
| FieldIdError            (* Error getting custom field ID *)
| FieldNotFound (fieldName : string)   (* Custom field ... not found *)
| UpdatedCustomFields     (* Updated custom fields for ... *)
| FailedCustomFields      (* Failed to update custom fields for ... *)
| Transitioned            (* Transitioned ... to ... *)
| TransitionUnavailable   (* Transition to ... not available for ... *)
| FailedTransition        (* Failed to transition ... *)
| Updating                (* Updating Jira card ... *)
| Updated                 (* Successfully updated ... *)
| ErrorUpdating.          (* Error updating ... *)

Inductive jiraCall : Type :=
| AddComment (issueKey : string) (commentText : value)
  (* jira.updateIssue(issueKey, { fields }) with the object that
     updateCustomFields builds, as the map of its own properties *)
| UpdateIssue (issueKey : string) (fields : gmap string value)
  (* jira.updateIssue(issueKey, { fields }) with the value that
     updateIssueFields is given *)
| UpdateIssueFields (issueKey : string) (fields : value)
| ListFields
| ListTransitions (issueKey : string)
| TransitionIssue (issueKey : string) (id : value)
| Console (line : consoleLine).

(** The Jira client: a call is accepted or rejected, a query answers
    with a value or is rejected. *)
Record client : Type := Client {
  accepts : list jiraCall -> bool;
  answers : list jiraCall -> option value
}.

Definition J (A : Type) : Type := list jiraCall -> result A * list jiraCall.

Definition ret {A} (a : A) : J A := fun h => (Ok a, h).

Definition bind {A B} (m : J A) (k : A -> J B) : J B := fun h =>
  match m h with
  | (Ok a, h') => k a h'
  | (Throw e, h') => (Throw e, h')
  end.

Definition throw {A} (e : error) : J A := fun h => (Throw e, h).

Definition tryCatch {A} (m : J A) (handler : error -> J A) : J A := fun h =>
  match m h with
  | (Ok a, h') => (Ok a, h')
  | (Throw e, h') => handler e h'
  end.

Definition liftR {A} (r : result A) : J A := fun h => (r, h).

Definition console (line : consoleLine) : J unit := fun h =>
  (Ok tt, (h ++ [Console line])%list).

(** A call of the client that returns nothing of interest. *)
Definition request (c : client) (call : jiraCall) : J unit := fun h =>
  let h' := (h ++ [call])%list in
  if accepts c h' then (Ok tt, h') else (Throw (ExternalError "jira"), h').

(** A call of the client that returns data. *)
Definition query (c : client) (call : jiraCall) : J value := fun h =>
  let h' := (h ++ [call])%list in
  match answers c h' with
  | Some v => (Ok v, h')
  | None => (Throw (ExternalError "jira"), h')
  end.

End Jira.

Declare Scope jira_scope.
Delimit Scope jira_scope with jira.
Notation "'do' x <- m ; k" := (Jira.bind m (fun x => k))
  (at level 10, x name, m at level 100, k at level 200) : jira_scope.
Notation "'run' m ; k" := (Jira.bind m (fun _ => k))
  (at level 10, m at level 100, k at level 200) : jira_scope.

Module JiraUtils.
Import Js Jira.
Local Open Scope jira_scope.

(** [a === b], where an object or an array met on one side was created
    apart from the other side (the two come from different calls), so
    that only primitive values can be equal. *)
Definition strictEq (a b : value) : bool :=
  match a, b with
  | VUndef, VUndef => true
  | VNull, VNull => true
  | VBool x, VBool y => Bool.eqb x y
  | VNum x, VNum y => Z.eqb x y
  | VStr x, VStr y => String.eqb x y
  | _, _ => false
  end.

(** [xs.find(p)] with a callback that may throw. *)
Fixpoint find (p : value -> result bool) (xs : list value) : result value :=
  match xs with
  | [] => Ok VUndef
  | x :: rest =>
      match p x with
      | Throw e => Throw e
      | Ok true => Ok x
      | Ok false => find p rest
      end
  end.

(** The receiver of [.find]: a TypeError unless it is an array. *)
Definition asArray (v : value) : J (list value) :=
  match v with
  | VArr items => ret items
  | _ => throw TypeError
  end.

(** The decimal numeral of an index. *)
Definition indexKey (i : nat) : string :=
  NilZero.string_of_uint (Nat.to_uint i).

Fixpoint indexed {A : Type} (i : nat) (xs : list A) : list (string * A) :=
  match xs with
  | [] => []
  | x :: rest => (indexKey i, x) :: indexed (S i) rest
  end.

(** [Object.entries(v)] *)
Definition entries (v : value) : result (list (string * value)) :=
  match v with
  | VUndef | VNull => Throw TypeError
  | VBool _ | VNum _ => Ok []
  | VStr s =>
      Ok (indexed 0 (map (fun c => VStr (String c "")) (list_ascii_of_string s)))
  | VArr items => Ok (indexed 0 items)
  | VObj fields => Ok fields
  end.

(** [fields[key] = v] on an object created by a literal: an own
    property is created or overwritten, except for the key [__proto__],
    which is an accessor of the prototype. *)
Definition setField (fields : gmap string value) (key : string) (v : value)
    : gmap string value :=
  if String.eqb key "__proto__" then fields else <[key := v]> fields.

Section WithClient.
Context (c : client).

Definition addComment (issueKey : string) (commentText : value) : J bool :=
  tryCatch
    (run request c (AddComment issueKey commentText);
     run console AddedComment;
     ret true)
    (fun e => run console FailedComment; throw e).

Definition updateIssueFields (issueKey : string) (fields : value) : J bool :=
  tryCatch
    (run request c (UpdateIssueFields issueKey fields);
     run console UpdatedFields;
     ret true)
    (fun e => run console FailedUpdate; throw e).

(** The callback of [getCustomFieldId]: [f.name === fieldName]. *)
Definition hasName (fieldName : string) (f : value) : result bool :=
  match getProp f "name" with
  | Throw e => Throw e
  | Ok name => Ok (strictEq name (VStr fieldName))
  end.

Definition getCustomFieldId (fieldName : string) : J value :=
  tryCatch
    (do fields <- query c ListFields;
     do items <- asArray fields;
     do field <- liftR (find (hasName fieldName) items);
     if truthy field then liftR (getProp field "id") else ret VNull)
    (fun _ => run console FieldIdError; ret VNull).

(** The loop of [updateCustomFields] over the entries. *)
Fixpoint collectFields (es : list (string * value)) (fields : gmap string value)
    : J (gmap string value) :=
  match es with
  | [] => ret fields
  | (fieldName, v) :: rest =>
      do customFieldId <- getCustomFieldId fieldName;
      if truthy customFieldId then
        collectFields rest (setField fields (toString customFieldId) v)
      else
        run console (FieldNotFound fieldName);
        collectFields rest fields
  end.

Definition updateCustomFields (issueKey : string) (customFields : value) : J bool :=
  tryCatch
    (do es <- liftR (entries customFields);
     do fields <- collectFields es ∅;
     run (if (0 <? size fields)%nat then
            run request c (UpdateIssue issueKey fields);
            console UpdatedCustomFields
          else ret tt);
     ret true)
    (fun e => run console FailedCustomFields; throw e).

(** The callback of [transitionIssue]:
    [t.name === statusName || t.to.name === statusName]. *)
Definition matchesStatus (statusName : value) (t : value) : result bool :=
  match getProp t "name" with
  | Throw e => Throw e
  | Ok name =>
      if strictEq name statusName then Ok true
      else
        match getProp t "to" with
        | Throw e => Throw e
        | Ok to =>
            match getProp to "name" with
            | Throw e => Throw e
            | Ok toName => Ok (strictEq toName statusName)
            end
        end
  end.

Definition transitionIssue (issueKey : string) (statusName : value) : J bool :=
  tryCatch
    (do transitions <- query c (ListTransitions issueKey);
     do list <- liftR (getProp transitions "transitions");
     do items <- asArray list;
     do transition <- liftR (find (matchesStatus statusName) items);
     if truthy transition then
       do id <- liftR (getProp transition "id");
       run request c (TransitionIssue issueKey id);
       run console Transitioned;
       ret true
     else
       run console TransitionUnavailable;
       ret false)
    (fun e => run console FailedTransition; throw e).

(** [if (v) await step(v)] *)
Definition whenTruthy (v : value) (step : value -> J bool) : J unit :=
  if truthy v then run step v; ret tt else ret tt.

Definition updateJiraCard (issueKey : string) (updates : value) : J bool :=
  tryCatch
    (run console Updating;
     do comment <- liftR (getProp updates "comment");
     run whenTruthy comment (addComment issueKey);
     do customFields <- liftR (getProp updates "customFields");
     run whenTruthy customFields (updateCustomFields issueKey);
     do fields <- liftR (getProp updates "fields");
     run whenTruthy fields (updateIssueFields issueKey);
     do transition <- liftR (getProp updates "transition");
     run whenTruthy transition (transitionIssue issueKey);
     run console Updated;
     ret true)
    (fun e => run console ErrorUpdating; throw e).

End WithClient.

(** The argument of [updateJiraCard] in [updateJiraWithResults] of
    Agent 3: the comment and a [status] that depends on the failures. *)
Definition resultsUpdate (comment : string) (failed : nat) : value :=
  VObj [("comment", VStr comment);
        ("status", VStr (if (failed =? 0)%nat then "DONE" else "IN PROGRESS"))].

End JiraUtils.

(** ** agents/agent1-test-creator/index.js: the answer of the model *)

Module Agent1.
Import Str Js Regex Eff Agent3.

(** The longest prefix of [s] that ends with [c]. *)
Fixpoint upToLast (c : ascii) (s : string) : option string :=
  match s with
  | "" => None
  | String a t =>
      match upToLast c t with
      | Some u => Some (String a u)
      | None => if Ascii.eqb a c then Some (String a "") else None
      end
  end.

(** The pattern of [generateTestCases] at one position: a left brace,
    any characters (line ends included), a right brace; the repetition
    is greedy, so the match ends at the last right brace. *)
Definition objectAt (s : string) : option string :=
  match s with
  | String "{" rest =>
      match upToLast "}" rest with
      | Some body => Some (String "{" body)
      | None => None
      end
  | _ => None
  end.

(** What stops [generateTestCases] after the model has answered. *)
Inductive rejection : Type :=
| NoJsonObject        (* Failed to extract JSON from Claude response *)
| Raised (e : error)  (* JSON.parse, or a property of null *)
| MissingScenarios    (* Invalid test case structure: missing scenarios array *)
| NoScenarios.        (* No test scenarios generated *)

Definition isArray (v : value) : bool :=
  match v with VArr _ => true | _ => false end.

Definition arrayLength (v : value) : nat :=
  match v with VArr items => List.length items | _ => 0 end.

(** The answer, trimmed and then freed of its code fences. *)
Definition withoutFences (responseText : string) : string :=
  replaceAll (literalOptNewline "```") ""
    (replaceAll (literalOptNewline "```json") "" (trim responseText)).

(** The body of the try block of [generateTestCases] from the text of
    the answer on; every rejection is thrown again by the catch block as
    one error, Failed to generate test cases. *)
Definition extractTestCases (w : world) (responseText : string)
    : rejection + value :=
  match search objectAt (withoutFences responseText) with
  | None => inl NoJsonObject
  | Some json =>
      match JSON_parse w json with
      | None => inl (Raised SyntaxError)
      | Some testCases =>
          match getProp testCases "scenarios" with
          | Throw e => inl (Raised e)
          | Ok scenarios =>
              if negb (truthy scenarios) || negb (isArray scenarios)
              then inl MissingScenarios
              else if (arrayLength scenarios =? 0)%nat then inl NoScenarios
              else inr testCases
          end
      end
  end.

End Agent1.

(** ** agents/agent2-script-generator/index.js: the generated files and
    the pull request *)

Module Agent2.
Import Str Js Regex Eff Agent3 Text.

Definition allowedDirs : list string :=
  ["tests/pages/"; "tests/e2e/"; "tests/ui/"; "tests/visual/"].

Definition allowedFiles : list string := ["tests/testdata.ts"].

Definition allowedPath (p : string) : bool :=
  existsb (startsWith p) allowedDirs || existsb (String.eqb p) allowedFiles.

(** What stops [generatePlaywrightScript] after the model has answered. *)
Inductive rejection : Type :=
| Raised (e : error)              (* JSON.parse, a property of null,
                                     startsWith on something else than a string *)
| InvalidFormat                   (* Invalid response format *)
| InvalidFilePath (path : string). (* INVALID FILE PATH *)

(** The body of the validation loop for one entry of [result.files]. *)
Definition checkFile (file : value) : option rejection :=
  match getProp file "path" with
  | Throw e => Some (Raised e)
  | Ok (VStr p) => if allowedPath p then None else Some (InvalidFilePath p)
  | Ok _ => Some (Raised TypeError)
  end.

Fixpoint checkAll (files : list value) : option rejection :=
  match files with
  | [] => None
  | file :: rest =>
      match checkFile file with
      | Some r => Some r
      | None => checkAll rest
      end
  end.

(** [generatePlaywrightScript] from the parsed answer on. *)
Definition checkFiles (result : value) : rejection + list value :=
  match getProp result "files" with
  | Throw e => inl (Raised e)
  | Ok (VArr files) =>
      match checkAll files with
      | Some r => inl r
      | None => inr files
      end
  | Ok _ => inl InvalidFormat
  end.

(** [generatePlaywrightScript] from the text of the answer on. *)
Definition generatedFiles (w : world) (response : string)
    : rejection + list value :=
  match JSON_parse w (stripFences response) with
  | None => inl (Raised SyntaxError)
  | Some result => checkFiles result
  end.

(** The address of the pull-request API in [createPullRequest], and in
    [createCorrectionPR] of Agent 3, which reads the repository URL in
    the same way. *)
Definition pullsApiUrl (repoUrl : string) : string :=
  let parts := split "/" (removeFirst ".git" repoUrl) in
  let repoName := fromEnd 1 parts in
  let owner := fromEnd 2 parts in
  "https://api.github.com/repos/" ++ toString owner ++ "/"
    ++ toString repoName ++ "/pulls".

End Agent2.

(** ** server.js: the link handed to Agent 3 *)

Module Server.
Import Str Js Text.

(** The value of [prUrl] after Agent 2 in [triggerFullWorkflow]. *)
Definition pullsListUrl (username repoUrl : string) : string :=
  "https://github.com/" ++ username ++ "/"
    ++ removeFirst ".git" (pop (split "/" repoUrl)) ++ "/pulls".

End Server.

(** ** Vocabulary of the further statements *)

Module Props2.
Import Str Js Regex Eff Agent3 Workflow Props Jira.

(** At most one test was counted without being classified. *)
Definition nearlyCounted (r : runResult) : Prop :=
  r_passed r + r_failed r <= r_totalTests r <= r_passed r + r_failed r + 1.

(** The result of a visit: [P] when the visit went through, [Q] when it
    was left by an exception. *)
Definition outcomeInv (P : runResult -> Prop) (Q : runResult -> Prop)
    (x : runResult * option error) : Prop :=
  match snd x with
  | None => P (fst x)
  | Some _ => Q (fst x)
  end.

Definition withScreenshots (r : runResult) (s : option (list string)) : runResult :=
  RunResult (r_totalTests r) (r_passed r) (r_failed r) (r_failedTests r) s.

(** Every recorded failure carries an error text. *)
Definition describedFailures (r : runResult) : Prop :=
  Forall (fun ft => truthy (ft_error ft) = true) (r_failedTests r).

Definition isFetchEv (e : event) : bool :=
  match e with EvFetch _ => true | _ => false end.

(** The markup sent with a request for advice is at most 5000
    characters long. *)
Definition boundedAdvice (e : event) : Prop :=
  match e with
  | EvAdvise _ htmlPrefix => String.length htmlPrefix <= 5000
  | _ => True
  end.

(** What a correction says of the failed test it comes from. *)
Definition correctionOrigin (c : correction) : value * value :=
  (c_test c, c_file c).

Definition failedTestOrigin (ft : failedTest) : value * value :=
  (ft_name ft, ft_file ft).

(** The events of one correction attempt: console lines only; or the
    fetch of the page and console lines; or the fetch, the request for
    advice with the first 5000 characters of the markup, and then console
    lines or the write of the page object. *)
Definition isLogOrWrite (e : event) : bool := isLogEv e || isWriteEv e.

Definition attemptShape (new : list event) : Prop :=
  forallb isLogEv new = true \/
  (exists url logs, new = EvFetch url :: logs /\ forallb isLogEv logs = true) \/
  (exists url sel html rest,
     new = EvFetch url :: EvAdvise sel (Str.take 5000 html) :: rest /\
     forallb isLogOrWrite rest = true).

Definition isGitEv (e : event) : bool :=
  match e with EvCommit | EvPush | EvCreatePR => true | _ => false end.

(** The calls of steps 5 and 6 of the controller for a given list of
    corrections. *)
Definition publishEvents (cs : list correction) : list event :=
  match cs with
  | [] => []
  | _ :: _ => [EvCommit; EvPush; EvCreatePR]
  end.

Definition isPrepareEv (e : event) : bool :=
  match e with EvPrepareRepo => true | _ => false end.

(** What Agent 3 does after it has asked for its checkout: test runs,
    the events of the correction pass, git and issue-tracker calls. *)
Definition isRunOrRepairEv (e : event) : bool := isRunEv e || isRepairEv e.

Definition isAgent3Ev (e : event) : bool := isRunOrRepairEv e || isReportEv e.

Definition notSlash (c : ascii) : bool := negb (Ascii.eqb c "/").
Definition notBackquote (c : ascii) : bool := negb (Ascii.eqb c "`").
Definition notLeftBrace (c : ascii) : bool := negb (Ascii.eqb c "{").
Definition notRightBrace (c : ascii) : bool := negb (Ascii.eqb c "}").

(** A path that [generatePlaywrightScript] lets through. *)
Definition confined (file : value) : Prop :=
  exists p, getPropOpt file "path" = VStr p /\
    (p = "tests/testdata.ts" \/
     exists dir rest, In dir Agent2.allowedDirs /\ p = dir ++ rest).

Definition isScriptEv (e : event) : bool :=
  match e with EvGenerateScript => true | _ => false end.

(** What a call of Agent 1 leaves: the trace of a complete run, the call
    of Agent 2 included, or a trace that ends with the comment of failure. *)
Definition agent1Post (i : issue) (st : state) (r : result unit) (st' : state) : Prop :=
  exists new,
    fs st' = fs st /\
    trace st' = (trace st ++ EvLog (LogAgentBanner 1) :: new)%list /\
    countEv isPrepareEv new = 0 /\
    match r with
    | Ok _ =>
        fields i <> None /\
        new = [EvJira (key i) Agent1Started; EvGenerateTestCases; EvSaveTestCases;
               EvJira (key i) Agent1Completed; EvLog (LogAgentBanner 2);
               EvGenerateScript; EvPublish; EvJira (key i) Agent2Completed]
    | Throw _ =>
        exists pre, new = (pre ++ [EvJira (key i) Agent1Failed])%list /\
                    countEv isScriptEv pre <= 1
    end.

(** The calls of the Jira client in a history, the console left out. *)
Definition isClientCall (e : jiraCall) : bool :=
  match e with Console _ => false | _ => true end.

Definition clientCalls (h : list jiraCall) : list jiraCall :=
  List.filter isClientCall h.

End Props2.
(** ** Further concrete worlds *)

Module Scenario2.
Import Js Eff Regex Agent3 Workflow Props Scenario Jira JiraUtils.

(** A run that leaves a report that is not JSON. *)
Definition wGarbled : world :=
  scenarioWorld (execReport "<html>502</html>") adviseBySelector accept.

(** The world [w] with a parser, and without a checkout. *)
Definition withParser (w : world) (parse : string -> option value) : world :=
  {| path_join := path_join w; path_dirname := path_dirname w;
     JSON_parse := parse; repoDir := repoDir w; testCasePath := testCasePath w;
     pullsUrl := pullsUrl w; cloneRepo := cloneRepo w; execTests := execTests w;
     readdir := readdir w; writable := writable w; httpGet := httpGet w;
     advise := advise w; gitCommitOk := gitCommitOk w; gitConfigOk := gitConfigOk w;
     createPR := createPR w; jiraOk := jiraOk w; now := now w;
     generateOk := generateOk w; saveOk := saveOk w; scriptOk := scriptOk w;
     publishOk := publishOk w |}.

Definition withoutCheckout (w : world) : world :=
  {| path_join := path_join w; path_dirname := path_dirname w;
     JSON_parse := JSON_parse w; repoDir := repoDir w; testCasePath := testCasePath w;
     pullsUrl := pullsUrl w; cloneRepo := fun _ _ => None; execTests := execTests w;
     readdir := readdir w; writable := writable w; httpGet := httpGet w;
     advise := advise w; gitCommitOk := gitCommitOk w; gitConfigOk := gitConfigOk w;
     createPR := createPR w; jiraOk := jiraOk w; now := now w;
     generateOk := generateOk w; saveOk := saveOk w; scriptOk := scriptOk w;
     publishOk := publishOk w |}.

Definition wNoCheckout : world := withoutCheckout w0.

(** The issue that the manual triggers of the server build: a key and
    no fields. *)
Definition manualIssue : issue := Issue "SCRUM-6" None.

(** An answer of the model to Agent 1: a sentence, a fenced JSON object,
    a closing word. *)
Definition quote : string := String "034" "".

Definition scenariosJson : string :=
  "{" ++ quote ++ "scenarios" ++ quote ++ ":[{" ++ quote ++ "id" ++ quote ++ ":"
      ++ quote ++ "TC001" ++ quote ++ "}]}".

Definition scenariosAnswer : string :=
  "Here you are: ```json" ++ scenariosJson ++ "``` Done.".

Definition scenariosValue : value :=
  VObj [("scenarios", VArr [VObj [("id", VStr "TC001")]])].

Definition parseScenarios (s : string) : option value :=
  if String.eqb s scenariosJson then Some scenariosValue else None.

Definition wScenarios : world := withParser w0 parseScenarios.

(** An answer of the model to Agent 2: a page object and a test. *)
Definition generatedValue : value :=
  VObj [("files",
         VArr [VObj [("path", VStr "tests/pages/CheckoutPage.ts"); ("content", VStr "class")];
               VObj [("path", VStr "tests/testdata.ts"); ("content", VStr "data")]])].

(** A Jira client that knows two custom fields and two transitions,
    and accepts every call. *)
Definition knownFields : value :=
  VArr [VObj [("id", VStr "customfield_10010"); ("name", VStr "Test Status")];
        VObj [("id", VStr "customfield_10011"); ("name", VStr "Pass Rate")]].

Definition knownTransitions : value :=
  VObj [("transitions",
         VArr [VObj [("id", VStr "11"); ("name", VStr "Start");
                     ("to", VObj [("name", VStr "IN PROGRESS")])];
               VObj [("id", VStr "31"); ("name", VStr "Finish");
                     ("to", VObj [("name", VStr "DONE")])]])].

Definition answerOf (h : list jiraCall) : option value :=
  match List.last h (Console Updating) with
  | ListFields => Some knownFields
  | ListTransitions _ => Some knownTransitions
  | _ => None
  end.

Definition jira0 : client := Client (fun _ => true) answerOf.

Definition customFieldsUpdate : value :=
  VObj [("Test Status", VStr "passed"); ("Owner", VStr "qa")].

(** The record that Agent 3 returns in the scenario with one
    correction. *)
Definition finalRepaired : testResults :=
  TestResults 3 2 0 [appliedCorrection failedSubmit suggestionHigh] 1 (Some 10%Z)
    (Some "https://github.com/o/r/pull/7").

End Scenario2.

(** ** Facts on strings *)

Module StrFacts.
Import Str.

Lemma str_app_cons (a : ascii) (s t : string) :
  String a s ++ t = String a (s ++ t).
Proof. reflexivity. Qed.

Lemma str_app_nil_l (s : string) : "" ++ s = s.
Proof. reflexivity. Qed.

Lemma str_app_nil_r (s : string) : s ++ "" = s.
Proof. induction s as [|a s IH]; [reflexivity|]. rewrite str_app_cons, IH. reflexivity. Qed.

Lemma str_app_assoc (s t u : string) : (s ++ t) ++ u = s ++ (t ++ u).
Proof.
  induction s as [|a s IH]; [reflexivity|].
  rewrite !str_app_cons, IH. reflexivity.
Qed.

Lemma str_length_app (s t : string) :
  String.length (s ++ t) = String.length s + String.length t.
Proof.
  induction s as [|a s IH]; [reflexivity|].
  rewrite str_app_cons. simpl. rewrite IH. reflexivity.
Qed.

Lemma take_drop (n : nat) (s : string) : take n s ++ drop n s = s.
Proof.
  revert s; induction n as [|n IH]; intros [|a s]; try reflexivity.
  simpl. rewrite str_app_cons, IH. reflexivity.
Qed.

Lemma take_app_length (s t : string) : take (String.length s) (s ++ t) = s.
Proof.
  induction s as [|a s IH]; [destruct t; reflexivity|].
  rewrite str_app_cons. simpl. rewrite IH. reflexivity.
Qed.

Lemma drop_app_length (s t : string) : drop (String.length s) (s ++ t) = t.
Proof.
  induction s as [|a s IH]; [destruct t; reflexivity|].
  rewrite str_app_cons. simpl. exact IH.
Qed.

Lemma stripPrefix_app (p s : string) : stripPrefix p (p ++ s) = Some s.
Proof.
  induction p as [|a p IH]; [reflexivity|].
  rewrite str_app_cons. simpl. rewrite Ascii.eqb_refl. exact IH.
Qed.

Lemma stripPrefix_Some (p s r : string) :
  stripPrefix p s = Some r -> s = p ++ r.
Proof.
  revert s; induction p as [|a p IH]; intros s H; simpl in H.
  - injection H as ->. reflexivity.
  - destruct s as [|b s]; [discriminate|].
    destruct (Ascii.eqb a b) eqn:E; [|discriminate].
    apply Ascii.eqb_eq in E. subst b. rewrite str_app_cons. f_equal. auto.
Qed.

End StrFacts.

(** ** Facts on the patterns and on the global replacement *)

Module RegexFacts.
Import Str StrFacts Regex Agent3.

Lemma digitVal_two_digits c d : digitVal c = Some d -> d <= 9.
Proof.
  unfold digitVal. destruct (_ && _) eqn:E; [|discriminate].
  intros [= <-]. apply andb_true_iff in E as [_ E]. apply Nat.leb_le in E. lia.
Qed.

Lemma getSubstitution_plain m b a caps s :
  all notDollar s = true ->
  forall rest, getSubstitution m b a caps (s ++ rest) = s ++ getSubstitution m b a caps rest.
Proof.
  induction s as [|ch s IH]; intros H rest; [reflexivity|].
  simpl in H. apply andb_true_iff in H as [Hc Hs].
  rewrite !str_app_cons.
  unfold notDollar in Hc. apply negb_true_iff in Hc.
  cbn [getSubstitution].
  destruct ch as [[] [] [] [] [] [] [] []]; try discriminate Hc; rewrite IH by assumption; reflexivity.
Qed.

Lemma getSubstitution_template m b a o c new :
  all notDollar new = true ->
  getSubstitution m b a [o; c] (template new) = o ++ new ++ c.
Proof.
  intros H. unfold template.
  assert (E : getSubstitution m b a [o; c] ("$1" ++ new ++ "$2")
              = o ++ getSubstitution m b a [o; c] (new ++ "$2")).
  { change ("$1" ++ new ++ "$2") with (String "$" (String "1" (new ++ "$2"))).
    destruct new as [|x new]; [reflexivity|].
    rewrite str_app_cons.
    cbn [getSubstitution Ascii.eqb Bool.eqb].
    change (digitVal "1") with (Some 1).
    cbv iota beta.
    destruct (digitVal x) as [d2|]; [|reflexivity].
    reflexivity. }
  rewrite E, getSubstitution_plain by assumption.
  change (getSubstitution m b a [o; c] "$2") with (c ++ "").
  rewrite str_app_nil_r. reflexivity.
Qed.

(** The escaped locator matches the locator itself, character by
    character. *)
Lemma matchEscaped_escapeRegex loc : forall s,
  matchEscaped (escapeRegex loc) s = stripPrefix loc s.
Proof.
  induction loc as [|c loc IH]; intros s; [reflexivity|].
  cbn [escapeRegex stripPrefix].
  destruct (isRegexSpecial c) eqn:E.
  - cbn [matchEscaped]. destruct s as [|b s]; [reflexivity|].
    destruct (Ascii.eqb c b); [apply IH|reflexivity].
  - assert (Hc : Ascii.eqb c "\" = false).
    { destruct (Ascii.eqb c "\") eqn:Hb; [|reflexivity].
      apply Ascii.eqb_eq in Hb. subst c. discriminate E. }
    destruct c as [[] [] [] [] [] [] [] []]; try discriminate Hc;
      (destruct s as [|b s]; [reflexivity|]; cbn [matchEscaped];
       match goal with |- context [Ascii.eqb ?a b] =>
         destruct (Ascii.eqb a b); [apply IH|reflexivity] end).
Qed.

(** Shape of a match of the quoted-literal pattern. *)
Lemma quotedLocator_Some loc s n caps :
  quotedLocator loc s = Some (n, caps) ->
  exists o c rest,
    s = String o (loc ++ String c rest) /\ isOpenDelim o = true /\
    isCloseDelim c = true /\ n = 2 + String.length loc /\
    caps = [String o ""; String c ""].
Proof.
  unfold quotedLocator. destruct s as [|o s1]; [discriminate|].
  destruct (isOpenDelim o) eqn:Ho; [|discriminate].
  rewrite matchEscaped_escapeRegex.
  destruct (stripPrefix loc s1) as [[|c rest]|] eqn:Hp; try discriminate.
  destruct (isCloseDelim c) eqn:Hc; [|discriminate].
  intros [= <- <-]. apply stripPrefix_Some in Hp. subst s1.
  exists o, c, rest. auto.
Qed.

Lemma quotedLocator_intro loc o c rest :
  isOpenDelim o = true -> isCloseDelim c = true ->
  quotedLocator loc (String o (loc ++ String c rest))
  = Some (2 + String.length loc, [String o ""; String c ""]).
Proof.
  intros Ho Hc. unfold quotedLocator.
  rewrite Ho, matchEscaped_escapeRegex, stripPrefix_app, Hc. reflexivity.
Qed.

Lemma test_cons p a s : test p s = true -> test p (String a s) = true.
Proof. intros H. simpl. rewrite H. apply orb_true_r. Qed.

Lemma test_here p s : isSome (p s) = true -> test p s = true.
Proof. destruct s; simpl; intros ->; reflexivity. Qed.

Lemma test_app p u s : test p s = true -> test p (u ++ s) = true.
Proof. induction u; [auto|]. intros H. rewrite str_app_cons. apply test_cons; auto. Qed.

Lemma keyedLocator_Some loc s n caps :
  keyedLocator loc s = Some (n, caps) ->
  exists q q' rest,
    s = ": " ++ String q (loc ++ String q' rest) /\ isQuote q = true /\ isQuote q' = true.
Proof.
  unfold keyedLocator.
  destruct (stripPrefix ": " s) as [[|q s1]|] eqn:H0; try discriminate.
  destruct (isQuote q) eqn:Hq; [|discriminate].
  rewrite matchEscaped_escapeRegex.
  destruct (stripPrefix loc s1) as [[|q' rest]|] eqn:Hp; try discriminate.
  destruct (isQuote q') eqn:Hq'; [|discriminate].
  intros _. apply stripPrefix_Some in H0, Hp. subst.
  exists q, q', rest. auto.
Qed.

(** Whatever the keyed-property pattern matches, the quoted-literal pattern
    matches too: the second pattern of the loop is never the one applied. *)
Lemma keyed_implies_quoted loc s :
  test (keyedLocator loc) s = true -> test (quotedLocator loc) s = true.
Proof.
  induction s as [|a s IH].
  - simpl. destruct (keyedLocator loc "") as [[n caps]|] eqn:E; [|discriminate].
    apply keyedLocator_Some in E as (q & q' & rest & E & _). discriminate.
  - intros H. cbn [test] in H. apply orb_true_iff in H as [H|H].
    + destruct (keyedLocator loc (String a s)) as [[n caps]|] eqn:E; [|discriminate].
      apply keyedLocator_Some in E as (q & q' & rest & E & Hq & Hq').
      rewrite E.
      change (": " ++ String q (loc ++ String q' rest))
        with (String ":" (String " " (String q (loc ++ String q' rest)))).
      apply test_cons, test_cons, test_here.
      rewrite quotedLocator_intro; [reflexivity| |]; unfold isOpenDelim, isCloseDelim;
        rewrite ?Hq, ?Hq'; reflexivity.
    + apply test_cons. auto.
Qed.

Lemma replaceFrom_skip p tpl u : forall b s,
  replaceFrom p tpl b (String.length u) (u ++ s) = replaceFrom p tpl (b ++ u) 0 s.
Proof.
  induction u as [|a u IH]; intros b s.
  - rewrite str_app_nil_r. reflexivity.
  - rewrite str_app_cons. cbn [String.length replaceFrom].
    rewrite IH, str_app_assoc. reflexivity.
Qed.

Lemma countFrom_skip p u : forall s,
  countFrom p (String.length u) (u ++ s) = countFrom p 0 s.
Proof.
  induction u as [|a u IH]; intros s; [reflexivity|].
  rewrite str_app_cons. cbn [String.length countFrom]. apply IH.
Qed.

Lemma str_app_inj_length (u v u' v' : string) :
  u ++ v = u' ++ v' -> String.length u = String.length u' -> u = u' /\ v = v'.
Proof.
  revert u'; induction u as [|a u IH]; intros [|a' u'] E L; try discriminate L.
  - auto.
  - rewrite !str_app_cons in E. injection E as -> E. injection L as L.
    destruct (IH _ E L) as [-> ->]. auto.
Qed.

Section QuotedLocator.
Variables (loc new : string).
Hypothesis new_plain : all notDollar new = true.

Local Abbreviation p := (quotedLocator loc).
Local Abbreviation tpl := (template new).

Lemma quoted_no_match_nil : p "" = None.
Proof. reflexivity. Qed.

Lemma replace_nil b : replaceFrom p tpl b 0 "" = "".
Proof. reflexivity. Qed.

Lemma replace_miss b a t :
  p (String a t) = None ->
  replaceFrom p tpl b 0 (String a t) = String a (replaceFrom p tpl (b ++ String a "") 0 t).
Proof. intros H. cbn [replaceFrom]. rewrite H. reflexivity. Qed.

Lemma replace_hit b o c rest :
  isOpenDelim o = true -> isCloseDelim c = true ->
  replaceFrom p tpl b 0 (String o (loc ++ String c rest))
  = String o (new ++ String c
      (replaceFrom p tpl (b ++ String o (loc ++ String c "")) 0 rest)).
Proof.
  intros Ho Hc. cbn [replaceFrom].
  rewrite quotedLocator_intro by assumption.
  cbn [Nat.add].
  replace (loc ++ String c rest) with ((loc ++ String c "") ++ rest)
    by (rewrite str_app_assoc; reflexivity).
  replace (S (String.length loc)) with (String.length (loc ++ String c ""))
    by (rewrite str_length_app; simpl; lia).
  rewrite replaceFrom_skip.
  rewrite getSubstitution_template by assumption.
  repeat (rewrite ?str_app_assoc, ?str_app_cons, ?str_app_nil_l; cbv beta).
  reflexivity.
Qed.

(** A match of the pattern, or none, at the head of a non-empty string. *)
Lemma quoted_cases a t :
  p (String a t) = None \/
  exists c rest, t = loc ++ String c rest /\ isOpenDelim a = true /\ isCloseDelim c = true.
Proof.
  destruct (p (String a t)) as [[n caps]|] eqn:E; [right|left; reflexivity].
  apply quotedLocator_Some in E as (o & c & rest & E & Ho & Hc & _).
  injection E as -> ->. eauto.
Qed.

(** *** The rewritten content differs from the content *)

Lemma replace_length : forall s k b,
  k <= String.length s ->
  String.length (replaceFrom p tpl b k s) + countFrom p k s * String.length loc + k
  = String.length s + countFrom p k s * String.length new.
Proof.
  induction s as [|a t IH]; intros k b Hk.
  - simpl in Hk. assert (k = 0) as -> by lia. reflexivity.
  - destruct k as [|k].
    + destruct (quoted_cases a t) as [E|(c & rest & -> & Ho & Hc)].
      * cbn [replaceFrom countFrom]. rewrite E. cbn [String.length].
        specialize (IH 0 (b ++ String a "") ltac:(lia)). lia.
      * cbn [replaceFrom countFrom].
        rewrite !quotedLocator_intro by assumption. cbn [Nat.add].
        rewrite getSubstitution_template by assumption.
        specialize (IH (S (String.length loc)) (b ++ String a "")).
        rewrite !str_length_app in *. cbn [String.length] in *.
        rewrite !str_length_app in *. cbn [String.length] in *.
        specialize (IH ltac:(lia)). lia.
    + cbn [replaceFrom countFrom String.length] in *.
      specialize (IH k (b ++ String a "") ltac:(lia)). lia.
Qed.

Lemma count_positive : forall s,
  test p s = true -> 1 <= countFrom p 0 s.
Proof.
  induction s as [|a t IH]; intros H; [discriminate H|].
  cbn [test] in H. cbn [countFrom].
  destruct (p (String a t)) as [[[|n] caps]|] eqn:E; try lia.
  apply IH. exact H.
Qed.

(** When some occurrence is rewritten and the new locator is not the
    old one, the content changes. *)
Lemma replace_changes : forall s b,
  new <> loc -> test p s = true -> replaceFrom p tpl b 0 s <> s.
Proof.
  intros s b Hne Ht Heq.
  assert (HL : String.length new = String.length loc).
  { pose proof (replace_length s 0 b ltac:(lia)) as L.
    pose proof (count_positive s Ht) as C. rewrite Heq in L. nia. }
  revert b Ht Heq. induction s as [|a t IH]; intros b Ht Heq; [discriminate Ht|].
  destruct (quoted_cases a t) as [E|(c & rest & -> & Ho & Hc)].
  - rewrite replace_miss in Heq by assumption. injection Heq as Heq.
    cbn [test] in Ht. rewrite E in Ht. apply (IH _ Ht Heq).
  - rewrite replace_hit in Heq by assumption. injection Heq as Heq.
    apply str_app_inj_length in Heq as [Heq _]; [|assumption]. auto.
Qed.
End QuotedLocator.

Lemma test_false_cons p a s :
  test p (String a s) = false -> p (String a s) = None /\ test p s = false.
Proof.
  cbn [test]. intros H. apply orb_false_iff in H as [H1 H2].
  destruct (p (String a s)); [discriminate|auto].
Qed.

Lemma test_false_app p u s : test p (u ++ s) = false -> test p s = false.
Proof.
  induction u as [|a u IH]; [auto|]. rewrite str_app_cons.
  intros H. apply test_false_cons in H as [_ H]. auto.
Qed.

Lemma open_is_delim c : isOpenDelim c = true -> notDelim c = false.
Proof. unfold notDelim, isDelim. intros ->. reflexivity. Qed.

Lemma close_is_delim c : isCloseDelim c = true -> notDelim c = false.
Proof. unfold notDelim, isDelim. intros ->. rewrite orb_true_r. reflexivity. Qed.

(** A delimiter-free text followed by a delimiter determines both. *)
Lemma split_at_delim u c v u' c' v' :
  all notDelim u = true -> all notDelim u' = true ->
  notDelim c = false -> notDelim c' = false ->
  u ++ String c v = u' ++ String c' v' -> u = u'.
Proof.
  revert u'; induction u as [|a u IH]; intros [|a' u'] Hu Hu' Hc Hc' E.
  - reflexivity.
  - rewrite str_app_cons in E. injection E as -> _.
    simpl in Hu'. rewrite Hc in Hu'. discriminate.
  - rewrite str_app_cons in E. injection E as -> _.
    simpl in Hu. rewrite Hc' in Hu. discriminate.
  - rewrite !str_app_cons in E. injection E as -> E.
    simpl in Hu, Hu'. apply andb_true_iff in Hu as [_ Hu], Hu' as [_ Hu'].
    f_equal. eauto.
Qed.

Section Idempotent.
Variables (loc new : string).
Hypothesis new_plain : all notDollar new = true.
Hypothesis loc_clean : all notDelim loc = true.
Hypothesis new_clean : all notDelim new = true.
Hypothesis new_differs : new <> loc.

Local Abbreviation p := (quotedLocator loc).
Local Abbreviation tpl := (template new).

Lemma quoted_head_open a t : isOpenDelim a = false -> p (String a t) = None.
Proof. intros H. unfold quotedLocator. rewrite H. reflexivity. Qed.

Lemma test_skip_clean u v : all notDelim u = true -> test p (u ++ v) = test p v.
Proof.
  induction u as [|a u IH]; intros H; [reflexivity|].
  simpl in H. apply andb_true_iff in H as [Ha Hu].
  rewrite str_app_cons. cbn [test]. rewrite quoted_head_open, IH; auto.
  unfold notDelim, isDelim in Ha. apply negb_true_iff, orb_false_iff in Ha. tauto.
Qed.

(** If the rewritten text starts with the locator and a closing
    delimiter, so did the text. *)
Lemma replace_reflects_head c : forall u t b r,
  all notDelim u = true -> isCloseDelim c = true ->
  replaceFrom p tpl b 0 t = u ++ String c r ->
  exists r', t = u ++ String c r'.
Proof.
  induction u as [|x u IH]; intros t b r Hu Hc E.
  - destruct t as [|h t]; [discriminate E|].
    destruct (quoted_cases loc h t) as [En|(c' & rest & -> & Ho & Hc')].
    + rewrite replace_miss in E by assumption.
      injection E as -> _. eauto.
    + rewrite replace_hit in E by assumption. injection E as -> _. eauto.
  - simpl in Hu. apply andb_true_iff in Hu as [Hx Hu].
    destruct t as [|h t]; [discriminate E|].
    rewrite str_app_cons in E.
    destruct (quoted_cases loc h t) as [En|(c' & rest & -> & Ho & Hc')].
    + rewrite replace_miss in E by assumption.
      injection E as -> E. apply IH in E as [r' ->]; auto.
      exists r'. rewrite str_app_cons. reflexivity.
    + rewrite replace_hit in E by assumption. injection E as -> _.
      apply open_is_delim in Ho. rewrite Ho in Hx. discriminate.
Qed.

(** After the rewriting no delimited occurrence of the old locator is
    left, unless two occurrences shared a delimiter. *)
Lemma replace_no_rematch : forall n s b,
  String.length s <= n ->
  test (chained loc) s = false ->
  test p (replaceFrom p tpl b 0 s) = false.
Proof.
  induction n as [|n IH]; intros s b Hn Hch.
  - destruct s; [reflexivity|simpl in Hn; lia].
  - destruct s as [|a t]; [reflexivity|].
    apply test_false_cons in Hch as [Hch0 Hch].
    destruct (quoted_cases loc a t) as [En|(c & rest & -> & Ho & Hc)].
    + rewrite replace_miss by assumption.
      cbn [test]. rewrite IH; [|simpl in Hn; lia|assumption].
      rewrite orb_false_r.
      destruct (p (String a (replaceFrom p tpl (b ++ String a "") 0 t)))
        as [[k caps]|] eqn:E; [|reflexivity].
      apply quotedLocator_Some in E as (o & c & r & E & Ho & Hc & _).
      injection E as <- E.
      apply replace_reflects_head in E as [r' ->]; auto.
      rewrite quotedLocator_intro in En by assumption. discriminate.
    + rewrite replace_hit by assumption.
      cbn [test].
      destruct (p (String a (new ++ String c _))) as [[k caps]|] eqn:E.
      { apply quotedLocator_Some in E as (o & c' & r & E & _ & Hc' & _).
        injection E as _ E.
        apply split_at_delim in E; auto using close_is_delim. contradiction. }
      cbn [isSome orb].
      rewrite test_skip_clean by assumption.
      cbn [test]. rewrite IH.
      2:{ simpl in Hn. rewrite str_length_app in Hn. simpl in Hn. lia. }
      2:{ apply (test_false_app _ (loc ++ String c "")).
          rewrite str_app_assoc. exact Hch. }
      rewrite orb_false_r.
      destruct (p (String c (replaceFrom p tpl _ 0 rest))) as [[k caps]|] eqn:E2;
        [|reflexivity].
      apply quotedLocator_Some in E2 as (o & c2 & r & E2 & Ho2 & Hc2 & _).
      injection E2 as <- E2.
      apply replace_reflects_head in E2 as [r' ->]; auto.
      exfalso. revert Hch0. unfold chained.
      rewrite quotedLocator_intro by assumption.
      replace (2 + String.length loc - 1) with (String.length (String a loc))
        by (simpl; lia).
      change (String a (loc ++ String c (loc ++ String c2 r')))
        with (String a loc ++ String c (loc ++ String c2 r')).
      rewrite drop_app_length, quotedLocator_intro by assumption.
      discriminate.
Qed.
End Idempotent.

End RegexFacts.

(** ** Reasoning on the state and exception monad *)

Import Str Js Regex Eff Agent3 Workflow Props Scenario StrFacts RegexFacts.

Module MonadFacts.

Lemma post_intro {A} (m : M A) st r st' (Q : result A -> state -> Prop) :
  m st = (r, st') -> Q r st' -> post m st Q.
Proof. unfold post. intros ->. auto. Qed.

Lemma post_elim {A} (m : M A) st (Q : result A -> state -> Prop) :
  post m st Q -> exists r st', m st = (r, st') /\ Q r st'.
Proof. unfold post. destruct (m st) as [r st']. eauto. Qed.

Lemma post_conseq {A} (m : M A) st (Q Q' : result A -> state -> Prop) :
  post m st Q -> (forall r st', Q r st' -> Q' r st') -> post m st Q'.
Proof. unfold post. auto. Qed.

Lemma post_ret {A} (a : A) st (Q : result A -> state -> Prop) :
  Q (Ok a) st -> post (ret a) st Q.
Proof. auto. Qed.

Lemma post_throw {A} e st (Q : result A -> state -> Prop) :
  Q (Throw e) st -> post (throw e) st Q.
Proof. auto. Qed.

Lemma post_liftR {A} (r : result A) st (Q : result A -> state -> Prop) :
  Q r st -> post (liftR r) st Q.
Proof. auto. Qed.

Lemma post_bind {A B} (m : M A) (k : A -> M B) st (Q : result B -> state -> Prop) :
  post m st (fun r st' =>
    match r with
    | Ok a => post (k a) st' Q
    | Throw e => Q (Throw e) st'
    end) ->
  post (bind m k) st Q.
Proof. unfold post, bind. destruct (m st) as [[a|e] st']; auto. Qed.

Lemma post_tryCatch {A} (m : M A) (h : error -> M A) st
    (Q : result A -> state -> Prop) :
  post m st (fun r st' =>
    match r with
    | Ok a => Q (Ok a) st'
    | Throw e => post (h e) st' Q
    end) ->
  post (tryCatch m h) st Q.
Proof. unfold post, tryCatch. destruct (m st) as [[a|e] st']; auto. Qed.

Lemma post_history (st : state) (Q : result (list event) -> state -> Prop) :
  Q (Ok (trace st)) st -> post history st Q.
Proof. auto. Qed.

Lemma post_files (st : state) (Q : result (gmap string string) -> state -> Prop) :
  Q (Ok (fs st)) st -> post files st Q.
Proof. auto. Qed.

Lemma post_emit e (st : state) (Q : result unit -> state -> Prop) :
  Q (Ok tt) (State (fs st) (trace st ++ [e])%list) -> post (emit e) st Q.
Proof. auto. Qed.

Lemma post_log l (st : state) (Q : result unit -> state -> Prop) :
  Q (Ok tt) (State (fs st) (trace st ++ [EvLog l])%list) -> post (log l) st Q.
Proof. auto. Qed.

Lemma post_setFiles f (st : state) (Q : result unit -> state -> Prop) :
  Q (Ok tt) (State f (trace st)) -> post (setFiles f) st Q.
Proof. auto. Qed.

Lemma post_call e (ok : list event -> bool) who (st : state) (Q : result unit -> state -> Prop) :
  Q (if ok (trace st) then Ok tt else Throw (ExternalError who))
    (State (fs st) (trace st ++ [e])%list) ->
  post (call e ok who) st Q.
Proof. unfold post, call. destruct (ok (trace st)); auto. Qed.

Lemma post_readFile path (st : state) (Q : result string -> state -> Prop) :
  Q (match fs st !! path with Some c => Ok c | None => Throw IOError end) st ->
  post (readFile path) st Q.
Proof. unfold post, readFile. destruct (fs st !! path); auto. Qed.

Lemma post_writeFile w path c (st : state) (Q : result unit -> state -> Prop) :
  (if writable w (trace st) path
   then Q (Ok tt) (State (<[path := c]> (fs st)) (trace st ++ [EvWriteFile path c])%list)
   else Q (Throw IOError) st) ->
  post (writeFile w path c) st Q.
Proof. unfold post, writeFile. destruct (writable w (trace st) path); auto. Qed.

Lemma post_asString v (st : state) (Q : result string -> state -> Prop) :
  Q (match v with VStr s => Ok s | _ => Throw TypeError end) st ->
  post (asString v) st Q.
Proof. destruct v; auto. Qed.

End MonadFacts.
Import MonadFacts.

Ltac mstep :=
  lazymatch goal with
  | |- post (bind _ _) _ _ => apply post_bind
  | |- post (tryCatch _ _) _ _ => apply post_tryCatch
  | |- post (ret _) _ _ => apply post_ret
  | |- post (throw _) _ _ => apply post_throw
  | |- post (liftR _) _ _ => apply post_liftR
  | |- post history _ _ => apply post_history
  | |- post files _ _ => apply post_files
  | |- post (emit _) _ _ => apply post_emit
  | |- post (log _) _ _ => apply post_log
  | |- post (setFiles _) _ _ => apply post_setFiles
  | |- post (call _ _ _) _ _ => apply post_call
  | |- post (readFile _) _ _ => apply post_readFile
  | |- post (writeFile _ _ _) _ _ => apply post_writeFile
  | |- post (asString _) _ _ => apply post_asString
  end;
  cbv beta iota; cbn [fs trace].

Ltac msteps := repeat mstep.
Ltac exists_run := eexists _, _; split; [reflexivity|]; split; [reflexivity|].

Module RunnerFacts.

Lemma visitTest_listed test r r' e :
  visitTest test r = (r', e) -> listed r -> listed r'.
Proof.
  unfold visitTest, listed. destruct (getProp test "status") as [s|]; [|intros [= <- <-]; auto].
  destruct (strictEqStr s "passed"); intros [= <- <-]; simpl; auto.
  intros ->. rewrite length_app. simpl. lia.
Qed.

Lemma forEach_preserves (P : runResult -> Prop) f xs : forall r r' e,
  (forall x r r' e, In x xs -> f x r = (r', e) -> P r -> P r') ->
  forEach f xs r = (r', e) -> P r -> P r'.
Proof.
  induction xs as [|x xs IH]; intros r r' e Hf H HP.
  - injection H as <- <-. exact HP.
  - simpl in H. destruct (f x r) as [r1 [e1|]] eqn:E.
    + injection H as <- <-. eapply Hf; eauto. left; reflexivity.
    + eapply IH; [| exact H |].
      * intros. eapply Hf; eauto. right; assumption.
      * eapply Hf; eauto. left; reflexivity.
Qed.

Lemma optForEach_preserves (P : runResult -> Prop) v f r r' e :
  (forall x r r' e, f x r = (r', e) -> P r -> P r') ->
  optForEach v f r = (r', e) -> P r -> P r'.
Proof.
  intros Hf H HP. destruct v; simpl in H; try (injection H as <- <-; exact HP).
  eapply forEach_preserves; eauto.
Qed.

Lemma visitSuite_listed suite r r' e :
  visitSuite suite r = (r', e) -> listed r -> listed r'.
Proof.
  unfold visitSuite. destruct (getProp suite "tests") as [tests|]; [|intros [= <- <-]; auto].
  apply optForEach_preserves. apply visitTest_listed.
Qed.

Lemma walkReport_listed results r r' e :
  walkReport results r = (r', e) -> listed r -> listed r'.
Proof.
  unfold walkReport. destruct (getProp results "suites") as [s|]; [|intros [= <- <-]; auto].
  apply optForEach_preserves. apply visitSuite_listed.
Qed.

Lemma visitTest_counted test r r' e :
  nullish test = false ->
  visitTest test r = (r', e) -> counted r -> counted r' /\ e = None.
Proof.
  unfold visitTest, counted. intros Hn.
  destruct test; try discriminate Hn; simpl;
    repeat match goal with |- context [if ?b then _ else _] => destruct b end;
    intros [= <- <-]; simpl; intros ->; split; auto; lia.
Qed.

Lemma forEach_tests_counted tests : forall r r' e,
  forallb (fun t => negb (nullish t)) tests = true ->
  forEach visitTest tests r = (r', e) -> counted r -> counted r' /\ e = None.
Proof.
  induction tests as [|t tests IH]; intros r r' e Hall H Hc.
  - injection H as <- <-. auto.
  - simpl in Hall. apply andb_true_iff in Hall as [Ht Hall].
    apply negb_true_iff in Ht. simpl in H.
    destruct (visitTest t r) as [r1 e1] eqn:E.
    destruct (visitTest_counted _ _ _ _ Ht E Hc) as [Hc1 ->].
    eapply IH; eauto.
Qed.

Lemma visitSuite_counted suite r r' e :
  forallb (fun t => negb (nullish t)) (testsOf suite) = true ->
  visitSuite suite r = (r', e) -> counted r -> counted r'.
Proof.
  unfold visitSuite, testsOf. intros Hall.
  destruct suite as [| | | | | |flds]; simpl in *; try (intros [= <- <-]; auto; fail).
  destruct (assoc "tests" flds) as [| | | | |tests|]; simpl;
    try (intros [= <- <-]; auto; fail).
  intros H Hc. eapply forEach_tests_counted; eauto.
Qed.

Lemma walkReport_counted results r r' e :
  noNullTest results = true ->
  walkReport results r = (r', e) -> counted r -> counted r'.
Proof.
  unfold walkReport, noNullTest, suitesOf. intros Hall.
  destruct results as [| | | | | |flds]; simpl in *; try (intros [= <- <-]; auto; fail).
  destruct (assoc "suites" flds) as [| | | | |suites|]; simpl;
    try (intros [= <- <-]; auto; fail).
  intros H. eapply forEach_preserves; [|exact H].
  intros x r0 r1 e1 Hin. apply visitSuite_counted.
  rewrite forallb_forall in Hall. apply Hall. exact Hin.
Qed.

(** A run never throws; its result lists its failures, and counts them
    when the report has no null entry. *)
Lemma runPlaywrightTests_spec w dir headed st :
  post (runPlaywrightTests w dir headed) st (fun r st' =>
    exists rr logs,
      r = Ok rr /\
      trace st' = (trace st ++ EvRunTests headed :: logs)%list /\
      forallb isLogEv logs = true /\
      fs st' = execTests w (trace st) (fs st) /\
      listed rr /\
      ((forall c v, fs st' !! resultsPath w dir = Some c ->
                    JSON_parse w c = Some v -> noNullTest v = true) ->
       counted rr)).
Proof.
  unfold runPlaywrightTests. msteps.
  assert (Hempty : listed emptyRun /\ counted emptyRun) by (split; reflexivity).
  assert (Hfin : forall (rr : runResult) logs,
    forallb isLogEv logs = true -> listed rr ->
    ((forall c v, execTests w (trace st) (fs st) !! resultsPath w dir = Some c ->
                  JSON_parse w c = Some v -> noNullTest v = true) -> counted rr) ->
    post
      (do h' <- history;
       do f' <- files;
       match readdir w h' f' (path_join w [dir; "test-results"]) with
       | Some names =>
           ret (RunResult (r_totalTests rr) (r_passed rr) (r_failed rr)
                  (r_failedTests rr)
                  (Some (List.filter (fun f => endsWith f ".png") names)))
       | None => ret rr
       end)%eff
      (State (execTests w (trace st) (fs st))
         (trace st ++ EvRunTests headed :: logs))
      (fun r st' =>
         exists rr logs,
           r = Ok rr /\
           trace st' = (trace st ++ EvRunTests headed :: logs)%list /\
           forallb isLogEv logs = true /\
           fs st' = execTests w (trace st) (fs st) /\
           listed rr /\
           ((forall c v, fs st' !! resultsPath w dir = Some c ->
                         JSON_parse w c = Some v -> noNullTest v = true) ->
            counted rr))).
  { intros rr logs Hl Hli Hco. msteps.
    destruct (readdir w _ _ _); msteps; exists_run; eauto 10. }
  destruct (execTests w (trace st) (fs st) !! path_join w _) as [c|] eqn:Hc; msteps.
  - destruct (JSON_parse w c) as [v|] eqn:Hv; msteps.
    + destruct (walkReport v emptyRun) as [rr [e|]] eqn:Hw; msteps.
      * rewrite <- app_assoc. apply Hfin; [reflexivity| |].
        -- eapply walkReport_listed; [exact Hw|reflexivity].
        -- intros H. eapply walkReport_counted; [|exact Hw|reflexivity]. eauto.
      * apply Hfin; [reflexivity| |].
        -- eapply walkReport_listed; [exact Hw|reflexivity].
        -- intros H. eapply walkReport_counted; [|exact Hw|reflexivity]. eauto.
    + rewrite <- app_assoc. apply Hfin; [reflexivity|apply Hempty|intros; apply Hempty].
  - rewrite <- app_assoc. apply Hfin; [reflexivity|apply Hempty|intros; apply Hempty].
Qed.

End RunnerFacts.
Import RunnerFacts.

Module PatcherFacts.

Lemma applyFirst_selectorPatterns loc tpl s :
  applyFirst (selectorPatterns loc) tpl s
  = if test (quotedLocator loc) s
    then Some (replaceAll (quotedLocator loc) tpl s) else None.
Proof.
  unfold selectorPatterns. cbn [applyFirst].
  destruct (test (quotedLocator loc) s) eqn:E1; [reflexivity|].
  destruct (test (keyedLocator loc) s) eqn:E2; [|reflexivity].
  apply keyed_implies_quoted in E2. congruence.
Qed.

Lemma getProp_opt v k x : getProp v k = Ok x -> getPropOpt v k = x.
Proof. destruct v; simpl; congruence. Qed.

(** What a call of the patcher does: nothing but logging, or one write
    of the globally rewritten page object. *)
Lemma updatePageObjectSelector_spec w dir testFile suggestion st :
  post (updatePageObjectSelector w dir testFile suggestion) st (fun r st' =>
    (r = Ok false /\ fs st' = fs st /\
     exists logs, trace st' = (trace st ++ logs)%list /\ forallb isLogEv logs = true)
    \/
    (r = Ok true /\
     exists testFileS testContent cls modulePath orig before,
       testFile = VStr testFileS /\
       fs st !! path_join w [dir; testFileS] = Some testContent /\
       pageImportMatch testContent = Some (cls, modulePath) /\
       fs st !! pagePath w dir testFileS modulePath = Some before /\
       getPropOpt suggestion "originalSelector" = VStr orig /\
       test (quotedLocator orig) before = true /\
       let after := replaceAll (quotedLocator orig)
                      (replacementTemplate suggestion) before in
       fs st' = <[pagePath w dir testFileS modulePath := after]> (fs st) /\
       trace st' = (trace st ++ [EvWriteFile (pagePath w dir testFileS modulePath) after])%list)).
Proof.
  assert (Hfail : forall st0 : state, fs st0 = fs st -> trace st0 = trace st ->
    post (run log LogPatchError; ret false)%eff st0 (fun r st' =>
      (r = Ok false /\ fs st' = fs st /\
       exists logs, trace st' = (trace st ++ logs)%list /\ forallb isLogEv logs = true)
      \/ (r = Ok true /\ False))).
  { intros st0 Hf Ht. msteps. left. rewrite Hf, Ht. eauto 10. }
  assert (Hcons : forall st0 : state, fs st0 = fs st -> trace st0 = trace st ->
    post (run log LogPatchError; ret false)%eff st0 (fun r st' =>
      (r = Ok false /\ fs st' = fs st /\
       exists logs, trace st' = (trace st ++ logs)%list /\ forallb isLogEv logs = true)
      \/ (r = Ok true /\
     exists testFileS testContent cls modulePath orig before,
       testFile = VStr testFileS /\
       fs st !! path_join w [dir; testFileS] = Some testContent /\
       pageImportMatch testContent = Some (cls, modulePath) /\
       fs st !! pagePath w dir testFileS modulePath = Some before /\
       getPropOpt suggestion "originalSelector" = VStr orig /\
       test (quotedLocator orig) before = true /\
       let after := replaceAll (quotedLocator orig)
                      (replacementTemplate suggestion) before in
       fs st' = <[pagePath w dir testFileS modulePath := after]> (fs st) /\
       trace st' = (trace st ++ [EvWriteFile (pagePath w dir testFileS modulePath) after])%list))).
  { intros st0 Hf Ht. eapply post_conseq; [apply Hfail; assumption|].
    intros r st' [H|[_ []]]. left. exact H. }
  unfold updatePageObjectSelector. msteps.
  destruct testFile as [| | | |testFileS| |]; cbv iota; try (apply Hcons; reflexivity).
  msteps.
  destruct (fs st !! path_join w [dir; testFileS]) as [testContent|] eqn:Ht; cbv iota;
    [|apply Hcons; reflexivity].
  destruct (pageImportMatch testContent) as [[cls modulePath]|] eqn:Hi; msteps.
  2:{ left. split; [reflexivity|]. split; [reflexivity|]. exists []. rewrite app_nil_r. auto. }
  fold (pagePath w dir testFileS modulePath).
  destruct (fs st !! pagePath w dir testFileS modulePath) as [before|] eqn:Hb; cbv iota;
    [|apply Hcons; reflexivity].
  msteps.
  destruct (getProp suggestion "originalSelector") as [origV|] eqn:Ho; cbv iota;
    [|apply Hcons; reflexivity].
  msteps.
  destruct origV as [| | | |orig| |]; cbv iota; try (apply Hcons; reflexivity).
  rewrite applyFirst_selectorPatterns.
  destruct (test (quotedLocator orig) before) eqn:Hm; msteps.
  2:{ left. split; [reflexivity|]. split; [reflexivity|]. exists []. rewrite app_nil_r. auto. }
  destruct (writable w (trace st) (pagePath w dir testFileS modulePath)); msteps.
  - right. split; [reflexivity|].
    exists testFileS, testContent, cls, modulePath, orig, before.
    apply getProp_opt in Ho. auto 10.
  - apply Hcons; reflexivity.
Qed.

(** When the page object passes neither pattern, the call returns false
    and the state is the one it started from. *)
Lemma patch_no_match w dir testFileS suggestion st testContent cls modulePath
    before orig :
  fs st !! path_join w [dir; testFileS] = Some testContent ->
  pageImportMatch testContent = Some (cls, modulePath) ->
  fs st !! pagePath w dir testFileS modulePath = Some before ->
  getPropOpt suggestion "originalSelector" = VStr orig ->
  test (quotedLocator orig) before = false ->
  updatePageObjectSelector w dir (VStr testFileS) suggestion st = (Ok false, st).
Proof.
  intros Ht Hi Hb Ho Hm.
  assert (Hg : getProp suggestion "originalSelector" = Ok (VStr orig)).
  { destruct suggestion; simpl in *; try discriminate Ho; congruence. }
  unfold updatePageObjectSelector, tryCatch, bind, asString, ret, readFile, liftR.
  rewrite Ht, Hi. fold (pagePath w dir testFileS modulePath).
  rewrite Hb, Hg, applyFirst_selectorPatterns, Hm. reflexivity.
Qed.

End PatcherFacts.
Import PatcherFacts.

Module RepairFacts.

Ltac skipped :=
  eexists; split; [rewrite <- ?app_assoc; reflexivity|];
  split; [reflexivity|]; left; auto.

Lemma correctionAttempt_spec w dir ft cs st :
  post (correctionAttempt w dir ft cs) st (attemptPost w dir ft cs st).
Proof.
  assert (Hthrow : forall pre,
    forallb isRepairEv pre = true -> forallb notWriteEv pre = true ->
    post (run log LogAttemptError; ret cs)%eff
      (State (fs st) (trace st ++ pre)) (attemptPost w dir ft cs st)).
  { intros pre H1 H2. msteps. exists (pre ++ [EvLog LogAttemptError])%list.
    rewrite app_assoc. split; [reflexivity|].
    rewrite !forallb_app, H1, H2. auto. }
  assert (Hthrow0 : post (run log LogAttemptError; ret cs)%eff st
                      (attemptPost w dir ft cs st)).
  { specialize (Hthrow [] eq_refl eq_refl). rewrite app_nil_r in Hthrow.
    destruct st; exact Hthrow. }
  unfold correctionAttempt. msteps.
  destruct (ft_error ft) as [| | | |errorText| |] eqn:Herr; cbv iota; try exact Hthrow0.
  destruct (extractSelector errorText) as [failedSelector|] eqn:Hsel; msteps; [|skipped].
  destruct (ft_file ft) as [| | | |fileS| |] eqn:Hfile; cbv iota; try exact Hthrow0.
  msteps.
  destruct (fs st !! path_join w [dir; fileS]) as [pageContent|] eqn:Hpc; cbv iota;
    [|exact Hthrow0].
  destruct (extractPageUrl pageContent) as [pageUrl|] eqn:Hurl; msteps; [|skipped].
  destruct (httpGet w (trace st) pageUrl) as [pageHtml|] eqn:Hget;
    [|cbn [truthy negb]; msteps; skipped].
  destruct (truthy pageHtml); cbn [negb]; msteps; [|skipped].
  destruct pageHtml as [| | | |html| |]; cbv iota;
    try (apply (Hthrow [EvFetch pageUrl]); reflexivity).
  msteps.
  set (htmlPrefix := Str.take 5000 html).
  assert (Hthrow2 :
    post (run log LogAttemptError; ret cs)%eff
      (State (fs st)
         ((trace st ++ [EvFetch pageUrl]) ++ [EvAdvise failedSelector htmlPrefix]))
      (attemptPost w dir ft cs st)).
  { rewrite <- app_assoc. apply Hthrow; reflexivity. }
  destruct (advise w (trace st ++ [EvFetch pageUrl]) failedSelector htmlPrefix)
    as [text|] eqn:Hadv; msteps; [|exact Hthrow2].
  destruct (JSON_parse w (stripFences text)) as [suggestion|] eqn:Hparse; msteps;
    [|exact Hthrow2].
  destruct (getProp suggestion "confidence") as [confidence|] eqn:Hconf; cbv iota;
    [|exact Hthrow2].
  destruct (strictEqStr confidence "high" || strictEqStr confidence "medium")
    eqn:Hhm; msteps; [|skipped].
  eapply post_conseq; [apply updatePageObjectSelector_spec|].
  cbn [fs trace].
  intros r st' [(-> & Hfs & logs & Htr & Hlogs)|(-> & H)]; msteps.
  - exists ([EvFetch pageUrl; EvAdvise failedSelector htmlPrefix] ++ logs)%list.
    rewrite Htr, <- !app_assoc. split; [reflexivity|].
    assert (forallb isRepairEv logs = true /\ forallb notWriteEv logs = true) as [L1 L2].
    { clear -Hlogs. induction logs as [|e logs IH]; [auto|].
      simpl in Hlogs. apply andb_true_iff in Hlogs as [He Hl].
      destruct (IH Hl) as [I1 I2]. destruct e; try discriminate He.
      simpl. rewrite I1, I2. auto. }
    cbn [app forallb isRepairEv notWriteEv isWriteEv negb andb].
    rewrite L1, L2. auto.
  - destruct H as (testFileS & testContent & cls & modulePath & orig & before &
                   Htf & Htc & Himp & Hbefore & Horig & Hm & Hfs & Htr).
    eexists. rewrite Htr, <- !app_assoc. split; [reflexivity|].
    split; [reflexivity|]. right.
    eexists pageUrl, failedSelector, htmlPrefix, text, suggestion, _, _.
    split; [reflexivity|].
    split. { exists errorText, fileS, pageContent, html. rewrite Hfile. auto 10. }
    split; [exact Hadv|]. split; [exact Hparse|].
    split. { unfold highOrMedium. apply getProp_opt in Hconf. rewrite Hconf. exact Hhm. }
    split. { unfold appliedCorrection. rewrite Hfile. reflexivity. }
    split; [|exact Hfs].
    exists testFileS, testContent, cls, modulePath, orig, before.
    rewrite Hfile. auto 10.
Qed.

End RepairFacts.
Import RepairFacts.

Module LoopFacts.

Lemma countEv_app f l1 l2 : countEv f (l1 ++ l2) = countEv f l1 + countEv f l2.
Proof. unfold countEv. rewrite List.filter_app, length_app. reflexivity. Qed.

Lemma last_app_cons {A} (l : list A) e t d :
  List.last (l ++ e :: t)%list d = List.last (e :: t) d.
Proof.
  induction l as [|a l IH]; [reflexivity|].
  cbn [app]. rewrite <- IH. destruct (l ++ e :: t)%list eqn:E; [|reflexivity].
  destruct l; discriminate E.
Qed.

Lemma countEv_none l : forallb notWriteEv l = true -> countEv isWriteEv l = 0.
Proof.
  induction l as [|e l IH]; [reflexivity|]. simpl. intros H.
  apply andb_true_iff in H as [He Hl]. unfold countEv in *. simpl.
  unfold notWriteEv in He. apply negb_true_iff in He. rewrite He. auto.
Qed.

Lemma logs_are_repair l : forallb isLogEv l = true -> forallb isRepairEv l = true.
Proof.
  induction l as [|e l IH]; [reflexivity|]. simpl. intros H.
  apply andb_true_iff in H as [He Hl]. rewrite (IH Hl).
  destruct e; try discriminate He. reflexivity.
Qed.

Lemma logs_no_write l : forallb isLogEv l = true -> countEv isWriteEv l = 0.
Proof.
  induction l as [|e l IH]; [reflexivity|]. simpl. intros H.
  apply andb_true_iff in H as [He Hl]. unfold countEv in *.
  destruct e; try discriminate He. simpl. auto.
Qed.

Lemma repair_no_run l : forallb isRepairEv l = true -> countEv isRunEv l = 0.
Proof.
  induction l as [|e l IH]; [reflexivity|]. simpl. intros H.
  apply andb_true_iff in H as [He Hl]. unfold countEv in *.
  destruct e; try discriminate He; simpl; auto.
Qed.

Lemma report_no_run l : forallb isReportEv l = true -> countEv isRunEv l = 0.
Proof.
  induction l as [|e l IH]; [reflexivity|]. simpl. intros H.
  apply andb_true_iff in H as [He Hl]. unfold countEv in *.
  destruct e; try discriminate He; simpl; auto.
Qed.

Lemma correctLoop_spec w dir fts : forall cs st,
  post (correctLoop w dir fts cs) st (fun r st' =>
    exists added new,
      r = Ok (cs ++ added)%list /\
      trace st' = (trace st ++ new)%list /\
      forallb isRepairEv new = true /\
      countEv isWriteEv new = List.length added).
Proof.
  induction fts as [|ft fts IH]; intros cs st; cbn [correctLoop]; msteps.
  - exists [], []. rewrite !app_nil_r. auto.
  - eapply post_conseq; [apply correctionAttempt_spec|].
    intros r st1 (new1 & Htr1 & Hrep1 & H).
    assert (exists added1, r = Ok (cs ++ added1)%list /\
                           countEv isWriteEv new1 = List.length added1)
      as (added1 & -> & Hc1).
    { destruct H as [(-> & _ & Hnw)|(url & sel & hp & text & sg & path & after &
                                      -> & _ & _ & _ & _ & -> & _)].
      - exists []. rewrite app_nil_r. split; [reflexivity|]. apply countEv_none, Hnw.
      - eexists [_]. split; reflexivity. }
    eapply post_conseq; [apply IH|].
    intros r2 st2 (added2 & new2 & -> & Htr2 & Hrep2 & Hc2).
    exists (added1 ++ added2)%list, (new1 ++ new2)%list.
    rewrite Htr2, Htr1, <- !app_assoc, forallb_app, Hrep1, Hrep2, countEv_app,
      length_app, Hc1, Hc2. auto.
Qed.

(** An attempt never throws, and the loop goes on with the list it
    returns. *)
Lemma correctLoop_cons w dir ft fts cs st :
  exists cs1 st1,
    correctionAttempt w dir ft cs st = (Ok cs1, st1) /\
    correctLoop w dir (ft :: fts) cs st = correctLoop w dir fts cs1 st1.
Proof.
  pose proof (correctionAttempt_spec w dir ft cs st) as H.
  apply post_elim in H as (r & st1 & E & new & _ & _ & H).
  assert (exists cs1, r = Ok cs1) as [cs1 ->].
  { destruct H as [(-> & _)|(? & ? & ? & ? & ? & ? & ? & _ & _ & _ & _ & _ & -> & _)]; eauto. }
  exists cs1, st1. split; [exact E|].
  cbn [correctLoop]. unfold bind. rewrite E. reflexivity.
Qed.

End LoopFacts.
Import LoopFacts.

Module ControllerFacts.

Lemma run_total w dir headed st :
  exists r0 st1 logs,
    runPlaywrightTests w dir headed st = (Ok r0, st1) /\
    trace st1 = (trace st ++ EvRunTests headed :: logs)%list /\
    forallb isLogEv logs = true /\ listed r0.
Proof.
  destruct (post_elim _ _ _ (runPlaywrightTests_spec w dir headed st))
    as (r & st1 & E & rr & logs & -> & Ht & Hl & _ & Hli & _).
  eauto 10.
Qed.

Lemma correct_total w dir fts st :
  exists cs st2 new,
    correctFailedSelectors w dir fts st = (Ok cs, st2) /\
    trace st2 = (trace st ++ new)%list /\
    forallb isRepairEv new = true /\
    countEv isWriteEv new = List.length cs.
Proof.
  unfold correctFailedSelectors.
  destruct (post_elim _ _ _ (correctLoop_spec w dir fts [] st))
    as (r & st2 & E & added & new & -> & Ht & Hr & Hc).
  eauto 10.
Qed.

(** Steps 2 to 4 of the controller never throw; their trace is the
    initial run, the events of the correction pass, and one more run
    exactly when the pass recorded a correction. *)
Lemma runAndRepair_spec w tr0 st :
  correctedSelectors tr0 = [] ->
  exists r0 st1 cs repair rerun tr st',
    runPlaywrightTests w (repoDir w) true st = (Ok r0, st1) /\
    ((r_failed r0 = 0 /\ cs = []) \/
     (0 < r_failed r0 /\ exists st2,
        correctFailedSelectors w (repoDir w) (r_failedTests r0) st1 = (Ok cs, st2))) /\
    runAndRepair w tr0 st = (Ok tr, st') /\
    correctedSelectors tr = cs /\
    totalTests tr = r_totalTests r0 /\
    startTime tr = startTime tr0 /\
    trace st' = (trace st ++ EvRunTests true :: repair ++ rerun)%list /\
    forallb isRepairEv repair = true /\
    countEv isWriteEv repair = List.length cs /\
    ((cs = [] /\ rerun = [] /\ passed tr = r_passed r0 /\ failed tr = r_failed r0) \/
     (cs <> [] /\ exists logs, rerun = EvRunTests true :: logs /\
                               forallb isLogEv logs = true)).
Proof.
  intros Hcs0.
  destruct (run_total w (repoDir w) true st) as (r0 & st1 & logs1 & E1 & Ht1 & Hl1 & _).
  unfold runAndRepair, bind. rewrite E1. cbn [failed withCounts].
  destruct (0 <? r_failed r0)%nat eqn:Hf.
  - apply Nat.ltb_lt in Hf.
    destruct (correct_total w (repoDir w) (r_failedTests r0) st1)
      as (cs & st2 & new & E2 & Ht2 & Hr2 & Hc2).
    rewrite E2. cbn [withCorrections correctedSelectors totalTests passed failed].
    destruct (0 <? List.length cs)%nat eqn:Hn.
    + apply Nat.ltb_lt in Hn.
      destruct (run_total w (repoDir w) true st2) as (r1 & st3 & logs2 & E3 & Ht3 & Hl3 & _).
      rewrite E3.
      eexists r0, st1, cs, (logs1 ++ new)%list, (EvRunTests true :: logs2), _, st3.
      split; [reflexivity|]. split; [right; eauto|]. split; [reflexivity|].
      cbn [ret correctedSelectors totalTests startTime withCounts passed failed].
      split; [reflexivity|]. split; [reflexivity|]. split; [reflexivity|].
      split. { rewrite Ht3, Ht2, Ht1, <- !app_assoc. reflexivity. }
      split. { rewrite forallb_app, Hr2, (logs_are_repair _ Hl1). reflexivity. }
      split. { rewrite countEv_app, Hc2, (logs_no_write _ Hl1). reflexivity. }
      right. split; [destruct cs; [simpl in Hn; lia|discriminate]|]. eauto.
    + apply Nat.ltb_ge in Hn. assert (cs = []) as -> by (destruct cs; [reflexivity|simpl in Hn; lia]).
      eexists r0, st1, [], (logs1 ++ new)%list, [], _, st2.
      split; [reflexivity|]. split; [right; eauto|]. split; [reflexivity|].
      cbn [ret correctedSelectors totalTests startTime withCounts passed failed].
      split; [reflexivity|]. split; [reflexivity|]. split; [reflexivity|].
      split. { rewrite Ht2, Ht1, <- !app_assoc, app_nil_r. reflexivity. }
      split. { rewrite forallb_app, Hr2, (logs_are_repair _ Hl1). reflexivity. }
      split. { rewrite countEv_app, Hc2, (logs_no_write _ Hl1). reflexivity. }
      left. auto.
  - apply Nat.ltb_ge in Hf.
    eexists r0, st1, [], logs1, [], _, st1.
    split; [reflexivity|]. split; [left; split; [lia|reflexivity]|]. split; [reflexivity|].
    cbn [ret correctedSelectors totalTests startTime withCounts passed failed].
    split; [exact Hcs0|]. split; [reflexivity|]. split; [reflexivity|].
    split. { rewrite Ht1, app_nil_r. reflexivity. }
    split; [apply logs_are_repair, Hl1|].
    split; [apply logs_no_write, Hl1|].
    left. auto.
Qed.

(** Steps 5 and 6 only talk to git and to the issue tracker, and leave
    the counts, the corrections and the start time as they are; when they
    return, the last call was the report of the returned record. *)
Lemma publishAndReport_spec w issueKey prUrl tr st :
  post (publishAndReport w issueKey prUrl tr) st (fun r st' =>
    exists tail,
      trace st' = (trace st ++ tail)%list /\
      forallb isReportEv tail = true /\
      fs st' = fs st /\
      forall tr', r = Ok tr' ->
        totalTests tr' = totalTests tr /\ passed tr' = passed tr /\
        failed tr' = failed tr /\
        correctedSelectors tr' = correctedSelectors tr /\
        startTime tr' = startTime tr /\
        List.last tail EvCommit = EvJira issueKey (Agent3Results tr' prUrl)).
Proof.
  unfold publishAndReport, clock, commitCorrections, pushCorrections,
    createCorrectionPR, updateJiraWithResults, updateJiraCard.
  apply post_bind. unfold post at 1. cbn [fst snd].
  destruct (0 <? List.length (correctedSelectors (withEndTime tr (now w (trace st)))))%nat;
    msteps.
  - destruct (gitCommitOk w (trace st)); cbv iota.
    2:{ eexists; split; [reflexivity|]. repeat split; auto; discriminate. }
    msteps.
    destruct (gitConfigOk w _); cbv iota.
    2:{ eexists; split; [rewrite <- !app_assoc; reflexivity|].
        repeat split; auto; discriminate. }
    msteps.
    destruct (jiraOk w _); cbv iota.
    2:{ eexists; split; [rewrite <- !app_assoc; reflexivity|].
        repeat split; auto; discriminate. }
    msteps. rewrite <- !app_assoc. eexists; split; [reflexivity|].
    split; [reflexivity|]. split; [reflexivity|].
    intros tr' [= <-]. repeat split; reflexivity.
  - destruct (jiraOk w _); cbv iota.
    2:{ eexists; split; [reflexivity|]. repeat split; auto; discriminate. }
    msteps. eexists; split; [reflexivity|].
    split; [reflexivity|]. split; [reflexivity|].
    intros tr' [= <-]. repeat split; reflexivity.
Qed.

Lemma post_clock w (st : state) (Q : result Z -> state -> Prop) :
  Q (Ok (now w (trace st))) st -> post (clock w) st Q.
Proof. auto. Qed.

(** The handler of [triggerAgent3]: one more report, and the error again. *)
Lemma agent3_handler_spec w issueKey e (st : state) :
  post (run tryCatch (updateJiraCard w issueKey Agent3Failed) (fun _ => ret tt);
        throw e)%eff st
    (fun (r : result testResults) st' =>
       r = Throw e /\ fs st' = fs st /\
       trace st' = (trace st ++ [EvJira issueKey Agent3Failed])%list).
Proof.
  unfold updateJiraCard. msteps. destruct (jiraOk w (trace st)); msteps; auto.
Qed.

Lemma logs_count f l :
  (forall x, f (EvLog x) = false) -> forallb isLogEv l = true -> countEv f l = 0.
Proof.
  intros Hf. induction l as [|e l IH]; [reflexivity|]. simpl. intros H.
  apply andb_true_iff in H as [He Hl]. unfold countEv in *.
  destruct e; try discriminate He. simpl. rewrite Hf. auto.
Qed.

Lemma bind_ok {A B} (m : M A) (k : A -> M B) st a st1 :
  m st = (Ok a, st1) -> bind m k st = k a st1.
Proof. unfold bind. intros ->. reflexivity. Qed.

Lemma bind_throw {A B} (m : M A) (k : A -> M B) st e st1 :
  m st = (Throw e, st1) -> bind m k st = (Throw e, st1).
Proof. unfold bind. intros ->. reflexivity. Qed.

Lemma tryCatch_ok {A} (m : M A) h st a st1 :
  m st = (Ok a, st1) -> tryCatch m h st = (Ok a, st1).
Proof. unfold tryCatch. intros ->. reflexivity. Qed.

Lemma tryCatch_throw {A} (m : M A) h st e st1 :
  m st = (Throw e, st1) -> tryCatch m h st = h e st1.
Proof. unfold tryCatch. intros ->. reflexivity. Qed.

Lemma prepareTestRepo_ok w (st : state) f1 :
  cloneRepo w (trace st) (fs st) = Some f1 ->
  prepareTestRepo w st = (Ok tt, State f1 (trace st ++ [EvPrepareRepo])).
Proof.
  intros H. unfold prepareTestRepo, bind, history, files, emit, setFiles.
  cbn [fs trace]. rewrite H. reflexivity.
Qed.

(** The controller from its banner to the end of its try block. *)
Lemma triggerAgent3_unfold w issueKey prUrl (st : state) f1 tr stR :
  let start := (trace st ++ [EvLog (LogAgentBanner 3)])%list in
  cloneRepo w start (fs st) = Some f1 ->
  runAndRepair w (TestResults 0 0 0 [] (now w start) None None)
    (State f1 (start ++ [EvPrepareRepo])) = (Ok tr, stR) ->
  triggerAgent3 w issueKey prUrl st
  = tryCatch (publishAndReport w issueKey prUrl tr)
      (fun e =>
         run tryCatch (updateJiraCard w issueKey Agent3Failed) (fun _ => ret tt);
         throw e)%eff stR.
Proof.
  intros start Hclone Hrr.
  unfold triggerAgent3.
  rewrite (bind_ok _ _ st tt (State (fs st) start)) by reflexivity.
  rewrite (bind_ok _ _ _ (now w start) (State (fs st) start)) by reflexivity.
  unfold tryCatch at 1.
  rewrite (bind_ok _ _ _ tt (State f1 (start ++ [EvPrepareRepo])))
    by (apply prepareTestRepo_ok; exact Hclone).
  rewrite (bind_ok _ _ _ _ _ Hrr).
  reflexivity.
Qed.

Lemma publishAndReport_plain w issueKey prUrl tr (st : state) :
  correctedSelectors tr = [] ->
  let final := withEndTime tr (now w (trace st)) in
  let report := EvJira issueKey (Agent3Results final prUrl) in
  publishAndReport w issueKey prUrl tr st
  = (if jiraOk w (trace st) then Ok final else Throw (ExternalError "jira"),
     State (fs st) (trace st ++ [report])).
Proof.
  intros Hcs final report.
  unfold publishAndReport, clock, updateJiraWithResults, updateJiraCard, call,
    bind, ret. cbn [correctedSelectors withEndTime]. rewrite Hcs. cbn [List.length Nat.ltb Nat.leb].
  fold final. fold report.
  destruct (jiraOk w (trace st)); reflexivity.
Qed.

Lemma publishAndReport_accepted w issueKey prUrl tr st :
  (forall h, gitCommitOk w h = true) -> (forall h, gitConfigOk w h = true) ->
  (forall h, jiraOk w h = true) ->
  exists tr' st', publishAndReport w issueKey prUrl tr st = (Ok tr', st').
Proof.
  intros H1 H2 H3.
  unfold publishAndReport, clock, commitCorrections, pushCorrections,
    createCorrectionPR, updateJiraWithResults, updateJiraCard, call, bind, ret,
    history, emit.
  destruct (0 <? _)%nat; cbn [fs trace]; rewrite ?H1, ?H2, ?H3; cbn [fs trace];
    rewrite ?H1, ?H2, ?H3; cbn [fs trace]; rewrite ?H3; eauto.
Qed.

End ControllerFacts.
Import ControllerFacts.

(** ** The claims *)

Module Claims.

(** C1 (amended): a call of the patcher either returns false and leaves
    every file as it was, or returns true after rewriting, in the page
    object, every match of the quoted-literal pattern found from left to
    right (one at least; each of them trades the original locator for the
    suggested one when that one has no dollar sign); the keyed-property
    pattern is never the one applied.  When the page object passes no
    pattern the call returns false, raises nothing and changes nothing. *)
Theorem updatePageObjectSelector_rewrites_every_match
    w dir testFile suggestion st r st' :
  updatePageObjectSelector w dir testFile suggestion st = (r, st') ->
  ((r = Ok false /\ fs st' = fs st) \/
   (r = Ok true /\
    exists path orig before,
      fs st !! path = Some before /\
      getPropOpt suggestion "originalSelector" = VStr orig /\
      test (quotedLocator orig) before = true /\
      let sites := countMatches (quotedLocator orig) before in
      let after := replaceAll (quotedLocator orig)
                     (replacementTemplate suggestion) before in
      1 <= sites /\
      fs st' = <[path := after]> (fs st) /\
      (all notDollar (suggestedText suggestion) = true ->
       String.length after + sites * String.length orig
       = String.length before + sites * String.length (suggestedText suggestion))))
  /\
  (forall testFileS testContent cls modulePath before orig,
     testFile = VStr testFileS ->
     fs st !! path_join w [dir; testFileS] = Some testContent ->
     pageImportMatch testContent = Some (cls, modulePath) ->
     fs st !! pagePath w dir testFileS modulePath = Some before ->
     getPropOpt suggestion "originalSelector" = VStr orig ->
     test (quotedLocator orig) before = false ->
     r = Ok false /\ st' = st).
Proof.
  intros E. split.
  - pose proof (updatePageObjectSelector_spec w dir testFile suggestion st) as H.
    unfold post in H. rewrite E in H. cbn [fst snd] in H.
    destruct H as [(-> & Hfs & _)|(-> & tf & tc & cls & mp & orig & before &
                                   _ & _ & _ & Hb & Ho & Hm & Hfs & _)].
    + left. auto.
    + right. split; [reflexivity|]. exists (pagePath w dir tf mp), orig, before.
      split; [exact Hb|]. split; [exact Ho|]. split; [exact Hm|].
      split; [apply count_positive; exact Hm|]. split; [exact Hfs|].
      intros Hd.
      pose proof (replace_length orig (suggestedText suggestion) Hd before 0 ""
                    ltac:(lia)) as L.
      unfold replaceAll, replacementTemplate, countMatches.
      fold (suggestedText suggestion). lia.
  - intros tf tc cls mp before orig -> Ht Hi Hb Ho Hm.
    rewrite (patch_no_match _ _ _ _ _ _ _ _ _ _ Ht Hi Hb Ho Hm) in E.
    injection E as <- <-. auto.
Qed.

Lemma updatePageObjectSelector_rewrites_every_match_witness :
  exists path orig before,
    fs stCloned !! path = Some before /\
    getPropOpt suggestionHigh "originalSelector" = VStr orig /\
    test (quotedLocator orig) before = true /\
    let sites := countMatches (quotedLocator orig) before in
    let after := replaceAll (quotedLocator orig)
                   (replacementTemplate suggestionHigh) before in
    1 <= sites /\
    fs stPatched = <[path := after]> (fs stCloned) /\
    (all notDollar (suggestedText suggestionHigh) = true ->
     String.length after + sites * String.length orig
     = String.length before + sites * String.length (suggestedText suggestionHigh)).
Proof.
  assert (E : updatePageObjectSelector w0 "repo" (VStr "tests/login.spec.ts")
                suggestionHigh stCloned = (Ok true, stPatched))
    by (vm_compute; reflexivity).
  destruct (updatePageObjectSelector_rewrites_every_match _ _ _ _ _ _ _ E)
    as [[[H _]|[_ H]] _]; [discriminate H|exact H].
Defined.

(** C1 (as stated) fails: one call rewrites the two occurrences of the
    locator in the page object of the scenario. *)
Lemma patcher_rewrites_two_sites :
  exists st' after,
    updatePageObjectSelector w0 "repo" (VStr "tests/login.spec.ts")
      suggestionHigh stCloned = (Ok true, st') /\
    fs stCloned !! pagePathLogin = Some pageObject /\
    fs st' !! pagePathLogin = Some after /\
    ~ atMostOneSite "#submit" "#login" pageObject after.
Proof.
  exists stPatched, pageAfterHigh.
  split; [vm_compute; reflexivity|].
  split; [vm_compute; reflexivity|].
  split; [vm_compute; reflexivity|].
  intros [H|(pre & post & H1 & H2)].
  - apply (f_equal String.length) in H. vm_compute in H. discriminate H.
  - apply (f_equal String.length) in H1, H2.
    rewrite !str_length_app in H1, H2.
    assert (L : String.length pageObject = String.length pageAfterHigh + 2)
      by (vm_compute; reflexivity).
    change (String.length "#submit") with 7 in H1.
    change (String.length "#login") with 6 in H2. lia.
Qed.






(** C8 (amended): a correction is recorded only when the patcher found a
    match and wrote the page object; what it wrote differs from what the
    file held whenever the suggested locator differs from the original
    one and contains no dollar sign. *)
Theorem correction_recorded_only_after_patch_write w dir ft cs st r st' :
  correctionAttempt w dir ft cs st = (r, st') ->
  r <> Ok cs ->
  exists suggestion path before after,
    r = Ok (cs ++ [appliedCorrection ft suggestion])%list /\
    fs st !! path = Some before /\
    fs st' = <[path := after]> (fs st) /\
    (exists pre, trace st' = (trace st ++ pre ++ [EvWriteFile path after])%list) /\
    (forall orig,
       getPropOpt suggestion "originalSelector" = VStr orig ->
       all notDollar (suggestedText suggestion) = true ->
       suggestedText suggestion <> orig ->
       after <> before).
Proof.
  intros E Hr.
  pose proof (correctionAttempt_spec w dir ft cs st) as H.
  unfold post in H. rewrite E in H. cbn [fst snd] in H.
  destruct H as (new & Htr & _ & [(H & _)|H]); [contradiction|].
  destruct H as (url & sel & hp & text & sg & path & after & -> & _ & _ & _ & _ &
                 -> & Hp & Hfs).
  destruct Hp as (tf & tc & cls & mp & orig & before & _ & _ & _ & _ & Hb & Ho & Hm & ->).
  eexists sg, path, before, _. split; [reflexivity|]. split; [exact Hb|].
  split; [exact Hfs|]. split.
  { exists [EvFetch url; EvAdvise sel hp]. exact Htr. }
  intros orig' Ho' Hd Hne. rewrite Ho in Ho'. injection Ho' as <-.
  unfold replaceAll, replacementTemplate. fold (suggestedText sg).
  apply replace_changes; assumption.
Qed.

Lemma correction_recorded_only_after_patch_write_witness :
  exists suggestion path before after,
    Ok [appliedCorrection failedSubmit suggestionHigh]
      = Ok ([] ++ [appliedCorrection failedSubmit suggestion])%list /\
    fs stCloned !! path = Some before /\
    fs stAttempted = <[path := after]> (fs stCloned) /\
    (exists pre, trace stAttempted
                 = (trace stCloned ++ pre ++ [EvWriteFile path after])%list) /\
    (forall orig,
       getPropOpt suggestion "originalSelector" = VStr orig ->
       all notDollar (suggestedText suggestion) = true ->
       suggestedText suggestion <> orig ->
       after <> before).
Proof.
  apply (correction_recorded_only_after_patch_write
           w0 "repo" failedSubmit [] stCloned).
  - vm_compute. reflexivity.
  - discriminate.
Defined.

(** C8 (as stated) fails: the advisory answer repeats the original
    locator with high confidence; the page object holds the same text
    after the patch, and the correction is recorded. *)
Lemma correction_recorded_without_change :
  exists c st',
    correctionAttempt wSame "repo" failedCancel [] stCloned = (Ok [c], st') /\
    fs st' !! pagePathLogin = fs stCloned !! pagePathLogin.
Proof.
  eexists _, _. split; vm_compute; reflexivity.
Qed.

(** C6: an attempt whose advisory answer does not carry the confidence
    high or medium records nothing, leaves every file as it was and
    makes no write. *)
Theorem low_confidence_never_applied
    w dir ft cs st r st' pre sel htmlPrefix rest text suggestion :
  correctionAttempt w dir ft cs st = (r, st') ->
  trace st' = (trace st ++ pre ++ EvAdvise sel htmlPrefix :: rest)%list ->
  advise w (trace st ++ pre)%list sel htmlPrefix = Some text ->
  JSON_parse w (stripFences text) = Some suggestion ->
  highOrMedium suggestion = false ->
  r = Ok cs /\ fs st' = fs st /\
  countEv isWriteEv (pre ++ EvAdvise sel htmlPrefix :: rest) = 0.
Proof.
  intros E Htr Hadv Hparse Hlow.
  pose proof (correctionAttempt_spec w dir ft cs st) as H.
  unfold post in H. rewrite E in H. cbn [fst snd] in H.
  destruct H as (new & Htr' & _ & H).
  rewrite Htr in Htr'. apply app_inv_head in Htr'. subst new.
  destruct H as [(-> & Hfs & Hnw)|H].
  - repeat split; auto. apply countEv_none, Hnw.
  - exfalso.
    destruct H as (url & sel' & hp' & text' & sg & path & after & Hnew & _ & Hadv' &
                   Hparse' & Hhm & _).
    destruct pre as [|e1 [|e2 [|e3 pre]]]; cbn [app] in Hnew.
    + discriminate Hnew.
    + injection Hnew as -> -> -> _.
      rewrite Hadv in Hadv'. injection Hadv' as <-.
      rewrite Hparse in Hparse'. injection Hparse' as <-. congruence.
    + discriminate Hnew.
    + injection Hnew as _ _ _ Hnil. destruct pre; discriminate Hnil.
Qed.

Lemma low_confidence_never_applied_witness :
  Ok [appliedCorrection failedSubmit suggestionHigh]
    = Ok [appliedCorrection failedSubmit suggestionHigh] /\
  fs stSkipped = fs stPatched /\
  countEv isWriteEv
    ([EvFetch "http://app.test/login"]
     ++ EvAdvise "#cancel" "<button id=login>" :: [EvLog LogSkipLowConfidence]) = 0.
Proof.
  apply (low_confidence_never_applied
           w0 "repo" failedCancel [appliedCorrection failedSubmit suggestionHigh]
           stPatched _ stSkipped
           [EvFetch "http://app.test/login"] "#cancel" "<button id=login>"
           [EvLog LogSkipLowConfidence] "low" suggestionLow);
    vm_compute; reflexivity.
Defined.



(** C3: every execution of the controller that gets its checkout runs
    the tests once, then the correction pass, then the tests once more
    exactly when the pass recorded a correction, then only git and
    issue-tracker calls: there is no second correction pass and no third
    run.  Without a checkout the tests are not run at all. *)
Theorem rerun_exactly_once_iff_corrections w issueKey prUrl st :
  exists r st',
    triggerAgent3 w issueKey prUrl st = (r, st') /\
    match cloneRepo w (trace st ++ [EvLog (LogAgentBanner 3)])%list (fs st) with
    | None => countEv isRunEv (trace st') = countEv isRunEv (trace st)
    | Some f1 => controllerShape w st f1 r st'
    end.
Proof.
  pose proof (post_elim (triggerAgent3 w issueKey prUrl) st
    (fun r st' =>
       match cloneRepo w (trace st ++ [EvLog (LogAgentBanner 3)])%list (fs st) with
       | None => countEv isRunEv (trace st') = countEv isRunEv (trace st)
       | Some f1 => controllerShape w st f1 r st'
       end)) as H.
  destruct H as (r & st' & E & H); [|eauto].
  unfold triggerAgent3. msteps. apply post_clock. cbv beta iota. cbn [fs trace].
  msteps. unfold prepareTestRepo. msteps.
  set (start := (trace st ++ [EvLog (LogAgentBanner 3)])%list).
  destruct (cloneRepo w start (fs st)) as [f1|];
    [msteps|apply post_throw; cbv beta iota].
  2:{ eapply post_conseq; [apply agent3_handler_spec|].
      cbn [fs trace]. intros r st' (_ & _ & ->).
      unfold start. rewrite !countEv_app. cbn. lia. }
  destruct (runAndRepair_spec w (TestResults 0 0 0 [] (now w start) None None)
              (State f1 (start ++ [EvPrepareRepo])) eq_refl)
    as (r0 & st1 & cs & repair & rerun & tr & stR & E1 & Hcs & E2 & Hcsel & _ & _ &
        HtR & Hrep & Hcw & Hrerun).
  eapply post_intro; [exact E2|]. cbv iota.
  cbn [trace] in HtR.
  assert (Hfin : forall (r : result testResults) (st' : state) tail,
    trace st' = (trace stR ++ tail)%list -> forallb isReportEv tail = true ->
    (forall tr', r = Ok tr' -> correctedSelectors tr' = cs) ->
    controllerShape w st f1 r st').
  { intros r st' tail Ht Htail Hres.
    unfold controllerShape. fold start.
    exists r0, st1, cs, repair, rerun, tail.
    split; [exact E1|]. split; [exact Hcs|].
    split. { rewrite Ht, HtR. repeat (rewrite <- ?app_assoc; cbn [app]). reflexivity. }
    split; [exact Hrep|]. split; [exact Hcw|].
    split. { destruct Hrerun as [(-> & -> & _)|(Hne & logs & -> & Hl)]; [left|right]; eauto. }
    split; [exact Htail|]. split; [|exact Hres].
    rewrite Ht, HtR. unfold start.
    rewrite !countEv_app.
    change (EvRunTests true :: repair ++ rerun)%list
      with ([EvRunTests true] ++ repair ++ rerun)%list.
    rewrite !countEv_app, (repair_no_run _ Hrep), (report_no_run _ Htail).
    destruct Hrerun as [(-> & -> & _)|(Hne & logs & -> & Hl)].
    - cbn. lia.
    - change (EvRunTests true :: logs)%list with ([EvRunTests true] ++ logs)%list.
      rewrite countEv_app, (repair_no_run _ (logs_are_repair _ Hl)).
      destruct cs; [contradiction|]. cbn. lia. }
  eapply post_conseq; [apply publishAndReport_spec|].
  intros r st' (tail & Ht & Htail & _ & Hres).
  destruct r as [tr'|e].
  - apply (Hfin _ _ tail Ht Htail).
    intros tr'' [= <-]. destruct (Hres tr' eq_refl) as (_ & _ & _ & -> & _). exact Hcsel.
  - eapply post_conseq; [apply agent3_handler_spec|].
    intros r st'' (-> & _ & Ht'').
    apply (Hfin _ _ (tail ++ [EvJira issueKey Agent3Failed])%list).
    + rewrite Ht'', Ht, <- app_assoc. reflexivity.
    + rewrite forallb_app, Htail. reflexivity.
    + discriminate.
Qed.

(** C4: when the initial run reports no failure, the controller asks no
    advice, writes nothing, does not run the tests again, and reports
    and returns the counts of the initial run (it throws instead of
    returning when the issue tracker rejects the report). *)
Theorem no_failure_no_correction w issueKey prUrl st f1 r0 st1 :
  let start := (trace st ++ [EvLog (LogAgentBanner 3)])%list in
  cloneRepo w start (fs st) = Some f1 ->
  runPlaywrightTests w (repoDir w) true (State f1 (start ++ [EvPrepareRepo]))
  = (Ok r0, st1) ->
  r_failed r0 = 0 ->
  let final := TestResults (r_totalTests r0) (r_passed r0) (r_failed r0) []
                 (now w start) (Some (now w (trace st1))) None in
  let report := EvJira issueKey (Agent3Results final prUrl) in
  let st' := snd (triggerAgent3 w issueKey prUrl st) in
  triggerAgent3 w issueKey prUrl st
  = (if jiraOk w (trace st1)
     then (Ok final, State (fs st1) (trace st1 ++ [report]))
     else (Throw (ExternalError "jira"),
           State (fs st1) (trace st1 ++ [report; EvJira issueKey Agent3Failed]))) /\
  countEv isAdviseEv (trace st') = countEv isAdviseEv (trace st) /\
  countEv isWriteEv (trace st') = countEv isWriteEv (trace st) /\
  countEv isRunEv (trace st') = S (countEv isRunEv (trace st)).
Proof.
  intros start Hclone Hrun Hf final report st'.
  assert (E : triggerAgent3 w issueKey prUrl st
    = (if jiraOk w (trace st1)
       then (Ok final, State (fs st1) (trace st1 ++ [report]))
       else (Throw (ExternalError "jira"),
             State (fs st1) (trace st1 ++ [report; EvJira issueKey Agent3Failed])))).
  { assert (Hrr : runAndRepair w (TestResults 0 0 0 [] (now w start) None None)
                      (State f1 (start ++ [EvPrepareRepo]))
                    = (Ok (TestResults (r_totalTests r0) (r_passed r0) (r_failed r0)
                             [] (now w start) None None), st1)).
    { unfold runAndRepair. rewrite (bind_ok _ _ _ _ _ Hrun).
      cbn [withCounts failed correctedSelectors startTime endTime correctionPrUrl].
      rewrite Hf. reflexivity. }
    rewrite (triggerAgent3_unfold _ _ _ _ _ _ _ Hclone Hrr).
    unfold tryCatch at 1. rewrite publishAndReport_plain by reflexivity.
    cbn [withEndTime totalTests passed failed correctedSelectors startTime
         correctionPrUrl]. fold final. fold report.
    destruct (jiraOk w (trace st1)); [reflexivity|].
    unfold bind, tryCatch, updateJiraCard, call, ret, throw. cbn [fs trace].
    rewrite <- app_assoc.
    destruct (jiraOk w _); reflexivity. }
  split; [exact E|].
  destruct (run_total w (repoDir w) true (State f1 (start ++ [EvPrepareRepo])))
    as (r0' & st1' & logs & E1 & Ht1 & Hl & _).
  rewrite Hrun in E1. injection E1 as <- <-. cbn [trace] in Ht1.
  assert (Ht : exists tail, trace st' = (trace st1 ++ tail)%list /\
                            forallb isReportEv tail = true).
  { subst st'. rewrite E. destruct (jiraOk w (trace st1)); cbn [snd trace]; eauto. }
  destruct Ht as (tail & -> & Htail). rewrite Ht1. unfold start.
  assert (Hcount : forall f,
    (forall x, f (EvLog x) = false) -> (forall k n, f (EvJira k n) = false) ->
    f EvCommit = false -> f EvPush = false -> f EvCreatePR = false ->
    f EvPrepareRepo = false ->
    countEv f ((((trace st ++ [EvLog (LogAgentBanner 3)]) ++ [EvPrepareRepo]) ++
                EvRunTests true :: logs) ++ tail)
    = countEv f (trace st) + (if f (EvRunTests true) then 1 else 0)).
  { intros f H0 H1 H2 H3 H4 H5.
    assert (countEv f tail = 0) as Ht.
    { clear -Htail H1 H2 H3 H4.
      induction tail as [|e tail IH]; [reflexivity|]. simpl in Htail.
      apply andb_true_iff in Htail as [He Htail]. unfold countEv in *.
      destruct e; try discriminate He; simpl; rewrite ?H1, ?H2, ?H3, ?H4; auto. }
    change (EvRunTests true :: logs)%list with ([EvRunTests true] ++ logs)%list.
    rewrite !countEv_app, Ht, (logs_count f logs H0 Hl).
    unfold countEv. cbn [List.filter]. rewrite H0, H5.
    destruct (f (EvRunTests true)); cbn; lia. }
  rewrite !Hcount by reflexivity. cbn. repeat split; lia.
Qed.


Lemma no_failure_no_correction_witness :
  triggerAgent3 wPass "SCRUM-6" None st0
  = (Ok finalPass,
     State (fs stRunPass)
       (trace stRunPass ++ [EvJira "SCRUM-6" (Agent3Results finalPass None)])) /\
  countEv isAdviseEv (trace (snd (triggerAgent3 wPass "SCRUM-6" None st0))) = 0 /\
  countEv isWriteEv (trace (snd (triggerAgent3 wPass "SCRUM-6" None st0))) = 0 /\
  countEv isRunEv (trace (snd (triggerAgent3 wPass "SCRUM-6" None st0))) = 1.
Proof.
  apply (no_failure_no_correction wPass "SCRUM-6" None st0 checkout runPass stRunPass);
    vm_compute; reflexivity.
Defined.

(** C10: on the retried path the rerun replaces the passed and failed
    counts only; the total stays the one of the initial run, the start
    time and the corrections stay as they were, and when the rerun
    counted another number of tests the total returned is not the sum of
    passed and failed. *)
Theorem rerun_updates_only_passed_and_failed
    w issueKey prUrl st f1 r0 st1 cs st2 r1 st3 r st' :
  let start := (trace st ++ [EvLog (LogAgentBanner 3)])%list in
  let t0 := now w start in
  cloneRepo w start (fs st) = Some f1 ->
  runPlaywrightTests w (repoDir w) true (State f1 (start ++ [EvPrepareRepo]))
  = (Ok r0, st1) ->
  0 < r_failed r0 ->
  correctFailedSelectors w (repoDir w) (r_failedTests r0) st1 = (Ok cs, st2) ->
  cs <> [] ->
  runPlaywrightTests w (repoDir w) true st2 = (Ok r1, st3) ->
  triggerAgent3 w issueKey prUrl st = (r, st') ->
  runAndRepair w (TestResults 0 0 0 [] t0 None None)
    (State f1 (start ++ [EvPrepareRepo]))
  = (Ok (TestResults (r_totalTests r0) (r_passed r1) (r_failed r1) cs t0 None None),
     st3) /\
  (forall tr, r = Ok tr ->
     totalTests tr = r_totalTests r0 /\ passed tr = r_passed r1 /\
     failed tr = r_failed r1 /\ startTime tr = t0 /\ correctedSelectors tr = cs /\
     List.last (trace st') EvCommit = EvJira issueKey (Agent3Results tr prUrl)) /\
  ((forall h, gitCommitOk w h = true) -> (forall h, gitConfigOk w h = true) ->
   (forall h, jiraOk w h = true) -> exists tr, r = Ok tr) /\
  (r_totalTests r1 = r_passed r1 + r_failed r1 ->
   r_totalTests r1 <> r_totalTests r0 ->
   forall tr, r = Ok tr -> totalTests tr <> passed tr + failed tr).
Proof.
  intros start t0 Hclone Hrun Hf Hcorr Hcs Hrerun E.
  assert (Hrr : runAndRepair w (TestResults 0 0 0 [] t0 None None)
                  (State f1 (start ++ [EvPrepareRepo]))
                = (Ok (TestResults (r_totalTests r0) (r_passed r1) (r_failed r1) cs
                         t0 None None), st3)).
  { unfold runAndRepair. rewrite (bind_ok _ _ _ _ _ Hrun).
    cbn [withCounts failed]. apply Nat.ltb_lt in Hf. rewrite Hf.
    rewrite (bind_ok _ _ _ _ _ Hcorr).
    destruct cs as [|c cs]; [contradiction|]. cbn [List.length Nat.ltb Nat.leb].
    rewrite (bind_ok _ _ _ _ _ Hrerun). reflexivity. }
  split; [exact Hrr|].
  rewrite (triggerAgent3_unfold _ _ _ _ _ _ _ Hclone Hrr) in E.
  set (agg := TestResults (r_totalTests r0) (r_passed r1) (r_failed r1) cs t0 None None) in *.
  assert (Hfields : forall tr, r = Ok tr ->
     totalTests tr = r_totalTests r0 /\ passed tr = r_passed r1 /\
     failed tr = r_failed r1 /\ startTime tr = t0 /\ correctedSelectors tr = cs /\
     List.last (trace st') EvCommit = EvJira issueKey (Agent3Results tr prUrl)).
  { intros tr ->.
    destruct (post_elim _ _ _ (publishAndReport_spec w issueKey prUrl agg st3))
      as (rp & stp & Ep & tail & Htail & _ & _ & Hres).
    unfold tryCatch in E. rewrite Ep in E. destruct rp as [tr'|e].
    - injection E as -> <-. destruct (Hres _ eq_refl) as (-> & -> & -> & -> & -> & Hl).
      repeat split; try reflexivity.
      rewrite Htail. destruct tail as [|e tail]; [discriminate Hl|].
      rewrite last_app_cons. exact Hl.
    - destruct (post_elim _ _ _ (agent3_handler_spec w issueKey e stp))
        as (rh & sth & Eh & -> & _).
      cbv beta iota in E. pose proof (eq_trans (eq_sym Eh) E) as X. discriminate X. }
  split; [exact Hfields|]. split.
  - intros H1 H2 H3.
    destruct (publishAndReport_accepted w issueKey prUrl agg st3 H1 H2 H3)
      as (tr' & stp & Ep).
    rewrite (tryCatch_ok _ _ _ _ _ Ep) in E. injection E as <- _. eauto.
  - intros Hsum Hne tr Hr. destruct (Hfields tr Hr) as (-> & -> & -> & _). lia.
Qed.

Lemma rerun_updates_only_passed_and_failed_witness :
  exists tr,
    fst (triggerAgent3 w0 "SCRUM-6" None st0) = Ok tr /\
    totalTests tr = 3 /\ passed tr = 2 /\ failed tr = 0 /\
    totalTests tr <> passed tr + failed tr.
Proof.
  destruct (rerun_updates_only_passed_and_failed
              w0 "SCRUM-6" None st0 checkout run1
              (snd (runPlaywrightTests w0 "repo" true
                      (State checkout [EvLog (LogAgentBanner 3); EvPrepareRepo])))
              [appliedCorrection failedSubmit suggestionHigh]
              (snd (correctFailedSelectors w0 "repo" [failedSubmit; failedCancel]
                      (snd (runPlaywrightTests w0 "repo" true
                              (State checkout [EvLog (LogAgentBanner 3); EvPrepareRepo])))))
              run2
              (snd (runPlaywrightTests w0 "repo" true
                 (snd (correctFailedSelectors w0 "repo" [failedSubmit; failedCancel]
                      (snd (runPlaywrightTests w0 "repo" true
                              (State checkout [EvLog (LogAgentBanner 3); EvPrepareRepo])))))))
              (fst (triggerAgent3 w0 "SCRUM-6" None st0))
              (snd (triggerAgent3 w0 "SCRUM-6" None st0)))
    as (_ & Hfields & Hok & Hdiff);
    try (vm_compute; reflexivity).
  - vm_compute. lia.
  - discriminate.
  - destruct Hok as [tr Htr]; try (intros; reflexivity).
    exists tr. split; [exact Htr|].
    destruct (Hfields tr Htr) as (H1 & H2 & H3 & _).
    split; [exact H1|]. split; [exact H2|]. split; [exact H3|].
    apply Hdiff; [reflexivity| |exact Htr]. vm_compute. discriminate.
Defined.


(** The result of a run always lists its failures, and its total is the
    sum of passed and failed whenever the report read back has no null
    entry among its tests (an absent or unparseable report gives the
    three zeros). *)
Lemma run_result_counts w dir headed st :
  exists r st',
    runPlaywrightTests w dir headed st = (Ok r, st') /\
    listed r /\
    ((forall c v, fs st' !! resultsPath w dir = Some c ->
                  JSON_parse w c = Some v -> noNullTest v = true) ->
     counted r).
Proof.
  destruct (post_elim _ _ _ (runPlaywrightTests_spec w dir headed st))
    as (r & st' & E & rr & logs & -> & _ & _ & _ & Hl & Hc).
  eauto.
Qed.

(** C5 fails on the code: a report whose list of tests holds a null entry
    is parsed, the total is incremented, reading the status of the entry
    throws, and the result keeps a total of one with no passed and no
    failed test. *)
Theorem null_test_entry_breaks_the_count :
  exists r st',
    JSON_parse wNull "RN" = Some (reportOf [VNull]) /\
    runPlaywrightTests wNull "repo" true stCloned = (Ok r, st') /\
    r_totalTests r = 1 /\ r_passed r = 0 /\ r_failed r = 0 /\
    r_failedTests r = [] /\
    r_totalTests r <> r_passed r + r_failed r.
Proof.
  eexists _, _. split; [reflexivity|]. split; [vm_compute; reflexivity|].
  cbn. repeat split; auto.
Qed.

(** C2 fails on the code: test-case generation succeeds, the call of
    Agent 2 that ends the try block of Agent 1 throws, Agent 1 reports a
    failure and throws again, and the workflow logs a fatal error: Agent 3
    is not started and the completion line is not logged. *)
Theorem materialize_failure_aborts_workflow :
  triggerFullWorkflow wNoScript scrum6 st0
  = (Ok tt,
     State ∅
       [EvLog (LogAgentBanner 1);
        EvJira "SCRUM-6" Agent1Started;
        EvGenerateTestCases;
        EvSaveTestCases;
        EvJira "SCRUM-6" Agent1Completed;
        EvLog (LogAgentBanner 2);
        EvGenerateScript;
        EvJira "SCRUM-6" Agent2Failed;
        EvJira "SCRUM-6" Agent1Failed;
        EvLog LogFatalWorkflowError]).
Proof. vm_compute. reflexivity. Qed.

(** The sibling path: when the call of Agent 2 made by the workflow
    itself throws, the error is logged and Agent 3 runs. *)
Lemma workflow_recovers_from_its_own_agent2_call :
  let tr := trace (snd (triggerFullWorkflow wSecondScript scrum6 st0)) in
  In (EvLog LogAgent2Error) tr /\ In (EvLog (LogAgentBanner 3)) tr /\
  In (EvRunTests true) tr /\ List.last tr EvCommit = EvLog LogWorkflowCompleted.
Proof. vm_compute. intuition. Qed.

End Claims.

(** ** Further facts: the test runner *)

Import Text Props2.

Module RunnerFacts2.

Lemma forEach_inv (P Q : runResult -> Prop) f xs : forall r,
  (forall x r, P r -> outcomeInv P Q (f x r)) ->
  P r -> outcomeInv P Q (forEach f xs r).
Proof.
  induction xs as [|x xs IH]; intros r Hf HP; [exact HP|].
  cbn [forEach]. specialize (Hf x r HP) as H1.
  destruct (f x r) as [r1 [e1|]]; [exact H1|]. apply IH; assumption.
Qed.

Lemma optForEach_inv (P Q : runResult -> Prop) v f r :
  (forall r, P r -> Q r) ->
  (forall x r, P r -> outcomeInv P Q (f x r)) ->
  P r -> outcomeInv P Q (optForEach v f r).
Proof.
  intros HPQ Hf HP. destruct v; cbn [optForEach]; try exact HP;
    try (apply HPQ; exact HP).
  apply forEach_inv; assumption.
Qed.

Lemma walkReport_inv (P Q : runResult -> Prop) results r :
  (forall r, P r -> Q r) ->
  (forall x r, P r -> outcomeInv P Q (visitTest x r)) ->
  P r -> outcomeInv P Q (walkReport results r).
Proof.
  intros HPQ Hf HP. unfold walkReport.
  destruct (getProp results "suites") as [suites|e]; [|apply HPQ; exact HP].
  apply optForEach_inv; [exact HPQ| |exact HP].
  intros suite r1 HP1. unfold visitSuite.
  destruct (getProp suite "tests") as [tests|e]; [|apply HPQ; exact HP1].
  apply optForEach_inv; assumption.
Qed.

(** The result of a run, spelled out: the counts come from the walk of
    the parsed report, or are those of the empty result when the report
    could not be read or parsed; the screenshots are the names of the
    listing that end with .png. *)
Lemma runPlaywrightTests_unfold w dir headed (st : state) :
  let f1 := execTests w (trace st) (fs st) in
  exists rr logs,
    forallb isLogEv logs = true /\
    (rr = emptyRun \/
     exists c v, f1 !! resultsPath w dir = Some c /\ JSON_parse w c = Some v /\
                 rr = fst (walkReport v emptyRun)) /\
    let h1 := (trace st ++ EvRunTests headed :: logs)%list in
    runPlaywrightTests w dir headed st
    = (Ok (match readdir w h1 f1 (path_join w [dir; "test-results"]) with
           | Some names =>
               withScreenshots rr
                 (Some (List.filter (fun f => endsWith f ".png") names))
           | None => rr
           end),
       State f1 h1).
Proof.
  intros f1. unfold runPlaywrightTests, bind, history, files, setFiles,
    tryCatch, readFile, log, emit, ret, throw. cbn [fs trace]. fold f1.
  fold (resultsPath w dir).
  destruct (f1 !! resultsPath w dir) as [c|] eqn:Hc.
  - destruct (JSON_parse w c) as [v|] eqn:Hv; cbn [fs trace].
    + destruct (walkReport v emptyRun) as [rr [e|]] eqn:Hw; cbn [fs trace].
      * exists rr, [EvLog LogReportUnreadable]. split; [reflexivity|].
        split; [right; exists c, v; rewrite Hw; auto|].
        cbv zeta. cbn [fs trace]. rewrite <- ?app_assoc. cbn [app fs trace].
        destruct (readdir w _ f1 _); reflexivity.
      * exists rr, []. split; [reflexivity|].
        split; [right; exists c, v; rewrite Hw; auto|].
        cbv zeta. destruct (readdir w _ f1 _); reflexivity.
    + exists emptyRun, [EvLog LogReportUnreadable]. split; [reflexivity|].
      split; [left; reflexivity|].
      cbv zeta. cbn [fs trace]. rewrite <- ?app_assoc. cbn [app fs trace].
      destruct (readdir w _ f1 _); reflexivity.
  - exists emptyRun, [EvLog LogReportUnreadable]. split; [reflexivity|].
    split; [left; reflexivity|].
    cbv zeta. cbn [fs trace]. rewrite <- ?app_assoc. cbn [app fs trace].
    destruct (readdir w _ f1 _); reflexivity.
Qed.

(** A property of the counts and of the list of failures that holds of
    the empty result and is kept or reached by the walk of every report
    holds of the result of every run. *)
Lemma runPlaywrightTests_result (P : runResult -> Prop) w dir headed st :
  P emptyRun ->
  (forall v, P (fst (walkReport v emptyRun))) ->
  (forall r s, P r -> P (withScreenshots r s)) ->
  exists rr st', runPlaywrightTests w dir headed st = (Ok rr, st') /\ P rr.
Proof.
  intros H0 Hw Hs.
  destruct (runPlaywrightTests_unfold w dir headed st) as (rr & logs & _ & Hrr & E).
  cbv zeta in E. rewrite E. eexists _, _. split; [reflexivity|].
  assert (HP : P rr).
  { destruct Hrr as [->|(c & v & _ & _ & ->)]; auto. }
  destruct (readdir w _ _ _); auto.
Qed.

Lemma visitTest_nearly x r :
  counted r -> outcomeInv counted nearlyCounted (visitTest x r).
Proof.
  unfold visitTest, counted, nearlyCounted, outcomeInv. intros H.
  destruct (getProp x "status") as [s|e]; cbn [fst snd r_totalTests r_passed r_failed].
  - destruct (strictEqStr s "passed"); cbn [fst snd r_totalTests r_passed r_failed]; lia.
  - lia.
Qed.

Lemma walkReport_nearly v : nearlyCounted (fst (walkReport v emptyRun)).
Proof.
  pose proof (walkReport_inv counted nearlyCounted v emptyRun) as H.
  unfold outcomeInv in H.
  assert (H1 : forall r, counted r -> nearlyCounted r).
  { unfold counted, nearlyCounted. intros r Hr. lia. }
  specialize (H H1 visitTest_nearly eq_refl).
  destruct (walkReport v emptyRun) as [r [e|]]; cbn [fst snd] in *; auto.
Qed.

Lemma walkReport_listed_fst v : listed (fst (walkReport v emptyRun)).
Proof.
  destruct (walkReport v emptyRun) as [r e] eqn:E.
  eapply walkReport_listed; [exact E|reflexivity].
Qed.

Lemma visitTest_described x r :
  describedFailures r ->
  outcomeInv describedFailures describedFailures (visitTest x r).
Proof.
  unfold visitTest, describedFailures, outcomeInv. intros H.
  destruct (getProp x "status") as [s|e]; cbn [fst snd r_failedTests]; [|exact H].
  destruct (strictEqStr s "passed"); cbn [fst snd r_failedTests]; [exact H|].
  apply Forall_app. split; [exact H|]. constructor; [|constructor].
  cbn [ft_error]. unfold orElse.
  destruct (truthy (getPropOpt (getPropOpt x "error") "message")) eqn:E;
    [exact E|reflexivity].
Qed.

Lemma walkReport_described v : describedFailures (fst (walkReport v emptyRun)).
Proof.
  pose proof (walkReport_inv describedFailures describedFailures v emptyRun) as H.
  unfold outcomeInv in H.
  specialize (H (fun r Hr => Hr) visitTest_described (List.Forall_nil _)).
  destruct (walkReport v emptyRun) as [r [e|]]; cbn [fst snd] in *; auto.
Qed.

(** [endsWith] *)
Lemma endsWith_rev_prefix a : forall b,
  endsWith_rev a b = true -> exists c, b = (a ++ c)%list.
Proof.
  induction a as [|x a IH]; intros b H; [exists b; reflexivity|].
  destruct b as [|y b]; [discriminate H|].
  cbn [endsWith_rev] in H. apply andb_true_iff in H as [Hxy H].
  apply Ascii.eqb_eq in Hxy. subst y.
  destruct (IH _ H) as [c ->]. exists c. reflexivity.
Qed.

Lemma string_of_list_app (l1 l2 : list ascii) :
  string_of_list_ascii (l1 ++ l2)
  = string_of_list_ascii l1 ++ string_of_list_ascii l2.
Proof.
  induction l1 as [|a l1 IH]; [reflexivity|].
  cbn [app string_of_list_ascii]. rewrite str_app_cons, IH. reflexivity.
Qed.

Lemma endsWith_suffix f suffix :
  endsWith f suffix = true -> exists pre, f = pre ++ suffix.
Proof.
  unfold endsWith. intros H. apply endsWith_rev_prefix in H as [c H].
  apply (f_equal (@rev ascii)) in H. rewrite rev_involutive, rev_app_distr,
    rev_involutive in H.
  exists (string_of_list_ascii (rev c)).
  rewrite <- (string_of_list_ascii_of_string f), H, string_of_list_app,
    string_of_list_ascii_of_string. reflexivity.
Qed.

End RunnerFacts2.
Import RunnerFacts2.

(** ** Further facts: the patterns that read the error text, the test
    file and the advisory answer *)

Module ExtractFacts.

Lemma span_spec f : forall s u v,
  span f s = (u, v) ->
  s = u ++ v /\ all f u = true /\
  match v with "" => True | String c _ => f c = false end.
Proof.
  induction s as [|a s IH]; intros u v H.
  - injection H as <- <-. auto.
  - cbn [span] in H. destruct (f a) eqn:Ha.
    + destruct (span f s) as [u1 v1] eqn:E. injection H as <- <-.
      destruct (IH _ _ eq_refl) as (-> & Hu & Hv).
      rewrite str_app_cons. cbn [all]. rewrite Ha, Hu. auto.
    + injection H as <- <-. cbn [all]. rewrite Ha. auto.
Qed.

Lemma span_intro f u c v :
  all f u = true -> f c = false -> span f (u ++ String c v) = (u, String c v).
Proof.
  induction u as [|a u IH]; intros Hu Hc.
  - rewrite str_app_nil_l. cbn [span]. rewrite Hc. reflexivity.
  - cbn [all] in Hu. apply andb_true_iff in Hu as [Ha Hu].
    rewrite str_app_cons. cbn [span]. rewrite Ha, IH by assumption. reflexivity.
Qed.

Lemma nonEmpty_true s : nonEmpty s = true -> s <> "".
Proof. intros H ->. discriminate H. Qed.

Lemma nonEmpty_intro s : s <> "" -> nonEmpty s = true.
Proof. destruct s; [congruence|reflexivity]. Qed.

(** A result of [search] comes from a position of the text, and the
    pattern fails at every position before it. *)
Lemma search_Some {A} (p : string -> option A) : forall s x,
  search p s = Some x ->
  exists pre s', s = pre ++ s' /\ p s' = Some x /\
    forall u v, pre = u ++ v -> v <> "" -> p (v ++ s') = None.
Proof.
  induction s as [|a s IH]; intros x H.
  - cbn [search] in H. destruct (p "") eqn:E; [|discriminate].
    injection H as ->. exists "", "". repeat split; auto.
    intros u v Huv Hv. destruct u; destruct v; try discriminate; congruence.
  - cbn [search] in H. destruct (p (String a s)) as [y|] eqn:E.
    + injection H as ->. exists "", (String a s). repeat split; auto.
      intros u v Huv Hv. destruct u; destruct v; try discriminate; congruence.
    + destruct (IH _ H) as (pre & s' & -> & Hp & Hmin).
      exists (String a pre), s'. rewrite str_app_cons. repeat split; auto.
      intros u v Huv Hv. destruct u as [|b u].
      * rewrite str_app_nil_l in Huv. subst v. rewrite str_app_cons. exact E.
      * rewrite str_app_cons in Huv. injection Huv as <- Huv. eauto.
Qed.

Lemma search_here {A} (p : string -> option A) s x :
  p s = Some x -> search p s = Some x.
Proof. intros H. destruct s; cbn [search]; rewrite H; reflexivity. Qed.

Lemma search_found {A} (p : string -> option A) pre : forall s' x,
  p s' = Some x -> search p (pre ++ s') <> None.
Proof.
  induction pre as [|a pre IH]; intros s' x H.
  - rewrite str_app_nil_l. destruct s'; cbn [search]; rewrite H; discriminate.
  - rewrite str_app_cons. cbn [search].
    destruct (p (String a (pre ++ s'))); [discriminate|]. eauto.
Qed.

Lemma search_None {A} (p : string -> option A) pre : forall s',
  search p (pre ++ s') = None -> p s' = None.
Proof.
  intros s' H. destruct (p s') eqn:E; [|reflexivity].
  exfalso. eapply search_found; eauto.
Qed.

(** Positions that the pattern cannot start at are passed over. *)
Lemma search_skip {A} (p : string -> option A) u : forall s,
  (forall v w, u = v ++ w -> w <> "" -> p (w ++ s) = None) ->
  search p (u ++ s) = search p s.
Proof.
  induction u as [|a u IH]; intros s H; [reflexivity|].
  rewrite str_app_cons. cbn [search].
  rewrite <- str_app_cons, (H "" (String a u)) by (auto; discriminate).
  apply IH. intros v w -> Hw. apply (H (String a v) w); auto.
Qed.

Lemma quotedCall_Some prefix suffix s body :
  quotedCall prefix suffix s = Some body ->
  body <> "" /\ all notQuote1 body = true /\
  exists rest, s = prefix ++ body ++ suffix ++ rest.
Proof.
  unfold quotedCall.
  destruct (stripPrefix prefix s) as [s1|] eqn:E1; [|discriminate].
  destruct (span notQuote1 s1) as [b s2] eqn:E2.
  destruct (nonEmpty b) eqn:E3; [|discriminate].
  destruct (stripPrefix suffix s2) as [rest|] eqn:E4; [|discriminate].
  intros [= <-].
  apply stripPrefix_Some in E1, E4. apply span_spec in E2 as (-> & Hb & _).
  subst. split; [apply nonEmpty_true, E3|]. split; [exact Hb|]. eauto.
Qed.

Lemma quotedCall_intro prefix suffix body rest :
  body <> "" -> all notQuote1 body = true ->
  quotedCall prefix (String "'" suffix)
    (prefix ++ body ++ String "'" suffix ++ rest) = Some body.
Proof.
  intros Hne Hb. unfold quotedCall.
  rewrite stripPrefix_app, str_app_cons, span_intro by auto.
  rewrite (nonEmpty_intro _ Hne), <- str_app_cons, stripPrefix_app. reflexivity.
Qed.

Lemma quotedCall_head prefix suffix a s :
  (match prefix with String b _ => Ascii.eqb b a | "" => true end) = false ->
  quotedCall prefix suffix (String a s) = None.
Proof.
  unfold quotedCall. destruct prefix as [|b prefix]; [discriminate|].
  intros H. cbn [stripPrefix]. rewrite H. reflexivity.
Qed.

(** Whatever the first or the second alternative reads, the third one
    reads at the quote that follows. *)
Lemma quoted_after_call prefix s x :
  all notQuote1 prefix = true ->
  quotedCall (prefix ++ "'") "')" s = Some x ->
  search (quotedCall "'" "'") s = Some x.
Proof.
  intros Hp H. apply quotedCall_Some in H as (Hne & Hx & rest & ->).
  rewrite str_app_assoc.
  rewrite search_skip.
  - apply search_here.
    exact (quotedCall_intro "'" "" x (")" ++ rest) Hne Hx).
  - intros v w -> Hw. destruct w as [|a w]; [congruence|].
    rewrite str_app_cons. apply quotedCall_head.
    clear -Hp. induction v as [|b v IH].
    + cbn [all] in Hp. apply andb_true_iff in Hp as [Ha _].
      unfold notQuote1 in Ha. apply negb_true_iff in Ha.
      rewrite Ascii.eqb_sym. exact Ha.
    + cbn [all] in Hp. apply andb_true_iff in Hp as [_ Hp]. auto.
Qed.

Lemma selectorAt_quoted s x :
  selectorAt s = Some x -> search (quotedCall "'" "'") s = Some x.
Proof.
  unfold selectorAt.
  destruct (quotedCall "locator('" "')" s) as [y|] eqn:E1.
  { intros [= <-]. apply (quoted_after_call "locator(" s y); auto. }
  destruct (quotedCall "selector('" "')" s) as [y|] eqn:E2.
  { intros [= <-]. apply (quoted_after_call "selector(" s y); auto. }
  apply search_here.
Qed.

Lemma selectorAt_None s :
  selectorAt s = None -> quotedCall "'" "'" s = None.
Proof.
  unfold selectorAt.
  destruct (quotedCall "locator('" "')" s); [discriminate|].
  destruct (quotedCall "selector('" "')" s); [discriminate|]. auto.
Qed.

Lemma extractSelector_quoted : forall e,
  extractSelector e = search (quotedCall "'" "'") e.
Proof.
  unfold extractSelector. induction e as [|a e IH].
  - reflexivity.
  - destruct (selectorAt (String a e)) as [x|] eqn:E.
    + rewrite (selectorAt_quoted _ _ E). cbn [search]. rewrite E. reflexivity.
    + cbn [search]. rewrite E, (selectorAt_None _ E). exact IH.
Qed.

Lemma gotoAt_Some s url :
  gotoAt s = Some url ->
  url <> "" /\ all notQuote2 url = true /\
  exists q1 q2 rest,
    isQuote2 q1 = true /\ isQuote2 q2 = true /\
    s = "page.goto(" ++ String q1 (url ++ String q2 (String ")" rest)).
Proof.
  unfold gotoAt.
  destruct (stripPrefix "page.goto(" s) as [[|q s1]|] eqn:E1; try discriminate.
  destruct (isQuote2 q) eqn:Hq; [|discriminate].
  destruct (span notQuote2 s1) as [body s2] eqn:E2.
  destruct (nonEmpty body) eqn:E3; [|discriminate].
  destruct s2 as [|q2 [|c rest]]; try discriminate.
  destruct (Ascii.eqb c ")") eqn:Hc.
  2:{ destruct c as [[] [] [] [] [] [] [] []]; try discriminate Hc; discriminate. }
  apply Ascii.eqb_eq in Hc. subst c. intros [= <-].
  apply stripPrefix_Some in E1. apply span_spec in E2 as (-> & Hb & Hq2).
  split; [apply nonEmpty_true, E3|]. split; [exact Hb|].
  exists q, q2, rest. split; [exact Hq|]. split; [|exact E1].
  unfold notQuote2 in Hq2. apply negb_false_iff in Hq2. exact Hq2.
Qed.

Lemma importAt_Some s cls modulePath :
  importAt s = Some (cls, modulePath) ->
  cls <> "" /\ all isWord cls = true /\
  modulePath <> "" /\ all notQuote2 modulePath = true /\
  exists ws1 ws2 ws3 ws4 ws5 q1 q2 rest,
    ws1 <> "" /\ ws4 <> "" /\ ws5 <> "" /\
    all isSpace (ws1 ++ ws2 ++ ws3 ++ ws4 ++ ws5) = true /\
    isQuote2 q1 = true /\ isQuote2 q2 = true /\
    s = "import" ++ ws1 ++ "{" ++ ws2 ++ cls ++ ws3 ++ "}" ++ ws4 ++ "from"
        ++ ws5 ++ String q1 (modulePath ++ String q2 rest).
Proof.
  unfold importAt.
  destruct (stripPrefix "import" s) as [s1|] eqn:E1; [|discriminate].
  destruct (span isSpace s1) as [ws1 s2] eqn:E2.
  destruct (nonEmpty ws1) eqn:N1; [|discriminate].
  destruct s2 as [|b s3]; [discriminate|].
  destruct (Ascii.eqb b "{") eqn:Hb.
  2:{ destruct b as [[] [] [] [] [] [] [] []]; try discriminate Hb; discriminate. }
  apply Ascii.eqb_eq in Hb. subst b.
  destruct (span isSpace s3) as [ws2 s4] eqn:E3.
  destruct (span isWord s4) as [c s5] eqn:E4.
  destruct (span isSpace s5) as [ws3 s6] eqn:E5.
  destruct (nonEmpty c) eqn:N2; [|discriminate].
  destruct s6 as [|b s7]; [discriminate|].
  destruct (Ascii.eqb b "}") eqn:Hb.
  2:{ destruct b as [[] [] [] [] [] [] [] []]; try discriminate Hb; discriminate. }
  apply Ascii.eqb_eq in Hb. subst b.
  destruct (span isSpace s7) as [ws4 s8] eqn:E6.
  destruct (nonEmpty ws4) eqn:N3; [|discriminate].
  destruct (stripPrefix "from" s8) as [s9|] eqn:E7; [|discriminate].
  destruct (span isSpace s9) as [ws5 s10] eqn:E8.
  destruct (nonEmpty ws5) eqn:N4; [|discriminate].
  destruct s10 as [|q s11]; [discriminate|].
  destruct (isQuote2 q) eqn:Hq; [|discriminate].
  destruct (span notQuote2 s11) as [m s12] eqn:E9.
  destruct (nonEmpty m) eqn:N5; [|discriminate].
  destruct s12 as [|q2 rest]; [discriminate|].
  intros [= <- <-].
  apply stripPrefix_Some in E1, E7.
  apply span_spec in E2 as (-> & H1 & _), E3 as (-> & H2 & _), E4 as (-> & H3 & _),
    E5 as (-> & H4 & _), E6 as (-> & H5 & _), E8 as (-> & H6 & _),
    E9 as (-> & H7 & Hq2).
  subst s8.
  split; [apply nonEmpty_true, N2|]. split; [exact H3|].
  split; [apply nonEmpty_true, N5|]. split; [exact H7|].
  exists ws1, ws2, ws3, ws4, ws5, q, q2, rest.
  split; [apply nonEmpty_true, N1|]. split; [apply nonEmpty_true, N3|].
  split; [apply nonEmpty_true, N4|].
  split.
  { clear -H1 H2 H4 H5 H6.
    assert (Happ : forall u v, all isSpace u = true -> all isSpace v = true ->
                               all isSpace (u ++ v) = true).
    { induction u as [|a u IH]; intros v Hu Hv; [exact Hv|].
      cbn [all] in Hu. apply andb_true_iff in Hu as [Ha Hu].
      rewrite str_app_cons. cbn [all]. rewrite Ha, IH; auto. }
    auto. }
  split; [exact Hq|].
  split. { unfold notQuote2 in Hq2. apply negb_false_iff in Hq2. exact Hq2. }
  rewrite E1. repeat (rewrite ?str_app_assoc, ?str_app_cons, ?str_app_nil_l).
  reflexivity.
Qed.

End ExtractFacts.
Import ExtractFacts.

(** ** Further facts: the code fences of an answer *)

Module FenceFacts.

Lemma literalOptNewline_cases lit s :
  literalOptNewline lit s
  = match stripPrefix lit s with
    | Some (String c _) =>
        if Ascii.eqb c "010" then Some (S (String.length lit), [])
        else Some (String.length lit, [])
    | Some "" => Some (String.length lit, [])
    | None => None
    end.
Proof.
  unfold literalOptNewline.
  destruct (stripPrefix lit s) as [[|c r]|]; try reflexivity.
  destruct c as [[] [] [] [] [] [] [] []]; reflexivity.
Qed.

Lemma fence_head lit s :
  isSome (literalOptNewline lit s) = startsWith s lit.
Proof.
  rewrite literalOptNewline_cases. unfold startsWith.
  destruct (stripPrefix lit s) as [[|c r]|]; try reflexivity.
  destruct (Ascii.eqb c "010"); reflexivity.
Qed.

(** A global replacement by the empty string passes over each match. *)
Lemma erase_hit p b s n caps :
  p s = Some (S n, caps) -> S n <= String.length s ->
  replaceFrom p "" b 0 s = replaceFrom p "" (b ++ take (S n) s) 0 (drop (S n) s).
Proof.
  intros H Hn. destruct s as [|a t]; [simpl in Hn; lia|].
  cbn [replaceFrom]. rewrite H. cbn [getSubstitution].
  rewrite str_app_nil_l.
  rewrite <- (take_drop n t) at 1.
  replace n with (String.length (take n t)) at 1.
  2:{ clear -Hn. cbn [String.length] in Hn. assert (Hn' : n <= String.length t) by lia.
      clear Hn. revert t Hn'. induction n as [|n IH]; intros [|c t] H; simpl in *; try lia.
      f_equal. apply IH. lia. }
  rewrite replaceFrom_skip. cbn [take drop].
  rewrite str_app_assoc. reflexivity.
Qed.

Lemma erase_miss p b a t :
  p (String a t) = None ->
  replaceFrom p "" b 0 (String a t)
  = String a (replaceFrom p "" (b ++ String a "") 0 t).
Proof. intros H. cbn [replaceFrom]. rewrite H. reflexivity. Qed.

Lemma drop_length n : forall s,
  n <= String.length s -> String.length (drop n s) + n = String.length s.
Proof.
  induction n as [|n IH]; intros [|a s] H; simpl in *; try lia.
  specialize (IH s ltac:(lia)). lia.
Qed.

Lemma literal_match_length lit s n caps :
  literalOptNewline lit s = Some (n, caps) ->
  String.length lit <= n <= String.length s.
Proof.
  rewrite literalOptNewline_cases.
  destruct (stripPrefix lit s) as [r|] eqn:E; [|discriminate].
  apply stripPrefix_Some in E. subst s. rewrite str_length_app.
  destruct r as [|c r]; [intros [= <- _]; simpl; lia|].
  destruct (Ascii.eqb c "010"); intros [= <- _]; simpl; lia.
Qed.

Lemma startsWith_cons a s b p :
  startsWith (String a s) (String b p) = Ascii.eqb b a && startsWith s p.
Proof.
  unfold startsWith. cbn [stripPrefix]. destruct (Ascii.eqb b a); reflexivity.
Qed.

Local Abbreviation fence := (literalOptNewline "```").

(** After the second replacement no run of three backquotes is left:
    what is kept between two matches cannot end and start with
    backquotes that add up to three. *)
Lemma erase_fences_clean : forall n s b,
  String.length s <= n ->
  let out := replaceFrom fence "" b 0 s in
  test fence out = false /\
  (startsWith s "`" = false -> startsWith out "`" = false) /\
  (startsWith s "``" = false -> startsWith out "``" = false).
Proof.
  induction n as [|n IH]; intros s b Hn.
  - destruct s; [|simpl in Hn; lia]. cbv zeta. repeat split; reflexivity.
  - destruct s as [|a t]; [cbv zeta; repeat split; reflexivity|].
    cbn [String.length] in Hn.
    destruct (fence (String a t)) as [[k caps]|] eqn:E.
    + pose proof (literal_match_length _ _ _ _ E) as Hk.
      cbn [String.length] in Hk.
      destruct k as [|k]; [lia|].
      cbv zeta. rewrite (erase_hit _ _ _ _ _ E) by (cbn [String.length]; lia).
      pose proof (drop_length (S k) (String a t) ltac:(cbn [String.length]; lia)) as Hd.
      cbn [String.length] in Hd.
      destruct (IH (drop (S k) (String a t)) (b ++ take (S k) (String a t))
                  ltac:(lia)) as (H1 & _ & _).
      split; [exact H1|].
      assert (Hs : startsWith (String a t) "```" = true).
      { rewrite <- fence_head, E. reflexivity. }
      rewrite startsWith_cons in Hs. apply andb_true_iff in Hs as [Ha Hs].
      split; intros Hc; rewrite startsWith_cons, Ha in Hc.
      * discriminate Hc.
      * cbn [andb] in Hc. destruct t as [|c t]; [discriminate Hs|].
        rewrite startsWith_cons in Hs, Hc. apply andb_true_iff in Hs as [Hs _].
        rewrite Hs in Hc. discriminate Hc.
    + cbv zeta. rewrite (erase_miss _ _ _ _ E).
      destruct (IH t (b ++ String a "") ltac:(lia)) as (H1 & H2 & H3).
      assert (Hs : startsWith (String a t) "```" = false).
      { rewrite <- fence_head, E. reflexivity. }
      rewrite startsWith_cons in Hs.
      split; [|split].
      * cbn [test]. rewrite H1, orb_false_r, fence_head, startsWith_cons.
        destruct (Ascii.eqb "`" a); [|reflexivity].
        cbn [andb] in *. auto.
      * rewrite !startsWith_cons. intros Ha.
        apply andb_false_iff in Ha as [Ha|Ha]; [rewrite Ha; reflexivity|discriminate Ha].
      * rewrite !startsWith_cons. intros Ha.
        destruct (Ascii.eqb "`" a); [|reflexivity].
        cbn [andb] in *. auto.
Qed.

Lemma rev_app_app : forall s1 s2 s3,
  String.rev_app s1 (s2 ++ s3) = String.rev_app s1 s2 ++ s3.
Proof.
  induction s1 as [|a s1 IH]; intros s2 s3; [reflexivity|].
  cbn [String.rev_app]. rewrite <- IH, str_app_cons. reflexivity.
Qed.

Lemma rev_cons a s : String.rev (String a s) = String.rev s ++ String a "".
Proof.
  unfold String.rev. cbn [String.rev_app].
  rewrite <- rev_app_app. reflexivity.
Qed.

Lemma rev_app u : forall v, String.rev (u ++ v) = String.rev v ++ String.rev u.
Proof.
  induction u as [|a u IH]; intros v.
  - rewrite str_app_nil_l. change (String.rev "") with "". rewrite str_app_nil_r.
    reflexivity.
  - rewrite str_app_cons, !rev_cons, IH, str_app_assoc. reflexivity.
Qed.

Lemma rev_rev : forall s, String.rev (String.rev s) = s.
Proof.
  induction s as [|a s IH]; [reflexivity|].
  rewrite rev_cons, rev_app, IH. reflexivity.
Qed.

Lemma test_true_split p : forall s,
  test p s = true -> exists pre s', s = pre ++ s' /\ isSome (p s') = true.
Proof.
  induction s as [|a s IH]; intros H.
  - exists "", "". auto.
  - cbn [test] in H. apply orb_true_iff in H as [H|H].
    + exists "", (String a s). auto.
    + destruct (IH H) as (pre & s' & -> & Hp). exists (String a pre), s'.
      rewrite str_app_cons. auto.
Qed.

Lemma fence_split s :
  test fence s = true <-> exists pre post, s = pre ++ "```" ++ post.
Proof.
  split.
  - intros H. apply test_true_split in H as (pre & s' & -> & H).
    rewrite fence_head in H. unfold startsWith in H.
    destruct (stripPrefix "```" s') as [post|] eqn:E; [|discriminate].
    apply stripPrefix_Some in E. subst s'. eauto.
  - intros (pre & post & ->). apply test_app, test_here.
    rewrite fence_head. unfold startsWith. rewrite stripPrefix_app. reflexivity.
Qed.

Lemma fence_rev s : test fence s = false -> test fence (String.rev s) = false.
Proof.
  intros H. destruct (test fence (String.rev s)) eqn:E; [|reflexivity].
  apply fence_split in E as (pre & post & E).
  apply (f_equal String.rev) in E. rewrite rev_rev, !rev_app in E.
  change (String.rev "```") with "```" in E.
  assert (Ht : test fence s = true).
  { apply fence_split. exists (String.rev post), (String.rev pre).
    rewrite E, str_app_assoc. reflexivity. }
  congruence.
Qed.

Lemma fence_trimStart s : test fence s = false -> test fence (trimStart s) = false.
Proof.
  unfold trimStart. destruct (span isSpace s) as [u v] eqn:E.
  apply span_spec in E as (-> & _). cbn [snd]. apply test_false_app.
Qed.

Lemma fence_trim s : test fence s = false -> test fence (trim s) = false.
Proof.
  intros H. unfold trim.
  apply fence_rev, fence_trimStart, fence_rev, fence_trimStart, H.
Qed.

(** A text without backquote is left as it is by the two replacements. *)
Lemma erase_nothing lit : forall s b,
  startsWith lit "`" = true ->
  all (fun c => negb (Ascii.eqb c "`")) s = true ->
  replaceFrom (literalOptNewline lit) "" b 0 s = s.
Proof.
  intros s b Hl. revert b. induction s as [|a s IH]; intros b H.
  - cbn [replaceFrom]. rewrite literalOptNewline_cases.
    destruct lit as [|c lit]; [discriminate Hl|]. reflexivity.
  - cbn [all] in H. apply andb_true_iff in H as [Ha Hs].
    assert (E : literalOptNewline lit (String a s) = None).
    { destruct (literalOptNewline lit (String a s)) eqn:E; [|reflexivity].
      assert (Hh : isSome (literalOptNewline lit (String a s)) = true)
        by (rewrite E; reflexivity).
      rewrite fence_head in Hh. destruct lit as [|c lit]; [discriminate Hl|].
      rewrite startsWith_cons in Hh, Hl.
      apply andb_true_iff in Hh as [Hh _], Hl as [Hl _].
      apply Ascii.eqb_eq in Hh, Hl. subst. rewrite Ascii.eqb_refl in Ha. discriminate. }
    rewrite (erase_miss _ _ _ _ E), IH by assumption. reflexivity.
Qed.

End FenceFacts.
Import FenceFacts.

(** ** Further facts: the correction pass *)

Module LoopFacts2.

Lemma take_length n : forall s, String.length (take n s) <= n.
Proof.
  induction n as [|n IH]; intros [|a s]; simpl; try lia.
  specialize (IH s). lia.
Qed.

Lemma logs_log_or_write l : forallb isLogEv l = true -> forallb isLogOrWrite l = true.
Proof.
  induction l as [|e l IH]; [reflexivity|]. cbn [forallb]. intros H.
  apply andb_true_iff in H as [He Hl]. unfold isLogOrWrite at 1.
  rewrite He, (IH Hl). reflexivity.
Qed.

Lemma correctionAttempt_shape w dir ft cs st :
  post (correctionAttempt w dir ft cs) st (fun _ st' =>
    exists new, trace st' = (trace st ++ new)%list /\ attemptShape new).
Proof.
  assert (Hlog : forall (st0 : state) pre l,
    trace st0 = (trace st ++ pre)%list -> attemptShape (pre ++ [EvLog l]) ->
    post (run log l; ret cs)%eff st0 (fun _ st' =>
      exists new, trace st' = (trace st ++ new)%list /\ attemptShape new)).
  { intros st0 pre l Ht Hs. msteps. exists (pre ++ [EvLog l])%list.
    rewrite Ht, <- app_assoc. auto. }
  assert (H0 : forall l, attemptShape ([] ++ [EvLog l])) by (intros l; left; reflexivity).
  assert (Hnil : trace st = (trace st ++ [])%list) by (rewrite app_nil_r; reflexivity).
  unfold correctionAttempt. msteps.
  destruct (ft_error ft) as [| | | |errorText| |]; cbv iota;
    try (apply (Hlog st [] LogAttemptError Hnil (H0 _))).
  destruct (extractSelector errorText) as [failedSelector|];
    [|apply (Hlog st [] _ Hnil (H0 _))].
  msteps.
  destruct (ft_file ft) as [| | | |fileS| |]; cbv iota;
    try (apply (Hlog st [] LogAttemptError Hnil (H0 _))).
  msteps.
  destruct (fs st !! path_join w [dir; fileS]) as [pageContent|]; cbv iota;
    [|apply (Hlog st [] LogAttemptError Hnil (H0 _))].
  destruct (extractPageUrl pageContent) as [pageUrl|];
    [|apply (Hlog st [] _ Hnil (H0 _))].
  msteps.
  assert (H1 : forall l, attemptShape ([EvFetch pageUrl] ++ [EvLog l])).
  { intros l. right. left. exists pageUrl, [EvLog l]. auto. }
  destruct (httpGet w (trace st) pageUrl) as [pageHtml|];
    [|cbn [truthy negb]; eapply Hlog; [reflexivity|apply H1]].
  destruct (truthy pageHtml); cbn [negb];
    [|eapply Hlog; [reflexivity|apply H1]].
  msteps.
  destruct pageHtml as [| | | |html| |]; cbv iota;
    try (eapply Hlog; [reflexivity|apply H1]).
  msteps.
  set (htmlPrefix := take 5000 html).
  assert (H2 : forall rest, forallb isLogOrWrite rest = true ->
            attemptShape ([EvFetch pageUrl; EvAdvise failedSelector htmlPrefix] ++ rest)).
  { intros rest Hr. right. right. exists pageUrl, failedSelector, html, rest. auto. }
  assert (Hlog2 : forall (fs0 : gmap string string) l,
    post (run log l; ret cs)%eff
      (State fs0 ((trace st ++ [EvFetch pageUrl])
                    ++ [EvAdvise failedSelector htmlPrefix]))
      (fun _ st' =>
         exists new, trace st' = (trace st ++ new)%list /\ attemptShape new)).
  { intros fs0 l.
    apply (Hlog _ [EvFetch pageUrl; EvAdvise failedSelector htmlPrefix]).
    - cbn [trace]. rewrite <- app_assoc. reflexivity.
    - apply (H2 [EvLog l]). reflexivity. }
  destruct (advise w (trace st ++ [EvFetch pageUrl]) failedSelector htmlPrefix)
    as [text|]; [|apply post_throw; cbv beta iota; apply Hlog2].
  destruct (JSON_parse w (stripFences text)) as [suggestion|];
    [|apply post_throw; cbv beta iota; apply Hlog2].
  msteps.
  destruct (getProp suggestion "confidence") as [confidence|]; cbv iota;
    [|apply Hlog2].
  destruct (strictEqStr confidence "high" || strictEqStr confidence "medium");
    [|apply Hlog2].
  msteps.
  eapply post_conseq; [apply updatePageObjectSelector_spec|].
  cbn [fs trace].
  intros r st' [(-> & _ & logs & Htr & Hlogs)|(-> & H)]; msteps.
  - exists ([EvFetch pageUrl; EvAdvise failedSelector htmlPrefix] ++ logs)%list.
    rewrite Htr, <- !app_assoc. split; [reflexivity|].
    apply H2, logs_log_or_write, Hlogs.
  - destruct H as (tf & tc & cls & mp & orig & before & _ & _ & _ & _ & _ & _ & _ & Htr).
    eexists. rewrite Htr, <- !app_assoc. split; [reflexivity|].
    apply (H2 [_]). reflexivity.
Qed.

Lemma attemptShape_bounded new : attemptShape new -> Forall boundedAdvice new.
Proof.
  assert (Hlw : forall l, forallb isLogOrWrite l = true -> Forall boundedAdvice l).
  { induction l as [|e l IH]; [constructor|]. cbn [forallb]. intros H.
    apply andb_true_iff in H as [He Hl]. constructor; [|auto].
    destruct e; try discriminate He; exact I. }
  intros [H|[(url & logs & -> & H)|(url & sel & html & rest & -> & H)]].
  - apply Hlw, logs_log_or_write, H.
  - constructor; [exact I|]. apply Hlw, logs_log_or_write, H.
  - constructor; [exact I|]. constructor; [apply take_length|]. apply Hlw, H.
Qed.

Lemma attemptShape_counts new :
  attemptShape new ->
  countEv isAdviseEv new <= 1 /\ countEv isFetchEv new <= 1.
Proof.
  assert (Hlw : forall l, forallb isLogOrWrite l = true ->
            countEv isAdviseEv l = 0 /\ countEv isFetchEv l = 0).
  { induction l as [|e l IH]; [auto|]. cbn [forallb]. intros H.
    apply andb_true_iff in H as [He Hl]. destruct (IH Hl) as [I1 I2].
    unfold countEv in *. destruct e; try discriminate He; cbn; auto. }
  intros [H|[(url & logs & -> & H)|(url & sel & html & rest & -> & H)]].
  - destruct (Hlw _ (logs_log_or_write _ H)) as [-> ->]. lia.
  - destruct (Hlw _ (logs_log_or_write _ H)) as [H1 H2].
    unfold countEv in *. cbn. rewrite H1, H2. lia.
  - destruct (Hlw _ H) as [H1 H2]. unfold countEv in *. cbn. rewrite H1, H2. lia.
Qed.

(** The loop: every request for advice is bounded, and there are no more
    requests and no more fetches than failed tests. *)
Lemma correctLoop_advice w dir fts : forall cs st,
  post (correctLoop w dir fts cs) st (fun _ st' =>
    exists new,
      trace st' = (trace st ++ new)%list /\
      Forall boundedAdvice new /\
      countEv isAdviseEv new <= List.length fts /\
      countEv isFetchEv new <= List.length fts).
Proof.
  induction fts as [|ft fts IH]; intros cs st; cbn [correctLoop]; msteps.
  - exists []. rewrite app_nil_r. repeat split; auto.
  - pose proof (correctionAttempt_shape w dir ft cs st) as Hs.
    pose proof (correctionAttempt_spec w dir ft cs st) as Hok.
    unfold post in Hs, Hok |- *.
    destruct (correctionAttempt w dir ft cs st) as [r st1]. cbn [fst snd] in *.
    destruct Hs as (new1 & Ht1 & Hshape).
    assert (exists cs1, r = Ok cs1) as [cs1 ->].
    { destruct Hok as (? & _ & _ & [(-> & _)|(? & ? & ? & ? & ? & ? & ? & _ & _ & _ & _ & _ & -> & _)]);
        eauto. }
    specialize (IH cs1 st1). unfold post in IH.
    destruct (correctLoop w dir fts cs1 st1) as [r2 st2]. cbn [fst snd] in *.
    destruct IH as (new2 & Ht2 & Hb2 & Ha2 & Hf2).
    exists (new1 ++ new2)%list. rewrite Ht2, Ht1, <- app_assoc.
    split; [reflexivity|].
    split; [apply Forall_app; split; [apply attemptShape_bounded, Hshape|exact Hb2]|].
    destruct (attemptShape_counts _ Hshape) as [Ha1 Hf1].
    rewrite !countEv_app. cbn [List.length]. lia.
Qed.

(** The corrections that the loop adds come from the failed tests, in
    their order, one at most for each of them. *)
Lemma correctLoop_origin w dir fts : forall cs st,
  exists added st',
    correctLoop w dir fts cs st = (Ok (cs ++ added)%list, st') /\
    sublist (map correctionOrigin added) (map failedTestOrigin fts).
Proof.
  induction fts as [|ft fts IH]; intros cs st.
  - exists [], st. cbn [correctLoop]. rewrite app_nil_r. split; [reflexivity|constructor].
  - pose proof (correctionAttempt_spec w dir ft cs st) as H.
    unfold post in H. cbn [correctLoop]. unfold bind.
    destruct (correctionAttempt w dir ft cs st) as [r st1]. cbn [fst snd] in H.
    destruct H as (new & _ & _ & H).
    destruct H as [(-> & _)|(url & sel & hp & text & sg & path & after &
                             _ & _ & _ & _ & _ & -> & _)].
    + destruct (IH cs st1) as (added & st' & E & Hsub).
      exists added, st'. split; [exact E|]. cbn [map]. apply sublist_cons, Hsub.
    + destruct (IH (cs ++ [appliedCorrection ft sg])%list st1) as (added & st' & E & Hsub).
      exists (appliedCorrection ft sg :: added), st'.
      split; [rewrite E, <- app_assoc; reflexivity|].
      cbn [map]. apply sublist_skip, Hsub.
Qed.

End LoopFacts2.
Import LoopFacts2.

(** ** Further facts: the controller *)

Module ControllerFacts2.

(** The controller, from the banner to its result. *)
Lemma triggerAgent3_cases w issueKey prUrl (st : state) :
  let start := (trace st ++ [EvLog (LogAgentBanner 3)])%list in
  match cloneRepo w start (fs st) with
  | None =>
      triggerAgent3 w issueKey prUrl st
      = (Throw (ExternalError "git"),
         State (fs st) (start ++ [EvPrepareRepo; EvJira issueKey Agent3Failed]))
  | Some f1 =>
      exists tr stR repair,
        runAndRepair w (TestResults 0 0 0 [] (now w start) None None)
          (State f1 (start ++ [EvPrepareRepo])) = (Ok tr, stR) /\
        trace stR = (start ++ EvPrepareRepo :: repair)%list /\
        forallb isRunOrRepairEv repair = true /\
        triggerAgent3 w issueKey prUrl st
        = match publishAndReport w issueKey prUrl tr stR with
          | (Ok tr', st') => (Ok tr', st')
          | (Throw e, st') =>
              (Throw e, State (fs st') (trace st' ++ [EvJira issueKey Agent3Failed]))
          end
  end.
Proof.
  intros start.
  destruct (cloneRepo w start (fs st)) as [f1|] eqn:Hc.
  - destruct (runAndRepair_spec w (TestResults 0 0 0 [] (now w start) None None)
                (State f1 (start ++ [EvPrepareRepo])) eq_refl)
      as (r0 & st1 & cs & repair & rerun & tr & stR & _ & _ & E & _ & _ & _ &
          Ht & Hrep & _ & Hrerun).
    cbn [trace] in Ht.
    exists tr, stR, (EvRunTests true :: repair ++ rerun)%list.
    split; [exact E|]. split; [rewrite Ht, <- app_assoc; reflexivity|].
    split.
    { assert (Hr : forall l, forallb isRepairEv l = true ->
                             forallb isRunOrRepairEv l = true).
      { induction l as [|e l IH]; [reflexivity|]. cbn [forallb]. intros H.
        apply andb_true_iff in H as [He Hl]. unfold isRunOrRepairEv at 1.
        rewrite He, (IH Hl), orb_true_r. reflexivity. }
      cbn [forallb]. rewrite !forallb_app, (Hr _ Hrep).
      destruct Hrerun as [(_ & -> & _)|(_ & logs & -> & Hl)]; [reflexivity|].
      cbn [forallb]. rewrite (Hr _ (logs_are_repair _ Hl)). reflexivity. }
    rewrite (triggerAgent3_unfold w issueKey prUrl st f1 tr stR Hc E).
    destruct (publishAndReport w issueKey prUrl tr stR) as [[tr'|e] st'] eqn:Ep.
    + rewrite (tryCatch_ok _ _ _ _ _ Ep). reflexivity.
    + rewrite (tryCatch_throw _ _ _ _ _ Ep). cbv beta.
      pose proof (agent3_handler_spec w issueKey e st') as H.
      unfold post in H. cbv beta in H.
      match goal with |- ?X = _ => destruct X as [r st''] end.
      cbn [fst snd] in H. destruct H as (-> & Hf & Ht'). destruct st''. cbn in *.
      subst. reflexivity.
  - unfold triggerAgent3.
    rewrite (bind_ok _ _ st tt (State (fs st) start)) by reflexivity.
    rewrite (bind_ok _ _ _ (now w start) (State (fs st) start)) by reflexivity.
    unfold tryCatch at 1.
    assert (Hp : prepareTestRepo w (State (fs st) start)
                 = (Throw (ExternalError "git"), State (fs st) (start ++ [EvPrepareRepo]))).
    { unfold prepareTestRepo, bind, history, files, emit, setFiles, throw.
      cbn [fs trace]. rewrite Hc. reflexivity. }
    rewrite (bind_throw _ _ _ _ _ Hp).
    pose proof (agent3_handler_spec w issueKey (ExternalError "git")
                  (State (fs st) (start ++ [EvPrepareRepo]))) as H.
    unfold post in H. cbv beta in H.
    match goal with |- ?X = _ => destruct X as [r st''] end.
    cbn [fst snd fs trace] in H. destruct H as (-> & Hf & Ht'). destruct st''. cbn in *.
    subst. rewrite <- app_assoc. reflexivity.
Qed.

(** Steps 5 and 6 spelled out: the calls they make, and the record they
    return when every call is accepted. *)
Lemma publishAndReport_cases w issueKey prUrl tr (st : state) :
  let tr3 := withEndTime tr (now w (trace st)) in
  let cs := correctedSelectors tr in
  let git := publishEvents cs in
  let tr4 := match cs with
             | [] => tr3
             | _ :: _ => withCorrectionPrUrl tr3
                           (createPR w (trace st ++ [EvCommit; EvPush])%list)
             end in
  exists r st',
    publishAndReport w issueKey prUrl tr st = (r, st') /\
    fs st' = fs st /\
    ((r = Ok tr4 /\
      trace st' = (trace st ++ git ++ [EvJira issueKey (Agent3Results tr4 prUrl)])%list)
     \/
     (exists e tail, r = Throw e /\ trace st' = (trace st ++ tail)%list /\
        (e = ExternalError "git" \/ e = ExternalError "jira") /\
        forallb isReportEv tail = true)).
Proof.
  intros tr3 cs git tr4.
  unfold publishAndReport, clock, commitCorrections, pushCorrections,
    createCorrectionPR, updateJiraWithResults, updateJiraCard, call, bind, ret,
    history, emit.
  cbn [fs trace correctedSelectors withEndTime]. fold cs.
  subst git tr4. destruct cs as [|c0 cs']; cbn [List.length Nat.ltb Nat.leb publishEvents].
  - fold tr3. destruct (jiraOk w (trace st)); eexists _, _;
      (split; [reflexivity|]); (split; [reflexivity|]).
    + left. rewrite app_nil_l. auto.
    + right. eexists _, [_]. repeat split; auto.
  - cbn [fs trace]. fold tr3.
    destruct (gitCommitOk w (trace st)); cbn [fs trace].
    2:{ eexists _, _. split; [reflexivity|]. split; [reflexivity|].
        right. eexists _, [_]. repeat split; auto. }
    destruct (gitConfigOk w (trace st ++ [EvCommit])); cbn [fs trace].
    2:{ eexists _, _. split; [reflexivity|]. split; [reflexivity|].
        right. eexists _, [_; _]. rewrite <- app_assoc. repeat split; auto. }
    rewrite <- !app_assoc. cbn [app].
    destruct (jiraOk w (trace st ++ [EvCommit; EvPush; EvCreatePR])); cbn [fs trace];
      eexists _, _; (split; [reflexivity|]); (split; [reflexivity|]).
    + left. rewrite <- ?app_assoc. cbn [app]. auto.
    + right. eexists _, [_; _; _; _]. rewrite <- ?app_assoc. cbn [app].
      repeat split; auto.
Qed.

End ControllerFacts2.
Import ControllerFacts2.

(** ** Further facts: the workflow of the server *)

Module WorkflowFacts.

Lemma forallb_weaken {A} (f g : A -> bool) l :
  (forall x, f x = true -> g x = true) -> forallb f l = true -> forallb g l = true.
Proof.
  intros Hfg. induction l as [|x l IH]; [reflexivity|]. cbn [forallb]. intros H.
  apply andb_true_iff in H as [Hx Hl]. rewrite (Hfg _ Hx), (IH Hl). reflexivity.
Qed.

Lemma countEv_excluded f g l :
  (forall x, g x = true -> f x = false) -> forallb g l = true -> countEv f l = 0.
Proof.
  intros Hfg. induction l as [|x l IH]; [reflexivity|]. cbn [forallb]. intros H.
  apply andb_true_iff in H as [Hx Hl]. unfold countEv in *. cbn [List.filter].
  rewrite (Hfg _ Hx). auto.
Qed.

(** Every execution of Agent 3 logs its banner, asks for its checkout,
    and then only runs tests, repairs and reports. *)
Lemma triggerAgent3_events w issueKey prUrl st :
  exists r st' new,
    triggerAgent3 w issueKey prUrl st = (r, st') /\
    trace st' = (trace st ++ EvLog (LogAgentBanner 3) :: EvPrepareRepo :: new)%list /\
    forallb isAgent3Ev new = true.
Proof.
  pose proof (triggerAgent3_cases w issueKey prUrl st) as H. cbv zeta in H.
  destruct (cloneRepo w _ (fs st)) as [f1|].
  - destruct H as (tr & stR & repair & _ & HtR & Hrep & E).
    destruct (publishAndReport_cases w issueKey prUrl tr stR)
      as (r & st' & Ep & _ & Hp).
    cbv zeta in Hp. rewrite Ep in E.
    assert (Hrep' : forallb isAgent3Ev repair = true).
    { revert Hrep. apply forallb_weaken. unfold isAgent3Ev. intros x ->. reflexivity. }
    assert (Hrp : forall l, forallb isReportEv l = true -> forallb isAgent3Ev l = true).
    { intros l. apply forallb_weaken. unfold isAgent3Ev. intros x ->.
      rewrite orb_true_r. reflexivity. }
    destruct Hp as [(-> & Ht)|(e & tail & -> & Ht & _ & Htail)].
    + eexists _, _, _. split; [exact E|].
      rewrite Ht, HtR. repeat (rewrite <- ?app_assoc; cbn [app]).
      split; [reflexivity|].
      rewrite !forallb_app, Hrep'. cbn [andb].
      rewrite Hrp; [reflexivity|]. destruct (correctedSelectors tr); reflexivity.
    + eexists _, _, _. split; [exact E|]. cbn [trace].
      rewrite Ht, HtR. repeat (rewrite <- ?app_assoc; cbn [app]).
      split; [reflexivity|].
      rewrite !forallb_app, Hrep', (Hrp _ Htail). reflexivity.
  - eexists _, _, _. split; [exact H|]. cbn [trace].
    repeat (rewrite <- ?app_assoc; cbn [app]). split; reflexivity.
Qed.

(** Agent 2: the banner, the request for a script, and then either the
    publication and the comment of completion, or a comment of failure
    that ends the trace. *)
Lemma triggerAgent2_spec w i st :
  exists r st' new,
    triggerAgent2 w i st = (r, st') /\
    fs st' = fs st /\
    trace st' = (trace st ++ EvLog (LogAgentBanner 2) :: EvGenerateScript :: new)%list /\
    forallb isReportEv
      (List.filter (fun e => negb (match e with EvPublish => true | _ => false end)) new)
    = true /\
    match r with
    | Ok _ => new = [EvPublish; EvJira (key i) Agent2Completed]
    | Throw _ => exists pre, new = (pre ++ [EvJira (key i) Agent2Failed])%list
    end.
Proof.
  unfold triggerAgent2, updateJiraCard, call, log, emit, bind, tryCatch, ret, throw.
  cbn [fs trace].
  repeat (match goal with
          | |- context [scriptOk w ?h] => destruct (scriptOk w h)
          | |- context [publishOk w ?h] => destruct (publishOk w h)
          | |- context [jiraOk w ?h] => destruct (jiraOk w h)
          end; cbn [fs trace]).
  all: eexists _, _, _; split; [reflexivity|]; split; [reflexivity|];
    repeat (rewrite <- ?app_assoc; cbn [app]);
    split; [reflexivity|]; split; [reflexivity|].
  all: first [ reflexivity
             | exists [EvPublish; EvJira (key i) Agent2Completed]; reflexivity
             | exists [EvPublish]; reflexivity
             | exists []; reflexivity ].
Qed.

Lemma triggerAgent1_spec w i st :
  post (triggerAgent1 w i) st (agent1Post i st).
Proof.
  assert (Hfail : forall e (st0 : state) pre,
    fs st0 = fs st ->
    trace st0 = (trace st ++ EvLog (LogAgentBanner 1) :: pre)%list ->
    countEv isPrepareEv pre = 0 -> countEv isScriptEv pre <= 1 ->
    post (run tryCatch (updateJiraCard w (key i) Agent1Failed) (fun _ => ret tt);
          throw e)%eff st0 (agent1Post i st)).
  { intros e st0 pre Hf Ht Hp Hs. unfold updateJiraCard. msteps.
    assert (Hq : agent1Post i st (Throw e)
                   (State (fs st0) (trace st0 ++ [EvJira (key i) Agent1Failed]))).
    { exists (pre ++ [EvJira (key i) Agent1Failed])%list. cbn [fs trace].
      rewrite Ht, <- app_assoc. split; [exact Hf|]. split; [reflexivity|].
      split; [rewrite countEv_app, Hp; reflexivity|]. eauto. }
    destruct (jiraOk w (trace st0)); msteps; exact Hq. }
  unfold triggerAgent1, updateJiraCard. msteps.
  destruct (fields i) as [flds|] eqn:Hfields;
    [msteps|apply post_throw; cbv beta iota; apply (Hfail _ _ []); auto].
  destruct (jiraOk w _); cbv iota.
  2:{ apply (Hfail _ _ [EvJira (key i) Agent1Started]);
        [reflexivity
        |cbn [trace]; repeat (rewrite <- ?app_assoc; cbn [app]); reflexivity
        |reflexivity|cbn; lia]. }
  msteps.
  destruct (generateOk w _); cbv iota.
  2:{ apply (Hfail _ _ [EvJira (key i) Agent1Started; EvGenerateTestCases]);
        [reflexivity
        |cbn [trace]; repeat (rewrite <- ?app_assoc; cbn [app]); reflexivity
        |reflexivity|cbn; lia]. }
  msteps.
  destruct (saveOk w _); cbv iota.
  2:{ apply (Hfail _ _ [EvJira (key i) Agent1Started; EvGenerateTestCases; EvSaveTestCases]);
        [reflexivity
        |cbn [trace]; repeat (rewrite <- ?app_assoc; cbn [app]); reflexivity
        |reflexivity|cbn; lia]. }
  msteps.
  destruct (jiraOk w _); cbv iota.
  2:{ apply (Hfail _ _ [EvJira (key i) Agent1Started; EvGenerateTestCases; EvSaveTestCases;
                       EvJira (key i) Agent1Completed]);
        [reflexivity
        |cbn [trace]; repeat (rewrite <- ?app_assoc; cbn [app]); reflexivity
        |reflexivity|cbn; lia]. }
  match goal with |- post (triggerAgent2 w i) ?s _ =>
    destruct (triggerAgent2_spec w i s) as (r & st' & new & E & Hf & Ht & Hrep & Hr)
  end.
  eapply post_intro; [exact E|]. cbn [fs trace] in Hf, Ht.
  repeat (rewrite <- ?app_assoc in Ht; cbn [app] in Ht).
  destruct r as [[]|e].
  - subst new. exists [EvJira (key i) Agent1Started; EvGenerateTestCases; EvSaveTestCases;
               EvJira (key i) Agent1Completed; EvLog (LogAgentBanner 2);
               EvGenerateScript; EvPublish; EvJira (key i) Agent2Completed].
    split; [exact Hf|]. split; [exact Ht|]. split; [reflexivity|].
    split; [congruence|reflexivity].
  - assert (Hc : countEv isPrepareEv new = 0 /\ countEv isScriptEv new = 0).
    { clear -Hrep. induction new as [|x new IH]; [auto|].
      cbn [List.filter] in Hrep. unfold countEv in *.
      destruct x; cbn in Hrep |- *; try discriminate Hrep; auto. }
    destruct Hc as [Hc1 Hc2].
    eapply (Hfail _ _ _ Hf Ht).
    + change (countEv isPrepareEv ([EvJira (key i) Agent1Started; EvGenerateTestCases;
               EvSaveTestCases; EvJira (key i) Agent1Completed;
               EvLog (LogAgentBanner 2); EvGenerateScript] ++ new) = 0).
      rewrite countEv_app, Hc1. reflexivity.
    + change (countEv isScriptEv ([EvJira (key i) Agent1Started; EvGenerateTestCases;
               EvSaveTestCases; EvJira (key i) Agent1Completed;
               EvLog (LogAgentBanner 2); EvGenerateScript] ++ new) <= 1).
      rewrite countEv_app, Hc2. cbn. lia.
Qed.

(** The test cases read back by the server: the state is left as it
    is, and nothing is thrown. *)
Lemma loadTestCases_total w i st :
  exists v, loadTestCases w i st = (Ok v, st).
Proof.
  unfold loadTestCases, tryCatch, bind, readFile, liftR, ret, throw.
  destruct (fs st !! testCasePath w (key i)) as [c|]; [|eauto].
  destruct (JSON_parse w c) as [data|]; [|eauto].
  destruct (getProp data "testCases"); eauto.
Qed.

(** Steps 2 and 3 of the workflow and its last line, from a state that
    Agent 1 left. *)
Lemma workflow_after_agent1 w i st1 :
  exists st' new,
    (do testCases <- loadTestCases w i;
     do prUrl <-
       tryCatch
         (run triggerAgent2 w i;
          match pullsUrl w with
          | Some u => ret (Some u)
          | None => throw TypeError
          end)
         (fun _ => run log LogAgent2Error; ret None);
     run tryCatch
           (run Agent3.triggerAgent3 w (key i) prUrl; ret tt)
           (fun _ => log LogAgent3Error);
     log LogWorkflowCompleted)%eff st1 = (Ok tt, st') /\
    trace st' = (trace st1 ++ new ++ [EvLog LogWorkflowCompleted])%list /\
    countEv isScriptEv new = 1 /\ countEv isPrepareEv new = 1.
Proof.
  destruct (loadTestCases_total w i st1) as (tc & Etc).
  rewrite (bind_ok _ _ _ _ _ Etc).
  destruct (triggerAgent2_spec w i st1) as (r2 & st2 & new2 & E2 & _ & Ht2 & Hrep2 & _).
  assert (Hc2 : countEv isPrepareEv new2 = 0 /\ countEv isScriptEv new2 = 0).
  { clear -Hrep2. induction new2 as [|x new IH]; [auto|].
    cbn [List.filter] in Hrep2. unfold countEv in *.
    destruct x; cbn in Hrep2 |- *; try discriminate Hrep2; auto. }
  destruct Hc2 as [Hp2 Hs2].
  assert (exists prUrl st2' logs2,
    tryCatch
      (run triggerAgent2 w i;
       match pullsUrl w with
       | Some u => ret (Some u)
       | None => throw TypeError
       end)%eff
      (fun _ => run log LogAgent2Error; ret None)%eff st1 = (Ok prUrl, st2') /\
    trace st2' = (trace st2 ++ logs2)%list /\ forallb isLogEv logs2 = true)
    as (prUrl & st2' & logs2 & E2' & Ht2' & Hl2).
  { unfold tryCatch, bind at 1. rewrite E2.
    destruct r2 as [[]|e].
    - destruct (pullsUrl w); cbn.
      + eexists _, _, []. rewrite app_nil_r. eauto.
      + eexists _, _, [_]. split; [reflexivity|]. cbn. auto.
    - eexists _, _, [_]. split; [reflexivity|]. cbn. auto. }
  rewrite (bind_ok _ _ _ _ _ E2').
  destruct (triggerAgent3_events w (key i) prUrl st2') as (r3 & st3 & new3 & E3 & Ht3 & H3).
  assert (exists st3' logs3,
    tryCatch (run Agent3.triggerAgent3 w (key i) prUrl; ret tt)%eff
      (fun _ => log LogAgent3Error) st2' = (Ok tt, st3') /\
    trace st3' = (trace st3 ++ logs3)%list /\ forallb isLogEv logs3 = true)
    as (st3' & logs3 & E3' & Ht3' & Hl3).
  { unfold tryCatch, bind at 1. rewrite E3. destruct r3 as [tr|e]; cbn.
    - eexists _, []. rewrite app_nil_r. eauto.
    - eexists _, [_]. split; [reflexivity|]. cbn. auto. }
  rewrite (bind_ok _ _ _ _ _ E3').
  exists (State (fs st3') (trace st3' ++ [EvLog LogWorkflowCompleted])),
    ([EvLog (LogAgentBanner 2); EvGenerateScript] ++ new2 ++ logs2
       ++ [EvLog (LogAgentBanner 3); EvPrepareRepo] ++ new3 ++ logs3)%list.
  split; [reflexivity|]. cbn [trace].
  rewrite Ht3', Ht3, Ht2', Ht2.
  split; [repeat (rewrite <- ?app_assoc; cbn [app]); reflexivity|].
  assert (Hlogs : forall f l, (forall x, f (EvLog x) = false) ->
            forallb isLogEv l = true -> countEv f l = 0).
  { intros f l Hf. apply countEv_excluded. intros x Hx.
    destruct x; try discriminate Hx. apply Hf. }
  assert (H3s : countEv isScriptEv new3 = 0 /\ countEv isPrepareEv new3 = 0).
  { split; (eapply countEv_excluded; [|exact H3]); intros x Hx;
      destruct x; try reflexivity; discriminate Hx. }
  destruct H3s as [H3s H3p].
  rewrite !countEv_app, Hs2, Hp2, H3s, H3p.
  rewrite !(Hlogs _ logs2), !(Hlogs _ logs3) by (auto; intros; reflexivity).
  split; reflexivity.
Qed.

End WorkflowFacts.
Import WorkflowFacts.

(** ** Further facts: shared/utils/jira-utils.js *)

Module JiraFacts.
Import Jira JiraUtils.

Lemma clientCalls_app h1 h2 :
  clientCalls (h1 ++ h2) = (clientCalls h1 ++ clientCalls h2)%list.
Proof. unfold clientCalls. apply List.filter_app. Qed.

Lemma find_cases p : forall xs x,
  find p xs = Ok x ->
  (x = VUndef /\ Forall (fun y => p y = Ok false) xs) \/
  (exists pre post, xs = (pre ++ x :: post)%list /\ p x = Ok true /\
                    Forall (fun y => p y = Ok false) pre).
Proof.
  induction xs as [|y xs IH]; intros x H.
  - injection H as <-. left. split; [reflexivity|constructor].
  - cbn [find] in H. destruct (p y) as [[|]|e] eqn:E; [| |discriminate].
    + injection H as <-. right. exists [], xs. repeat split; auto.
    + destruct (IH _ H) as [(-> & Hall)|(pre & post & -> & Hx & Hall)].
      * left. split; [reflexivity|]. constructor; assumption.
      * right. exists (y :: pre), post. repeat split; auto.
Qed.

Lemma addComment_cases c issueKey text h :
  let h1 := (h ++ [AddComment issueKey text])%list in
  addComment c issueKey text h
  = if accepts c h1 then (Ok true, (h1 ++ [Console AddedComment])%list)
    else (Throw (ExternalError "jira"), (h1 ++ [Console FailedComment])%list).
Proof.
  unfold addComment, Jira.tryCatch, Jira.bind, request, console, Jira.ret, Jira.throw.
  cbv zeta. destruct (accepts c _); reflexivity.
Qed.

(** [getCustomFieldId] never throws and asks the client once; an answer
    that is not null or empty is the [id] of the first field of the list
    that carries the name. *)
Lemma getCustomFieldId_spec c fieldName h :
  exists v logs,
    getCustomFieldId c fieldName h = (Ok v, (h ++ ListFields :: logs)%list) /\
    clientCalls logs = [] /\
    (truthy v = true ->
     exists items pre f post,
       answers c (h ++ [ListFields])%list = Some (VArr items) /\
       items = (pre ++ f :: post)%list /\
       hasName fieldName f = Ok true /\
       Forall (fun y => hasName fieldName y = Ok false) pre /\
       v = getPropOpt f "id").
Proof.
  unfold getCustomFieldId, Jira.tryCatch, Jira.bind, query, asArray, Jira.liftR,
    Jira.ret, Jira.throw, console. cbv zeta.
  assert (Hfail : exists v logs,
    (Ok VNull, ((h ++ [ListFields]) ++ [Console FieldIdError])%list)
    = (Ok v, (h ++ ListFields :: logs)%list) /\
    clientCalls logs = [] /\
    (truthy v = true ->
     exists items pre f post,
       answers c (h ++ [ListFields])%list = Some (VArr items) /\
       items = (pre ++ f :: post)%list /\
       hasName fieldName f = Ok true /\
       Forall (fun y => hasName fieldName y = Ok false) pre /\
       v = getPropOpt f "id")).
  { exists VNull, [Console FieldIdError]. rewrite <- app_assoc.
    split; [reflexivity|]. split; [reflexivity|]. discriminate. }
  destruct (answers c (h ++ [ListFields])) as [fields|] eqn:Ha; [|exact Hfail].
  destruct fields as [| | | | |items|]; try exact Hfail.
  destruct (find (hasName fieldName) items) as [field|e] eqn:Hf; [|exact Hfail].
  destruct (truthy field) eqn:Ht.
  - assert (Hg : getProp field "id" = Ok (getPropOpt field "id")).
    { destruct field; try discriminate Ht; reflexivity. }
    rewrite Hg. exists (getPropOpt field "id"), [].
    split; [reflexivity|]. split; [reflexivity|]. intros _.
    destruct (find_cases _ _ _ Hf) as [(-> & _)|(pre & post & -> & Hx & Hall)];
      [discriminate Ht|].
    exists (pre ++ field :: post)%list, pre, field, post. auto.
  - exists VNull, []. split; [reflexivity|]. split; [reflexivity|]. discriminate.
Qed.

Lemma collectFields_spec c : forall es fields h,
  exists fields' new,
    collectFields c es fields h = (Ok fields', (h ++ new)%list) /\
    clientCalls new = replicate (List.length es) ListFields /\
    size fields' <= size fields + List.length es.
Proof.
  induction es as [|[name v] es IH]; intros fields h.
  - exists fields, []. rewrite app_nil_r. cbn. repeat split; auto. lia.
  - cbn [collectFields]. unfold Jira.bind at 1.
    destruct (getCustomFieldId_spec c name h) as (id & logs & E & Hlogs & _).
    rewrite E.
    destruct (truthy id).
    + destruct (IH (setField fields (toString id) v) (h ++ ListFields :: logs)%list)
        as (fields' & new & E2 & Hc & Hs).
      exists fields', (ListFields :: logs ++ new)%list.
      rewrite E2, <- app_assoc. split; [reflexivity|].
      split.
      { change (ListFields :: logs ++ new)%list
          with ([ListFields] ++ logs ++ new)%list.
        rewrite !clientCalls_app, Hlogs, Hc. reflexivity. }
      assert (size (setField fields (toString id) v) <= S (size fields)).
      { unfold setField. destruct (String.eqb _ _); [lia|].
        destruct (fields !! toString id) eqn:El.
        - rewrite map_size_insert_Some by eauto. lia.
        - rewrite map_size_insert_None by assumption. lia. }
      cbn [List.length]. lia.
    + unfold Jira.bind at 1, console.
      destruct (IH fields ((h ++ ListFields :: logs) ++ [Console (FieldNotFound name)])%list)
        as (fields' & new & E2 & Hc & Hs).
      exists fields', (ListFields :: logs ++ Console (FieldNotFound name) :: new)%list.
      rewrite E2. repeat (rewrite <- ?app_assoc; cbn [app]).
      split; [reflexivity|].
      split.
      { change (ListFields :: logs ++ Console (FieldNotFound name) :: new)%list
          with ([ListFields] ++ logs ++ [Console (FieldNotFound name)] ++ new)%list.
        rewrite !clientCalls_app, Hlogs, Hc. reflexivity. }
      cbn [List.length]. lia.
Qed.

End JiraFacts.
Import JiraFacts.

(** ** Further facts: repository URLs, generated files, test cases *)

Module TextFacts.
Import Agent1 Agent2 Server.

Lemma includes_cons pat a s :
  includes pat (String a s) = false ->
  stripPrefix pat (String a s) = None /\ includes pat s = false.
Proof.
  cbn [includes]. intros H. apply orb_false_iff in H as [H1 H2].
  destruct (stripPrefix pat (String a s)); [discriminate H1|auto].
Qed.

Lemma removeFirst_absent pat : forall s,
  includes pat s = false -> removeFirst pat s = s.
Proof.
  induction s as [|a s IH]; intros H.
  - cbn [includes] in H. rewrite orb_false_r in H. cbn [removeFirst].
    destruct (stripPrefix pat ""); [discriminate H|reflexivity].
  - apply includes_cons in H as [H1 H2]. cbn [removeFirst].
    rewrite H1, IH by assumption. reflexivity.
Qed.

(** The suffix .git does not overlap itself: an occurrence in [x]
    followed by .git starts in [x] only if it lies in [x]. *)
Lemma git_overlap a x :
  stripPrefix ".git" (String a x) = None ->
  stripPrefix ".git" (String a x ++ ".git") = None.
Proof.
  rewrite str_app_cons. cbn [stripPrefix].
  destruct (Ascii.eqb "." a); [|reflexivity].
  destruct x as [|b x]; [reflexivity|]. rewrite str_app_cons.
  destruct (Ascii.eqb "g" b); [|reflexivity].
  destruct x as [|c x]; [reflexivity|]. rewrite str_app_cons.
  destruct (Ascii.eqb "i" c); [|reflexivity].
  destruct x as [|d x]; [reflexivity|]. rewrite str_app_cons.
  destruct (Ascii.eqb "t" d); [discriminate|reflexivity].
Qed.

Lemma removeFirst_git : forall u,
  includes ".git" u = false -> removeFirst ".git" (u ++ ".git") = u.
Proof.
  induction u as [|a u IH]; intros H; [reflexivity|].
  apply includes_cons in H as [H1 H2].
  pose proof (git_overlap _ _ H1) as H3. rewrite str_app_cons in H3 |- *.
  cbn [removeFirst]. rewrite H3, IH by assumption. reflexivity.
Qed.

Lemma split_plain : forall w,
  all notSlash w = true -> split "/" w = [w].
Proof.
  induction w as [|a w IH]; intros H; [reflexivity|].
  cbn [all] in H. apply andb_true_iff in H as [Ha Hw].
  cbn [split]. unfold notSlash in Ha. apply negb_true_iff in Ha.
  rewrite Ha, IH by assumption. reflexivity.
Qed.

Lemma split_app : forall u v,
  split "/" (u ++ String "/" v) = (split "/" u ++ split "/" v)%list.
Proof.
  induction u as [|a u IH]; intros v.
  - reflexivity.
  - rewrite str_app_cons. cbn [split]. rewrite IH.
    destruct (Ascii.eqb a "/"); [reflexivity|].
    destruct (split "/" u) as [|piece rest] eqn:E; [|reflexivity].
    destruct u; cbn [split] in E; [discriminate E|].
    destruct (Ascii.eqb _ _); [discriminate E|].
    destruct (split "/" u); discriminate E.
Qed.

Lemma fromEnd_last l x : fromEnd 1 (l ++ [x]) = VStr x.
Proof.
  unfold fromEnd. rewrite length_app. cbn [List.length].
  replace (1 <=? List.length l + 1)%nat with true
    by (symmetry; apply Nat.leb_le; lia).
  cbn [Nat.leb andb]. f_equal.
  replace (List.length l + 1 - 1) with (List.length l) by lia.
  rewrite app_nth2 by lia. rewrite Nat.sub_diag. reflexivity.
Qed.

Lemma fromEnd_before_last l x y : fromEnd 2 (l ++ [x; y]) = VStr x.
Proof.
  unfold fromEnd. rewrite length_app. cbn [List.length].
  replace (2 <=? List.length l + 2)%nat with true
    by (symmetry; apply Nat.leb_le; lia).
  cbn [Nat.leb andb]. f_equal.
  replace (List.length l + 2 - 2) with (List.length l) by lia.
  rewrite app_nth2 by lia. rewrite Nat.sub_diag. reflexivity.
Qed.

Lemma all_app f u v : all f (u ++ v) = all f u && all f v.
Proof.
  induction u as [|a u IH]; [reflexivity|].
  rewrite str_app_cons. cbn [all]. rewrite IH, andb_assoc. reflexivity.
Qed.

Lemma upToLast_None c : forall s,
  upToLast c s = None -> all (fun x => negb (Ascii.eqb x c)) s = true.
Proof.
  induction s as [|a s IH]; intros H; [reflexivity|].
  cbn [upToLast] in H. destruct (upToLast c s); [discriminate H|].
  destruct (Ascii.eqb a c) eqn:E; [discriminate H|].
  cbn [all]. rewrite E, IH; reflexivity.
Qed.

Lemma upToLast_Some c : forall s u,
  upToLast c s = Some u ->
  exists body post,
    u = body ++ String c "" /\ s = u ++ post /\
    all (fun x => negb (Ascii.eqb x c)) post = true.
Proof.
  induction s as [|a s IH]; intros u H; [discriminate H|].
  cbn [upToLast] in H. destruct (upToLast c s) as [u'|] eqn:E.
  - injection H as <-. destruct (IH _ eq_refl) as (body & post & -> & Hs & Hp).
    exists (String a body), post. rewrite !str_app_cons. rewrite Hs at 1. auto.
  - destruct (Ascii.eqb a c) eqn:Ha; [|discriminate H]. injection H as <-.
    apply Ascii.eqb_eq in Ha. subst a.
    exists "", s. split; [reflexivity|]. split; [reflexivity|].
    apply upToLast_None, E.
Qed.

Lemma upToLast_found c : forall x y, upToLast c (x ++ String c y) <> None.
Proof.
  induction x as [|b x IH]; intros y.
  - rewrite str_app_nil_l. cbn [upToLast].
    destruct (upToLast c y); [discriminate|]. rewrite Ascii.eqb_refl. discriminate.
  - rewrite str_app_cons. cbn [upToLast]. specialize (IH y).
    destruct (upToLast c (x ++ String c y)); [discriminate|congruence].
Qed.

Lemma objectAt_Some s json :
  objectAt s = Some json ->
  exists body post,
    json = "{" ++ body ++ "}" /\ s = json ++ post /\ all notRightBrace post = true.
Proof.
  unfold objectAt. destruct s as [|a rest]; [discriminate|].
  destruct (Ascii.eqb a "{") eqn:Ha.
  2:{ destruct a as [[] [] [] [] [] [] [] []]; try discriminate Ha; discriminate. }
  apply Ascii.eqb_eq in Ha. subst a.
  destruct (upToLast "}" rest) as [u|] eqn:E; [|discriminate].
  intros [= <-]. apply upToLast_Some in E as (body & post & -> & Hs & Hp).
  exists body, post. rewrite Hs at 1. auto.
Qed.

Lemma objectAt_head a s : Ascii.eqb a "{" = false -> objectAt (String a s) = None.
Proof.
  intros H. unfold objectAt.
  destruct a as [[] [] [] [] [] [] [] []]; try discriminate H; reflexivity.
Qed.

Lemma allowedPath_true p :
  allowedPath p = true <->
  (p = "tests/testdata.ts" \/
   exists dir rest, In dir allowedDirs /\ p = dir ++ rest).
Proof.
  unfold allowedPath. rewrite orb_true_iff, !existsb_exists. split.
  - intros [(dir & Hin & Hs)|(f & Hin & Hf)].
    + right. unfold startsWith in Hs.
      destruct (stripPrefix dir p) as [rest|] eqn:E; [|discriminate Hs].
      apply stripPrefix_Some in E. eauto.
    + left. apply String.eqb_eq in Hf. destruct Hin as [<-|[]]. exact Hf.
  - intros [->|(dir & rest & Hin & ->)].
    + right. exists "tests/testdata.ts". split; [left; reflexivity|reflexivity].
    + left. exists dir. split; [exact Hin|]. unfold startsWith.
      rewrite stripPrefix_app. reflexivity.
Qed.

Lemma checkFile_None file : checkFile file = None <-> confined file.
Proof.
  unfold checkFile, confined. split.
  - destruct file as [| | | | | |flds]; cbn [getProp]; try discriminate.
    destruct (assoc "path" flds) as [| | | |p| |] eqn:E; try discriminate.
    destruct (allowedPath p) eqn:Ha; [|discriminate]. intros _.
    exists p. cbn [getPropOpt]. split; [exact E|]. apply allowedPath_true, Ha.
  - intros (p & Hp & Ha). apply allowedPath_true in Ha.
    destruct file as [| | | | | |flds]; cbn [getPropOpt] in Hp; try discriminate Hp.
    cbn [getProp]. rewrite Hp, Ha. reflexivity.
Qed.

Lemma checkAll_None files : checkAll files = None <-> Forall confined files.
Proof.
  induction files as [|f files IH].
  - split; [constructor|reflexivity].
  - cbn [checkAll]. split.
    + destruct (checkFile f) eqn:E; [discriminate|]. intros H.
      constructor; [apply checkFile_None, E|apply IH, H].
    + intros H. apply Forall_cons in H as [Hf Hfs].
      apply checkFile_None in Hf. rewrite Hf. apply IH, Hfs.
Qed.

End TextFacts.
Import TextFacts.

(** ** Further properties of the code *)

Module Extras.
Import Scenario2.

(** X1: a test run never throws; its count of failures is the length of
    its list of failures, and its total exceeds the sum of the passed and
    the failed tests by one at most (by one exactly when the walk of the
    report was left by an exception after a test had been counted). *)
Theorem run_counts_are_bounded w dir headed st :
  exists rr st',
    runPlaywrightTests w dir headed st = (Ok rr, st') /\
    listed rr /\ nearlyCounted rr.
Proof.
  apply (runPlaywrightTests_result (fun r => listed r /\ nearlyCounted r)).
  - split; [reflexivity|]. unfold nearlyCounted, emptyRun. cbn. lia.
  - intros v. split; [apply walkReport_listed_fst|apply walkReport_nearly].
  - intros r s H. exact H.
Qed.

(** X2: when the run leaves no report, or a report that is not JSON, the
    result counts no test at all and lists no failure, and one warning
    is logged. *)
Theorem unreadable_report_counts_nothing w dir headed st :
  let f1 := execTests w (trace st) (fs st) in
  (f1 !! resultsPath w dir = None \/
   exists c, f1 !! resultsPath w dir = Some c /\ JSON_parse w c = None) ->
  exists shots st',
    runPlaywrightTests w dir headed st = (Ok (RunResult 0 0 0 [] shots), st') /\
    fs st' = f1 /\
    trace st' = (trace st ++ [EvRunTests headed; EvLog LogReportUnreadable])%list.
Proof.
  intros f1 H.
  unfold runPlaywrightTests, bind, history, files, setFiles,
    tryCatch, readFile, log, emit, ret, throw. cbn [fs trace]. fold f1.
  fold (resultsPath w dir).
  destruct H as [H|(c & H & Hp)]; rewrite H; [|rewrite Hp]; cbn [fs trace];
    destruct (readdir w _ f1 _); eexists _, _;
    (split; [reflexivity|]); cbn [fs trace]; rewrite <- app_assoc; auto.
Qed.

Lemma unreadable_report_counts_nothing_witness :
  exists shots st',
    runPlaywrightTests wGarbled "repo" true stCloned
    = (Ok (RunResult 0 0 0 [] shots), st') /\
    fs st' = execTests wGarbled (trace stCloned) (fs stCloned) /\
    trace st' = (trace stCloned ++ [EvRunTests true; EvLog LogReportUnreadable])%list.
Proof.
  apply (unreadable_report_counts_nothing wGarbled "repo" true stCloned).
  right. exists "<html>502</html>". split; vm_compute; reflexivity.
Defined.



(** X4: every failure that a run lists carries an error text that is
    neither missing nor empty: a test without an error message is listed
    with the text Unknown error. *)
Theorem failed_tests_carry_an_error_text w dir headed st :
  exists rr st',
    runPlaywrightTests w dir headed st = (Ok rr, st') /\
    describedFailures rr.
Proof.
  apply (runPlaywrightTests_result describedFailures).
  - constructor.
  - apply walkReport_described.
  - intros r s H. exact H.
Qed.

(** X5: the selector read from an error text is the first non-empty run
    of characters other than the single quote that stands between two
    single quotes: the alternatives of the pattern that start with
    locator( and selector( never change what is read, and nothing is
    read exactly when the text holds no such run. *)
Theorem selector_is_first_quoted_text e :
  extractSelector e = search (quotedCall "'" "'") e /\
  match extractSelector e with
  | Some sel =>
      sel <> "" /\ all notQuote1 sel = true /\
      exists pre post, e = pre ++ "'" ++ sel ++ "'" ++ post
  | None =>
      forall pre sel post,
        sel <> "" -> all notQuote1 sel = true ->
        e <> pre ++ "'" ++ sel ++ "'" ++ post
  end.
Proof.
  split; [apply extractSelector_quoted|].
  rewrite extractSelector_quoted.
  destruct (search (quotedCall "'" "'") e) as [sel|] eqn:E.
  - apply search_Some in E as (pre & s' & -> & Hq & _).
    apply quotedCall_Some in Hq as (Hne & Hall & rest & ->). eauto.
  - intros pre sel post Hne Hall ->.
    apply search_None in E.
    rewrite (quotedCall_intro "'" "" sel post Hne Hall) in E. discriminate E.
Qed.

(** X6: a page URL is read from a test file exactly when the file holds
    page.goto( followed by a quote, a non-empty run of characters other
    than quotes, a quote and a right parenthesis; what is read is such a
    run (the two quotes need not be of the same kind). *)
Theorem page_url_is_read_from_goto content :
  match extractPageUrl content with
  | Some url =>
      url <> "" /\ all notQuote2 url = true /\
      exists pre q1 q2 post,
        isQuote2 q1 = true /\ isQuote2 q2 = true /\
        content = pre ++ "page.goto(" ++ String q1 (url ++ String q2 (String ")" post))
  | None =>
      forall pre q1 url q2 post,
        isQuote2 q1 = true -> isQuote2 q2 = true ->
        url <> "" -> all notQuote2 url = true ->
        content <> pre ++ "page.goto(" ++ String q1 (url ++ String q2 (String ")" post))
  end.
Proof.
  unfold extractPageUrl.
  destruct (search gotoAt content) as [url|] eqn:E.
  - apply search_Some in E as (pre & s' & -> & Hg & _).
    apply gotoAt_Some in Hg as (Hne & Hall & q1 & q2 & rest & H1 & H2 & ->).
    split; [exact Hne|]. split; [exact Hall|]. exists pre, q1, q2, rest. auto.
  - intros pre q1 url q2 post H1 H2 Hne Hall ->.
    apply search_None in E. revert E. unfold gotoAt.
    rewrite stripPrefix_app, H1, span_intro
      by (auto; unfold notQuote2; rewrite H2; reflexivity).
    rewrite (nonEmpty_intro _ Hne). discriminate.
Qed.

(** X7: the import that designates the page object has the form import,
    spaces, a left brace, one name made of word characters between
    optional spaces, a right brace, spaces, from, spaces, and a
    non-empty module path between quotes. *)
Theorem page_import_names_one_class testContent cls modulePath :
  pageImportMatch testContent = Some (cls, modulePath) ->
  cls <> "" /\ all isWord cls = true /\
  modulePath <> "" /\ all notQuote2 modulePath = true /\
  exists pre ws1 ws2 ws3 ws4 ws5 q1 q2 post,
    ws1 <> "" /\ ws4 <> "" /\ ws5 <> "" /\
    all isSpace (ws1 ++ ws2 ++ ws3 ++ ws4 ++ ws5) = true /\
    isQuote2 q1 = true /\ isQuote2 q2 = true /\
    testContent
    = pre ++ "import" ++ ws1 ++ "{" ++ ws2 ++ cls ++ ws3 ++ "}" ++ ws4 ++ "from"
          ++ ws5 ++ String q1 (modulePath ++ String q2 post).
Proof.
  unfold pageImportMatch. intros E.
  apply search_Some in E as (pre & s' & -> & Hi & _).
  apply importAt_Some in Hi
    as (H1 & H2 & H3 & H4 & ws1 & ws2 & ws3 & ws4 & ws5 & q1 & q2 & rest &
        N1 & N4 & N5 & Hws & Hq1 & Hq2 & ->).
  repeat (split; [assumption|]).
  exists pre, ws1, ws2, ws3, ws4, ws5, q1, q2, rest. auto 10.
Qed.

Lemma page_import_names_one_class_witness :
  "LoginPage" <> "" /\ all isWord "LoginPage" = true /\
  "pages/LoginPage" <> "" /\ all notQuote2 "pages/LoginPage" = true /\
  exists pre ws1 ws2 ws3 ws4 ws5 q1 q2 post,
    ws1 <> "" /\ ws4 <> "" /\ ws5 <> "" /\
    all isSpace (ws1 ++ ws2 ++ ws3 ++ ws4 ++ ws5) = true /\
    isQuote2 q1 = true /\ isQuote2 q2 = true /\
    testSpec
    = pre ++ "import" ++ ws1 ++ "{" ++ ws2 ++ "LoginPage" ++ ws3 ++ "}" ++ ws4
          ++ "from" ++ ws5 ++ String q1 ("pages/LoginPage" ++ String q2 post).
Proof.
  apply (page_import_names_one_class testSpec "LoginPage" "pages/LoginPage").
  vm_compute. reflexivity.
Defined.

(** X8: after the clean-up of an answer (the two global replacements
    and the trim, as Agent 2 and Agent 3 apply them) no run of three
    backquotes is left; an answer without backquote is only trimmed. *)
Theorem cleaned_answer_has_no_fence text :
  test (literalOptNewline "```") (stripFences text) = false /\
  (all notBackquote text = true -> stripFences text = trim text).
Proof.
  split.
  - unfold stripFences, replaceAll. apply fence_trim.
    apply (erase_fences_clean _ _ "" (Nat.le_refl _)).
  - intros H. unfold stripFences, replaceAll.
    rewrite (erase_nothing "```json" text "" eq_refl H).
    rewrite (erase_nothing "```" text "" eq_refl H). reflexivity.
Qed.


(** X10: the correction pass never throws; the corrections it returns
    come from the failed tests, in their order, one at most for each
    failed test. *)
Theorem corrections_follow_the_failed_tests w dir fts st :
  exists cs st',
    correctFailedSelectors w dir fts st = (Ok cs, st') /\
    sublist (map correctionOrigin cs) (map failedTestOrigin fts) /\
    List.length cs <= List.length fts.
Proof.
  unfold correctFailedSelectors.
  destruct (correctLoop_origin w dir fts [] st) as (added & st' & E & Hsub).
  exists added, st'. split; [exact E|]. split; [exact Hsub|].
  apply sublist_length in Hsub. rewrite !length_map in Hsub. exact Hsub.
Qed.

(** X11: the correction pass fetches at most one page and asks for
    advice at most once for each failed test, and the markup sent with a
    request for advice is never longer than 5000 characters. *)
Theorem advice_requests_are_bounded w dir fts st :
  exists r st' new,
    correctFailedSelectors w dir fts st = (r, st') /\
    trace st' = (trace st ++ new)%list /\
    Forall boundedAdvice new /\
    countEv isAdviseEv new <= List.length fts /\
    countEv isFetchEv new <= List.length fts.
Proof.
  unfold correctFailedSelectors.
  destruct (post_elim _ _ _ (correctLoop_advice w dir fts [] st))
    as (r & st' & E & new & H).
  exists r, st', new. auto.
Qed.



(** X13: when Agent 3 returns, the record it returns has an end time;
    the commit, the push and the request for a pull request were made
    once each, in this order and just before the report, exactly when a
    correction was recorded; the report is the last call and carries the
    record that is returned. *)
Theorem agent3_publishes_only_corrections w issueKey prUrl st tr st' :
  triggerAgent3 w issueKey prUrl st = (Ok tr, st') ->
  endTime tr <> None /\
  (correctedSelectors tr = [] -> correctionPrUrl tr = None) /\
  exists pre,
    trace st'
    = (trace st ++ pre ++ publishEvents (correctedSelectors tr)
         ++ [EvJira issueKey (Agent3Results tr prUrl)])%list /\
    countEv isGitEv pre = 0.
Proof.
  intros E.
  pose proof (triggerAgent3_cases w issueKey prUrl st) as H. cbv zeta in H.
  destruct (cloneRepo w _ (fs st)) as [f1|]; [|rewrite H in E; discriminate E].
  destruct H as (tr0 & stR & repair & Err & HtR & Hrep & E').
  rewrite E' in E.
  destruct (publishAndReport_cases w issueKey prUrl tr0 stR)
    as (r & st1 & Ep & _ & Hp).
  cbv zeta in Hp. rewrite Ep in E.
  destruct Hp as [(-> & Ht)|(e1 & tail & -> & _)]; [|discriminate E].
  injection E as <- <-.
  assert (Hpr : correctionPrUrl tr0 = None).
  { clear -Err. revert Err. unfold runAndRepair, bind.
    destruct (runPlaywrightTests w (repoDir w) true _) as [[r0|e] s1]; [|discriminate].
    cbn [failed withCounts].
    destruct (0 <? r_failed r0)%nat.
    - destruct (correctFailedSelectors w (repoDir w) (r_failedTests r0) s1)
        as [[cs|e] s2]; [|discriminate].
      destruct (0 <? List.length cs)%nat.
      + destruct (runPlaywrightTests w (repoDir w) true s2) as [[r1|e] s3];
          [|discriminate].
        intros [= <- _]. reflexivity.
      + intros [= <- _]. reflexivity.
    - intros [= <- _]. reflexivity. }
  destruct (correctedSelectors tr0) as [|c0 cs'] eqn:Hcs.
  - split; [discriminate|]. cbn [correctedSelectors withEndTime]. rewrite Hcs.
    split; [intros _; exact Hpr|].
    exists (EvLog (LogAgentBanner 3) :: EvPrepareRepo :: repair)%list.
    rewrite Ht, HtR. cbn [publishEvents].
    repeat (rewrite <- ?app_assoc; cbn [app]). split; [reflexivity|].
    change (EvLog (LogAgentBanner 3) :: EvPrepareRepo :: repair)%list
      with ([EvLog (LogAgentBanner 3); EvPrepareRepo] ++ repair)%list.
    rewrite countEv_app.
    rewrite (countEv_excluded isGitEv isRunOrRepairEv repair); [reflexivity| |exact Hrep].
    intros x Hx. destruct x; try reflexivity; discriminate Hx.
  - split; [discriminate|].
    cbn [correctedSelectors withEndTime withCorrectionPrUrl]. rewrite Hcs.
    split; [discriminate|].
    exists (EvLog (LogAgentBanner 3) :: EvPrepareRepo :: repair)%list.
    rewrite Ht, HtR. cbn [publishEvents].
    repeat (rewrite <- ?app_assoc; cbn [app]). split; [reflexivity|].
    change (EvLog (LogAgentBanner 3) :: EvPrepareRepo :: repair)%list
      with ([EvLog (LogAgentBanner 3); EvPrepareRepo] ++ repair)%list.
    rewrite countEv_app.
    rewrite (countEv_excluded isGitEv isRunOrRepairEv repair); [reflexivity| |exact Hrep].
    intros x Hx. destruct x; try reflexivity; discriminate Hx.
Qed.


Lemma agent3_publishes_only_corrections_witness :
  endTime finalRepaired <> None /\
  (correctedSelectors finalRepaired = [] -> correctionPrUrl finalRepaired = None) /\
  exists pre,
    trace (snd (triggerAgent3 w0 "SCRUM-6" None st0))
    = (trace st0 ++ pre ++ publishEvents (correctedSelectors finalRepaired)
         ++ [EvJira "SCRUM-6" (Agent3Results finalRepaired None)])%list /\
    countEv isGitEv pre = 0.
Proof.
  apply (agent3_publishes_only_corrections w0 "SCRUM-6" None st0 finalRepaired
           (snd (triggerAgent3 w0 "SCRUM-6" None st0))).
  vm_compute. reflexivity.
Defined.

(** X14: for an issue without fields, as the manual triggers of the
    server build it, the workflow posts the comment that Agent 1 failed
    and logs a fatal error; nothing is generated, and neither Agent 2 nor
    Agent 3 is started. *)
Theorem issue_without_fields_stops_at_agent1 w i st :
  fields i = None ->
  triggerFullWorkflow w i st
  = (Ok tt,
     State (fs st)
       (trace st ++ [EvLog (LogAgentBanner 1); EvJira (key i) Agent1Failed;
                     EvLog LogFatalWorkflowError])).
Proof.
  intros H.
  unfold triggerFullWorkflow, triggerAgent1, updateJiraCard, call, log, emit, bind,
    tryCatch, ret, throw. rewrite H. cbn [fs trace].
  destruct (jiraOk w _); cbn [fs trace];
    repeat (rewrite <- ?app_assoc; cbn [app]); reflexivity.
Qed.

Lemma issue_without_fields_stops_at_agent1_witness :
  triggerFullWorkflow w0 manualIssue st0
  = (Ok tt,
     State (fs st0)
       (trace st0 ++ [EvLog (LogAgentBanner 1); EvJira (key manualIssue) Agent1Failed;
                      EvLog LogFatalWorkflowError])).
Proof.
  apply (issue_without_fields_stops_at_agent1 w0 manualIssue st0). reflexivity.
Defined.

(** X15: when Agent 1 returns, it has already run Agent 2; the workflow
    then runs Agent 2 once more and Agent 3 once, and logs its
    completion whatever these two do: a script is requested twice and the
    test repository is prepared once. *)
Theorem completed_workflow_runs_agent2_twice w i st st1 :
  triggerAgent1 w i st = (Ok tt, st1) ->
  exists st' new,
    triggerFullWorkflow w i st = (Ok tt, st') /\
    trace st' = (trace st ++ new ++ [EvLog LogWorkflowCompleted])%list /\
    countEv isScriptEv new = 2 /\ countEv isPrepareEv new = 1.
Proof.
  intros E.
  pose proof (triggerAgent1_spec w i st) as H1. unfold post in H1.
  rewrite E in H1. cbn [fst snd] in H1.
  destruct H1 as (new1 & _ & Ht1 & _ & _ & ->).
  destruct (workflow_after_agent1 w i st1) as (st' & new & E2 & Ht & Hs & Hp).
  unfold triggerFullWorkflow. unfold tryCatch at 1.
  rewrite (bind_ok _ _ _ _ _ E), E2.
  exists st',
    ([EvLog (LogAgentBanner 1); EvJira (key i) Agent1Started;
      EvGenerateTestCases; EvSaveTestCases; EvJira (key i) Agent1Completed;
      EvLog (LogAgentBanner 2); EvGenerateScript; EvPublish;
      EvJira (key i) Agent2Completed] ++ new)%list.
  split; [reflexivity|].
  rewrite Ht, Ht1. split; [repeat (rewrite <- ?app_assoc; cbn [app]); reflexivity|].
  rewrite !countEv_app, Hs, Hp. split; reflexivity.
Qed.

Lemma completed_workflow_runs_agent2_twice_witness :
  exists st' new,
    triggerFullWorkflow w0 scrum6 st0 = (Ok tt, st') /\
    trace st' = (trace st0 ++ new ++ [EvLog LogWorkflowCompleted])%list /\
    countEv isScriptEv new = 2 /\ countEv isPrepareEv new = 1.
Proof.
  apply (completed_workflow_runs_agent2_twice w0 scrum6 st0
           (snd (triggerAgent1 w0 scrum6 st0))).
  vm_compute. reflexivity.
Defined.



(** X17: an update of a Jira card that carries a non-empty comment and
    neither custom fields, nor fields, nor a transition makes one call of
    the client, the comment, and succeeds exactly when that call is
    accepted; any other property of the update, such as the status that
    Agent 3 sets, is not read. *)
Theorem comment_update_only_adds_a_comment c issueKey flds text h :
  assoc "comment" flds = VStr text -> text <> "" ->
  truthy (assoc "customFields" flds) = false ->
  truthy (assoc "fields" flds) = false ->
  truthy (assoc "transition" flds) = false ->
  let h1 := (h ++ [Jira.Console Jira.Updating;
                   Jira.AddComment issueKey (VStr text)])%list in
  JiraUtils.updateJiraCard c issueKey (VObj flds) h
  = if Jira.accepts c h1
    then (Ok true,
          (h1 ++ [Jira.Console Jira.AddedComment; Jira.Console Jira.Updated])%list)
    else (Throw (ExternalError "jira"),
          (h1 ++ [Jira.Console Jira.FailedComment;
                  Jira.Console Jira.ErrorUpdating])%list).
Proof.
  intros Hc Hne H1 H2 H3 h1.
  assert (Ht : truthy (VStr text) = true) by (destruct text; [congruence|reflexivity]).
  unfold JiraUtils.updateJiraCard, JiraUtils.whenTruthy, Jira.tryCatch, Jira.bind,
    Jira.liftR, Jira.console, Jira.ret, Jira.throw.
  cbn [getProp]. rewrite Hc, Ht, H1, H2, H3.
  rewrite addComment_cases. cbv zeta. subst h1.
  repeat (rewrite <- ?app_assoc; cbn [app]).
  destruct (Jira.accepts c _); repeat (rewrite <- ?app_assoc; cbn [app]); reflexivity.
Qed.

Lemma comment_update_only_adds_a_comment_witness :
  let h1 := ([] ++ [Jira.Console Jira.Updating;
                    Jira.AddComment "SCRUM-6" (VStr "report")])%list in
  JiraUtils.updateJiraCard jira0 "SCRUM-6" (JiraUtils.resultsUpdate "report" 2) []
  = if Jira.accepts jira0 h1
    then (Ok true,
          (h1 ++ [Jira.Console Jira.AddedComment; Jira.Console Jira.Updated])%list)
    else (Throw (ExternalError "jira"),
          (h1 ++ [Jira.Console Jira.FailedComment;
                  Jira.Console Jira.ErrorUpdating])%list).
Proof.
  apply (comment_update_only_adds_a_comment jira0 "SCRUM-6"
           [("comment", VStr "report"); ("status", VStr "IN PROGRESS")] "report" []);
    try reflexivity.
  discriminate.
Defined.

(** X18: the look-up of a custom field never throws and makes one call
    of the client, the request for the list of fields; an answer that is
    neither null nor empty is the id of the first field of that list that
    carries the name. *)
Theorem custom_field_id_is_the_first_match c fieldName h :
  exists v new,
    JiraUtils.getCustomFieldId c fieldName h = (Ok v, (h ++ new)%list) /\
    clientCalls new = [Jira.ListFields] /\
    (truthy v = true ->
     exists items pre f post,
       Jira.answers c (h ++ [Jira.ListFields])%list = Some (VArr items) /\
       items = (pre ++ f :: post)%list /\
       JiraUtils.hasName fieldName f = Ok true /\
       Forall (fun y => JiraUtils.hasName fieldName y = Ok false) pre /\
       v = getPropOpt f "id").
Proof.
  destruct (getCustomFieldId_spec c fieldName h) as (v & logs & E & Hl & Hv).
  exists v, (Jira.ListFields :: logs)%list. split; [exact E|].
  split; [|exact Hv].
  change (Jira.ListFields :: logs)%list with ([Jira.ListFields] ++ logs)%list.
  rewrite clientCalls_app, Hl. reflexivity.
Qed.


(** Two properties, one of them unknown to the client: two questions,
    one warning, one update with the one field that was resolved. *)
Example custom_fields_of_the_scenario :
  JiraUtils.updateCustomFields jira0 "SCRUM-6" customFieldsUpdate []
  = (Ok true,
     [Jira.ListFields; Jira.ListFields; Jira.Console (Jira.FieldNotFound "Owner");
      Jira.UpdateIssue "SCRUM-6" (<["customfield_10010" := VStr "passed"]> ∅);
      Jira.Console Jira.UpdatedCustomFields]).
Proof. vm_compute. reflexivity. Qed.


(** The status DONE is the target of the second transition. *)
Example transition_of_the_scenario :
  JiraUtils.transitionIssue jira0 "SCRUM-6" (VStr "DONE") []
  = (Ok true,
     [Jira.ListTransitions "SCRUM-6"; Jira.TransitionIssue "SCRUM-6" (VStr "31");
      Jira.Console Jira.Transitioned]) /\
  JiraUtils.transitionIssue jira0 "SCRUM-6" (VStr "BLOCKED") []
  = (Ok false,
     [Jira.ListTransitions "SCRUM-6"; Jira.Console Jira.TransitionUnavailable]).
Proof. split; vm_compute; reflexivity. Qed.

(** X21: the test cases that Agent 1 accepts from an answer are the
    value of the text that goes from the first left brace of the cleaned
    answer to its last right brace, and they have a non-empty array of
    scenarios. *)
Theorem accepted_test_cases_have_scenarios w responseText testCases :
  Agent1.extractTestCases w responseText = inr testCases ->
  (exists scenarios,
     getPropOpt testCases "scenarios" = VArr scenarios /\ scenarios <> []) /\
  exists pre body post,
    Agent1.withoutFences responseText = pre ++ "{" ++ body ++ "}" ++ post /\
    all notLeftBrace pre = true /\ all notRightBrace post = true /\
    JSON_parse w ("{" ++ body ++ "}") = Some testCases.
Proof.
  unfold Agent1.extractTestCases.
  destruct (search Agent1.objectAt (Agent1.withoutFences responseText))
    as [json|] eqn:Es; [|discriminate].
  destruct (JSON_parse w json) as [tc|] eqn:Ep; [|discriminate].
  destruct (getProp tc "scenarios") as [scenarios|e] eqn:Eg; [|discriminate].
  destruct (negb (truthy scenarios) || negb (Agent1.isArray scenarios)) eqn:Ev;
    [discriminate|].
  destruct (Agent1.arrayLength scenarios =? 0)%nat eqn:El; [discriminate|].
  intros [= <-]. split.
  - apply orb_false_iff in Ev as [_ Ha]. apply negb_false_iff in Ha.
    destruct scenarios as [| | | | |items|]; try discriminate Ha.
    exists items. split; [apply getProp_opt, Eg|].
    intros ->. discriminate El.
  - apply search_Some in Es as (pre & s' & Hs & Ho & Hmin).
    apply objectAt_Some in Ho as (body & post & -> & -> & Hpost).
    exists pre, body, post. rewrite Hs.
    split; [rewrite !str_app_assoc; reflexivity|]. split; [|auto].
    clear -Hmin. induction pre as [|a pre IH]; [reflexivity|].
    cbn [all]. rewrite IH.
    2:{ intros u v -> Hv. apply (Hmin (String a u) v); auto. }
    rewrite andb_true_r. unfold notLeftBrace.
    destruct (Ascii.eqb a "{") eqn:Ha; [|reflexivity].
    apply Ascii.eqb_eq in Ha. subst a. exfalso.
    specialize (Hmin "" (String "{" pre) eq_refl ltac:(discriminate)).
    revert Hmin. rewrite str_app_cons. unfold Agent1.objectAt.
    assert (Hu : Agent1.upToLast "}" (pre ++ ("{" ++ body ++ "}") ++ post) <> None).
    { replace (pre ++ ("{" ++ body ++ "}") ++ post)
        with ((pre ++ "{" ++ body) ++ String "}" post)
        by (rewrite !str_app_assoc; reflexivity).
      apply upToLast_found. }
    destruct (Agent1.upToLast "}" _); [discriminate|congruence].
Qed.

Lemma accepted_test_cases_have_scenarios_witness :
  (exists scenarios,
     getPropOpt scenariosValue "scenarios" = VArr scenarios /\ scenarios <> []) /\
  exists pre body post,
    Agent1.withoutFences scenariosAnswer = pre ++ "{" ++ body ++ "}" ++ post /\
    all notLeftBrace pre = true /\ all notRightBrace post = true /\
    JSON_parse wScenarios ("{" ++ body ++ "}") = Some scenariosValue.
Proof.
  apply (accepted_test_cases_have_scenarios wScenarios scenariosAnswer scenariosValue).
  vm_compute. reflexivity.
Defined.

(** X22: the files that Agent 2 accepts from an answer are the array
    files of the parsed answer, as it is, and it is accepted exactly when
    every entry has a path that is a string and that starts with one of
    tests/pages/, tests/e2e/, tests/ui/, tests/visual/ or is
    tests/testdata.ts. *)
Theorem generated_files_are_confined w response files :
  Agent2.generatedFiles w response = inr files <->
  exists result,
    JSON_parse w (stripFences response) = Some result /\
    getPropOpt result "files" = VArr files /\
    Forall confined files.
Proof.
  unfold Agent2.generatedFiles, Agent2.checkFiles. split.
  - destruct (JSON_parse w (stripFences response)) as [result|]; [|discriminate].
    destruct (getProp result "files") as [fv|e] eqn:Eg; [|discriminate].
    destruct fv as [| | | | |items|]; try discriminate.
    destruct (Agent2.checkAll items) eqn:Ec; [discriminate|].
    intros [= <-]. exists result. split; [reflexivity|].
    split; [apply getProp_opt, Eg|]. apply checkAll_None, Ec.
  - intros (result & -> & Hf & Hall).
    destruct result as [| | | | | |flds]; cbn [getPropOpt] in Hf; try discriminate Hf.
    cbn [getProp]. rewrite Hf. apply checkAll_None in Hall. rewrite Hall. reflexivity.
Qed.

(** A page object and the test data are accepted; a file at the root
    of the repository is not, and neither is an entry without a path. *)
Example files_of_the_scenario :
  Agent2.checkFiles generatedValue
  = inr [VObj [("path", VStr "tests/pages/CheckoutPage.ts"); ("content", VStr "class")];
         VObj [("path", VStr "tests/testdata.ts"); ("content", VStr "data")]] /\
  Agent2.checkFiles (VObj [("files", VArr [VObj [("path", VStr "package.json")]])])
  = inl (Agent2.InvalidFilePath "package.json") /\
  Agent2.checkFiles (VObj [("files", VArr [VObj [("content", VStr "x")]])])
  = inl (Agent2.Raised TypeError) /\
  Agent2.checkFiles (VObj [("files", VStr "tests/a.ts")]) = inl Agent2.InvalidFormat.
Proof. repeat split; vm_compute; reflexivity. Qed.

(** X23: for a repository URL that ends with a slash, the owner, a
    slash, the name of the repository and, or not, .git, the address of
    the pull-request API names that owner and that repository, provided
    that .git occurs nowhere before (the first occurrence is the one
    that is taken out) and that neither name holds a slash. *)
Theorem pull_request_api_names_the_repository base owner repo :
  all notSlash owner = true -> all notSlash repo = true ->
  includes ".git" (base ++ "/" ++ owner ++ "/" ++ repo) = false ->
  let api := "https://api.github.com/repos/" ++ owner ++ "/" ++ repo ++ "/pulls" in
  Agent2.pullsApiUrl (base ++ "/" ++ owner ++ "/" ++ repo ++ ".git") = api /\
  Agent2.pullsApiUrl (base ++ "/" ++ owner ++ "/" ++ repo) = api.
Proof.
  intros Ho Hr Hg api.
  assert (Hparts : exists l,
    split "/" (base ++ "/" ++ owner ++ "/" ++ repo) = (l ++ [owner; repo])%list).
  { exists (split "/" base).
    change (base ++ "/" ++ owner ++ "/" ++ repo)
      with (base ++ String "/" (owner ++ String "/" repo)).
    rewrite !split_app, (split_plain owner Ho), (split_plain repo Hr). reflexivity. }
  destruct Hparts as [l Hl].
  assert (Hplain : Agent2.pullsApiUrl (base ++ "/" ++ owner ++ "/" ++ repo) = api).
  { unfold Agent2.pullsApiUrl. rewrite (removeFirst_absent _ _ Hg), Hl.
    rewrite fromEnd_before_last.
    change (l ++ [owner; repo])%list with (l ++ [owner] ++ [repo])%list.
    rewrite app_assoc, fromEnd_last. reflexivity. }
  split; [|exact Hplain].
  unfold Agent2.pullsApiUrl.
  replace (base ++ "/" ++ owner ++ "/" ++ repo ++ ".git")
    with ((base ++ "/" ++ owner ++ "/" ++ repo) ++ ".git")
    by (rewrite !str_app_assoc; reflexivity).
  rewrite (removeFirst_git _ Hg).
  unfold Agent2.pullsApiUrl in Hplain.
  rewrite (removeFirst_absent _ _ Hg) in Hplain. exact Hplain.
Qed.

Lemma pull_request_api_names_the_repository_witness :
  let api := "https://api.github.com/repos/" ++ "tenypeter007" ++ "/"
               ++ "playwright-page-object" ++ "/pulls" in
  Agent2.pullsApiUrl ("https://github.com" ++ "/" ++ "tenypeter007" ++ "/"
                        ++ "playwright-page-object" ++ ".git") = api /\
  Agent2.pullsApiUrl ("https://github.com" ++ "/" ++ "tenypeter007" ++ "/"
                        ++ "playwright-page-object") = api.
Proof.
  apply (pull_request_api_names_the_repository "https://github.com" "tenypeter007"
           "playwright-page-object"); vm_compute; reflexivity.
Defined.

(** X24: the link that the server hands to Agent 3 after Agent 2 names
    the user of the environment, not the owner that the repository URL
    names, and the last piece of the URL without its first .git. *)
Theorem pulls_link_names_the_user username base repo :
  all notSlash repo = true -> includes ".git" repo = false ->
  Server.pullsListUrl username (base ++ "/" ++ repo ++ ".git")
  = "https://github.com/" ++ username ++ "/" ++ repo ++ "/pulls".
Proof.
  intros Hr Hg. unfold Server.pullsListUrl, pop.
  change (base ++ "/" ++ repo ++ ".git") with (base ++ String "/" (repo ++ ".git")).
  rewrite split_app, (split_plain (repo ++ ".git")).
  2:{ rewrite all_app, Hr. reflexivity. }
  rewrite List.last_last, (removeFirst_git _ Hg). reflexivity.
Qed.

Lemma pulls_link_names_the_user_witness :
  Server.pullsListUrl "qa-bot" ("https://github.com/tenypeter007" ++ "/"
                                  ++ "playwright-page-object" ++ ".git")
  = "https://github.com/" ++ "qa-bot" ++ "/" ++ "playwright-page-object" ++ "/pulls".
Proof.
  apply (pulls_link_names_the_user "qa-bot" "https://github.com/tenypeter007"
           "playwright-page-object"); vm_compute; reflexivity.
Defined.

End Extras.
